(** * gobbs / neonmodem: the Discourse adapter and its HTTP client

    A shallow embedding of

    - [system/discourse/api] (the client: [NewClient], [Do]),
    - [system/discourse/discourse.go] (the adapter: [Load], [ListPosts],
      [LoadPost], [CreatePost], [CreateReply]),
    - [system/lemmy] (the adapter's [Load]),

    and the properties of the specification that concern them.

    Conventions.  A Go [int] is a [Z]; a Go [string] is a [string]; a Go
    [map[string]T] is a [gmap string T]; a slice is a [list].  A function
    that returns an [error] returns an [option Error] ([None] is Go's
    [nil]); a function that can also panic returns an [outcome].  An object
    passed by pointer and mutated is passed in and returned. *)

From Stdlib Require Import ZArith String Ascii List Lia Bool.
From Stdlib Require Import DecimalString.
From Stdlib Require DecimalPos.
From stdpp Require Import base option list gmap strings.

Local Open Scope string_scope.
Local Open Scope Z_scope.

#[local] Set Warnings "-register-all".

(* ===================================================================== *)
(** ** Go values held in an [interface{}] *)
(* ===================================================================== *)

(** What a [map[string]interface{}] read from the configuration can hold:
    the [nil] interface, a string, an integer, a boolean, a nested
    [map[string]interface{}], or a value of any other dynamic type (a
    [map[string]string], a slice, ...), which no type assertion of this
    program accepts. *)
Inductive Value : Type :=
| VNil
| VString (s : string)
| VInt (z : Z)
| VBool (b : bool)
| VMap (m : gmap string Value)
| VOther (dynamic_type : string).

(** [m[k]] on a Go map: the zero value of [interface{}], [nil], when the
    key is absent. *)
Definition index (m : gmap string Value) (k : string) : Value :=
  default VNil (m !! k).

(* ===================================================================== *)
(** ** Panics and errors *)
(* ===================================================================== *)

Inductive PanicKind : Type :=
| NilDereference          (* invalid memory address or nil pointer dereference *)
| InterfaceConversion     (* x.(T) on a value whose dynamic type is not T *)
| IndexOutOfRange.        (* s[i] with i >= len(s) *)

Inductive outcome (A : Type) : Type :=
| Returns (a : A)
| Panics (p : PanicKind).
Arguments Returns {A} a.
Arguments Panics {A} p.

(* ===================================================================== *)
(** ** strconv *)
(* ===================================================================== *)

Module strconv.

Inductive NumError : Type := ErrSyntax | ErrRange.

Definition digit_of (c : ascii) : option Z :=
  let n := Z.of_nat (nat_of_ascii c) in
  if (48 <=? n) && (n <=? 57) then Some (n - 48) else None.

Definition maxUint64 : Z := 2 ^ 64 - 1.

(** The smallest number whose tenfold exceeds [maxUint64]. *)
Definition cutoff : Z := maxUint64 / 10 + 1.

(** The digit loop of [ParseUint] in base 10, for 64 bits: the bytes of
    the string in order, the number read so far in [n].  A byte that is
    not a decimal digit is a syntax error; a digit that takes the number
    past 64 bits is a range error, whatever follows it. *)
Fixpoint digits (s : string) (n : Z) : NumError + Z :=
  match s with
  | EmptyString => inr n
  | String c s' =>
      match digit_of c with
      | None => inl ErrSyntax
      | Some d =>
          if cutoff <=? n then inl ErrRange
          else
            let n1 := n * 10 + d in
            if maxUint64 <? n1 then inl ErrRange
            else digits s' n1
      end
  end.

Definition minInt : Z := - 2 ^ 63.
Definition maxInt : Z := 2 ^ 63 - 1.

(** [strconv.Atoi]: an optional sign, then one or more decimal digits;
    a value outside the 64-bit [int] is a range error.  The short
    strings [Atoi] converts itself and the others, which it hands to
    [ParseInt], come out alike. *)
Definition Atoi (s : string) : NumError + Z :=
  match s with
  | EmptyString => inl ErrSyntax
  | String c rest =>
      let neg := Ascii.eqb c "-" in
      let body := if neg || Ascii.eqb c "+" then rest else s in
      match body with
      | EmptyString => inl ErrSyntax
      | _ =>
          match digits body 0 with
          | inl e => inl e
          | inr n =>
              let v := if neg then - n else n in
              if (minInt <=? v) && (v <=? maxInt) then inr v
              else inl ErrRange
          end
      end
  end.

(** [strconv.Itoa]: the decimal representation, with a leading [-] for a
    negative number. *)
Definition Itoa (z : Z) : string :=
  NilZero.string_of_int (Z.to_int z).

End strconv.

(* ===================================================================== *)
(** ** context *)
(* ===================================================================== *)

(** A [context.Context] as far as this program observes it: the background
    context, which is never canceled and has no deadline, or a cancelable
    one together with whether it has been canceled. *)
Inductive Context : Type :=
| Background
| WithCancel (canceled : bool).

(* ===================================================================== *)
(** ** The client: package [api] *)
(* ===================================================================== *)

Module api.

(** Fields of [PostModel] that the adapter reads. *)
Record PostModel : Type := mkPostModel {
  PostModel_ID : Z;
  PostModel_Name : string;
  PostModel_UserID : Z;
  PostModel_Cooked : string;
  PostModel_CreatedAt : string
}.

Record Response : Type := mkResponse {
  Response_Type : string;
  Response_Timestamp : Z;
  Response_Message : string;
  Response_Validation : gmap string Value;
  Response_Post : PostModel;
  Response_Posts : list PostModel
}.

(** Go's [error] values that occur in this program.  [RequestError] is
    the struct of the same name; the others are what the libraries
    return. *)
Inductive Error : Type :=
| errors_New (text : string)
| context_Canceled
| NumError (e : strconv.NumError)
| url_Error (recoverable : bool) (text : string)
| GivingUp (attempts : nat) (cause : option Error)
| RequestError (Response : Response) (Err : Error).

Definition RequestError_Type (e : Error) : string :=
  match e with
  | RequestError r _ => Response_Type r
  | _ => ""
  end.

Definition RequestError_Message (e : Error) : string :=
  match e with
  | RequestError r _ => Response_Message r
  | _ => ""
  end.

(** A domain error is a [*RequestError]; every other error is a
    transport error. *)
Definition is_RequestError (e : Error) : bool :=
  match e with
  | RequestError _ _ => true
  | _ => false
  end.

(** A value of the client's interface type [Logger]: the nil interface,
    an interface that holds a nil pointer (a [*zap.SugaredLogger] that
    was never set), or an interface that holds a logger. *)
Inductive Logger : Type :=
| nilLogger
| typedNilLogger
| aLogger.

Definition ctx_Err (ctx : Context) : option Error :=
  match ctx with
  | WithCancel true => Some context_Canceled
  | _ => None
  end.

Record Request : Type := mkRequest {
  Request_Method : string;
  Request_URL : string;
  Request_Header : list (string * string);
  Request_Body : string
}.

(** An [*http.Response]: the status code and what reading the whole body
    yields. *)
Record http_Response : Type := mkHttpResponse {
  StatusCode : Z;
  Body : Error + string
}.

(** One round trip of [http.Client.Do]. *)
Inductive RoundTrip : Type :=
| Failed (err : Error)
| Received (res : http_Response).

(** What lies outside the program: the network, as the outcome of the
    [i]-th round trip of a request, and [json.Unmarshal] into a
    [*Response], which returns the destination as it leaves it and the
    error, if any. *)
Class Wire : Type := {
  roundTrip : Request -> nat -> RoundTrip;
  json_Unmarshal : string -> Response -> Response * option Error
}.

Definition StatusOK : Z := 200.
Definition StatusNoContent : Z := 204.
Definition StatusTooManyRequests : Z := 429.
Definition StatusNotImplemented : Z := 501.

(** *** hashicorp/go-retryablehttp

    The retry loop is the library's, which [NewClient] configures and
    [Do] calls.  It is transcribed from the library's [Client.Do],
    [DefaultRetryPolicy] and [baseRetryPolicy] (v0.7), with the fields
    [NewClient] leaves at their defaults:
    [CheckRetry = DefaultRetryPolicy], no [ErrorHandler]; the waiting
    between attempts is not modelled. *)
Module retryablehttp.

(** The library's [Logger] field: the logger of the library, or the
    [StdLogger] the client wraps its own logger in. *)
Inductive Logger : Type :=
| defaultLogger
| StdLogger (L : api.Logger).

Record Client : Type := mkClient {
  RetryMax : Z;
  Logger_ : Logger
}.

(** [NewClient()]: the library's defaults, 4 for [RetryMax]. *)
Definition NewClient : Client :=
  {| RetryMax := 4; Logger_ := defaultLogger |}.

Definition set_RetryMax (c : Client) (n : Z) : Client :=
  {| RetryMax := n; Logger_ := Logger_ c |}.

Definition set_Logger (c : Client) (l : Logger) : Client :=
  {| RetryMax := RetryMax c; Logger_ := l |}.

(** [Printf] on the logger: the [StdLogger]'s [Printf] calls [Debug] on
    the logger it wraps, which dereferences it. *)
Definition Printf (l : Logger) : option PanicKind :=
  match l with
  | defaultLogger => None
  | StdLogger aLogger => None
  | StdLogger _ => Some NilDereference
  end.

(** [baseRetryPolicy]: whether to retry, and the policy's error. *)
Definition baseRetryPolicy (r : RoundTrip) : bool * option Error :=
  match r with
  | Failed (url_Error false text) => (false, Some (url_Error false text))
  | Failed _ => (true, None)
  | Received res =>
      if StatusCode res =? StatusTooManyRequests then (true, None)
      else if (StatusCode res =? 0)
              || ((500 <=? StatusCode res)
                  && negb (StatusCode res =? StatusNotImplemented))
      then (true, Some (errors_New "unexpected HTTP status"))
      else (false, None)
  end.

(** [DefaultRetryPolicy]: no retry and the context's error once the
    context is done; else the decision of [baseRetryPolicy], without its
    error. *)
Definition DefaultRetryPolicy (ctx : Context) (r : RoundTrip)
  : bool * option Error :=
  match ctx_Err ctx with
  | Some e => (false, Some e)
  | None => (fst (baseRetryPolicy r), None)
  end.

(** The round trip an attempt makes: a canceled context fails it
    before anything is sent. *)
Definition attempt (ctx : Context) (net : nat -> RoundTrip) (i : nat)
  : RoundTrip :=
  match ctx_Err ctx with
  | Some e => Failed e
  | None => net i
  end.

Definition doErr (r : RoundTrip) : option Error :=
  match r with
  | Failed e => Some e
  | Received _ => None
  end.

(** [for i := 0; ; i++]: attempt [i]; stop when the policy says not to
    retry, or when [RetryMax - i <= 0].  [remain] is [RetryMax - i]
    as long as that is positive.  The result is the number of
    attempts made and what [Do] returns. *)
Fixpoint loop (ctx : Context) (net : nat -> RoundTrip)
    (remain : nat) (i : nat) : nat * (Error + http_Response) :=
  let r := attempt ctx net i in
  let '(shouldRetry, checkErr) := DefaultRetryPolicy ctx r in
  let giveUp :=
    (S i, inl (GivingUp (S i)
                 (match checkErr with
                  | Some e => Some e
                  | None => doErr r
                  end))) in
  if shouldRetry then
    match remain with
    | O => giveUp
    | S remain' => loop ctx net remain' (S i)
    end
  else
    match r, checkErr with
    | Received res, None => (S i, inr res)
    | _, _ => giveUp
    end.

(** [Do]: the first thing it does is to log the request; then it runs
    the loop.  The result is the number of attempts made and what [Do]
    returns, or the panic of the logger. *)
Definition Do (c : Client) (ctx : Context) (net : nat -> RoundTrip)
  : outcome (nat * (Error + http_Response)) :=
  match Printf (Logger_ c) with
  | Some p => Panics p
  | None => Returns (loop ctx net (Z.to_nat (RetryMax c)) 0)
  end.

End retryablehttp.

Record ClientConfig : Type := mkClientConfig {
  ClientConfig_Endpoint : string;
  ClientConfig_Credentials : gmap string string;
  ClientConfig_Logger : Logger
}.

Definition NewDefaultClientConfig (endpoint : string)
    (credentials : gmap string string) (logger : Logger) : ClientConfig :=
  {| ClientConfig_Endpoint := endpoint;
     ClientConfig_Credentials := credentials;
     ClientConfig_Logger := logger |}.

(** The endpoint is kept as given: [NewClient] drops the error of
    parsing it, and no operation modelled here resolves a location
    against it. *)
Record Client : Type := mkClient {
  httpClient : retryablehttp.Client;
  endpoint : string;
  credentials : gmap string string;
  logger : Logger
}.

Definition NewStdLogger (l : Logger) : retryablehttp.Logger :=
  retryablehttp.StdLogger l.

(** [NewClient]: [c.logger != nil] holds for every logger but the nil
    interface, also for one that holds a nil pointer. *)
Definition NewClient (cc : ClientConfig) : Client :=
  let httpClient :=
    retryablehttp.set_RetryMax retryablehttp.NewClient 3 in
  {| httpClient :=
       match ClientConfig_Logger cc with
       | nilLogger => httpClient
       | l => retryablehttp.set_Logger httpClient (NewStdLogger l)
       end;
     endpoint := ClientConfig_Endpoint cc;
     credentials := ClientConfig_Credentials cc;
     logger := ClientConfig_Logger cc |}.

Section Do.
Context `{W : Wire}.

(** The number of round trips [Do] makes for a request. *)
Definition Do_attempts (c : Client) (ctx : Context) (req : Request)
  : nat :=
  match retryablehttp.Do (httpClient c) ctx (roundTrip req) with
  | Returns (attempts, _) => attempts
  | Panics _ => 0%nat
  end.

(** The status check at the end of [Do]; [content] is the destination
    after decoding. *)
Definition checkStatus (res : http_Response) (content : option Response)
  : outcome (option Error * option Response) :=
  if (StatusCode res <? StatusOK) || (StatusCode res >? StatusNoContent)
  then
    match content with
    | None => Panics NilDereference
    | Some c =>
        Returns (Some (RequestError c (errors_New "Non-2xx status code")),
                 content)
    end
  else Returns (None, content).

(** [Do]: the error returned and the destination as [Do] leaves it, or
    a panic.  [retryablehttp.FromRequest] wraps the request; it fails
    only when the request body cannot be read, which a body held in
    memory, as [NewRequest] builds it, always can. *)
Definition Do (c : Client) (ctx : Context) (req : Request)
    (content : option Response)
  : outcome (option Error * option Response) :=
  match retryablehttp.Do (httpClient c) ctx (roundTrip req) with
  | Panics p => Panics p
  | Returns (_, inl err) => Returns (Some err, content)
  | Returns (_, inr res) =>
      match Body res with
      | inl err => Returns (Some err, content)
      | inr body =>
          match content with
          | Some dst =>
              match json_Unmarshal body dst with
              | (dst', Some err) => Returns (Some err, Some dst')
              | (dst', None) => checkStatus res (Some dst')
              end
          | None => checkStatus res None
          end
      end
  end.

End Do.

End api.

(* ===================================================================== *)
(** ** The canonical model: packages [author], [forum], [reply], [post] *)
(* ===================================================================== *)

(** A [time.Time], as nanoseconds since the epoch. *)
Definition Time : Type := Z.

Module author.
Record Author : Type := mkAuthor {
  ID : string;
  Name : string
}.
End author.

Module forum.
Record Forum : Type := mkForum {
  ID : string;
  Name : string
}.
End forum.

Module reply.
Record Reply : Type := mkReply {
  ID : string;
  InReplyTo : string;
  Body : string;
  CreatedAt : Time;
  Author : author.Author;
  SysIDX : Z
}.

Definition set_ID (r : Reply) (id : string) : Reply :=
  {| ID := id; InReplyTo := InReplyTo r; Body := Body r;
     CreatedAt := CreatedAt r; Author := Author r; SysIDX := SysIDX r |}.
End reply.

Module post.
Record Post : Type := mkPost {
  ID : string;
  Subject : string;
  Body : string;
  Type_ : string;
  Pinned : bool;
  Closed : bool;
  CreatedAt : Time;
  LastCommentedAt : Time;
  Author : author.Author;
  Forum : forum.Forum;
  Replies : list reply.Reply;
  SysIDX : Z
}.

Definition set_ID (p : Post) (id : string) : Post :=
  {| ID := id; Subject := Subject p; Body := Body p; Type_ := Type_ p;
     Pinned := Pinned p; Closed := Closed p; CreatedAt := CreatedAt p;
     LastCommentedAt := LastCommentedAt p; Author := Author p;
     Forum := Forum p; Replies := Replies p; SysIDX := SysIDX p |}.

Definition set_Body (p : Post) (body : string) : Post :=
  {| ID := ID p; Subject := Subject p; Body := body; Type_ := Type_ p;
     Pinned := Pinned p; Closed := Closed p; CreatedAt := CreatedAt p;
     LastCommentedAt := LastCommentedAt p; Author := Author p;
     Forum := Forum p; Replies := Replies p; SysIDX := SysIDX p |}.

Definition set_Replies (p : Post) (rs : list reply.Reply) : Post :=
  {| ID := ID p; Subject := Subject p; Body := Body p; Type_ := Type_ p;
     Pinned := Pinned p; Closed := Closed p; CreatedAt := CreatedAt p;
     LastCommentedAt := LastCommentedAt p; Author := Author p;
     Forum := Forum p; Replies := rs; SysIDX := SysIDX p |}.
End post.

(* ===================================================================== *)
(** ** The backend's shapes and service handlers *)
(* ===================================================================== *)

(** The request and response types of package [api] and its service
    handlers are declared outside the files modelled here; the fields are
    those the adapter reads and writes, and a field the adapter does not
    set holds Go's zero value. *)
Module wire.
Import api.

Inductive CategoryModel : Type :=
  mkCategoryModel (ID : Z) (Name : string)
                  (SubcategoryList : list CategoryModel).

Definition CategoryModel_ID (c : CategoryModel) : Z :=
  match c with mkCategoryModel id _ _ => id end.
Definition CategoryModel_Name (c : CategoryModel) : string :=
  match c with mkCategoryModel _ name _ => name end.
Definition CategoryModel_SubcategoryList (c : CategoryModel)
  : list CategoryModel :=
  match c with mkCategoryModel _ _ subs => subs end.

Record CategoryListModel : Type := mkCategoryListModel {
  Categories : list CategoryModel
}.

Record CategoriesResponse : Type := mkCategoriesResponse {
  CategoryList : CategoryListModel
}.

Record PosterModel : Type := mkPosterModel {
  PosterModel_UserID : Z
}.

Record TopicModel : Type := mkTopicModel {
  TopicModel_ID : Z;
  TopicModel_Title : string;
  TopicModel_CreatedAt : string;
  TopicModel_LastPostedAt : string;
  TopicModel_Pinned : bool;
  TopicModel_Closed : bool;
  TopicModel_CategoryID : Z;
  TopicModel_Posters : list PosterModel
}.

Record UserModel : Type := mkUserModel {
  UserModel_ID : Z;
  UserModel_Name : string
}.

Record TopicListModel : Type := mkTopicListModel {
  Topics : list TopicModel
}.

Record LatestTopicsResponse : Type := mkLatestTopicsResponse {
  Users : list UserModel;
  TopicList : TopicListModel
}.

Record PostStreamModel : Type := mkPostStreamModel {
  Posts : list PostModel
}.

Record SingleTopicResponse : Type := mkSingleTopicResponse {
  PostStream : PostStreamModel
}.

Record CreatePostModel : Type := mkCreatePostModel {
  Title : string;
  Raw : string;
  Category : Z;
  TopicID : Z;
  ReplyToPostNumber : Z;
  CreatedAt : string
}.

(** A call of a service handler, with the context handed to it. *)
Inductive NetCall : Type :=
| CategoriesList (ctx : Context)
| TopicsListLatest (ctx : Context)
| TopicsShow (ctx : Context) (id : string)
| PostsCreate (ctx : Context) (ap : CreatePostModel)
| LemmyLogin (ctx : Context) (usernameOrEmail password : string).

Definition NetCall_ctx (c : NetCall) : Context :=
  match c with
  | CategoriesList ctx
  | TopicsListLatest ctx
  | TopicsShow ctx _
  | PostsCreate ctx _
  | LemmyLogin ctx _ _ => ctx
  end.

End wire.

(* ===================================================================== *)
(** ** Calls, panics and the call log *)
(* ===================================================================== *)

(** An adapter operation yields the service calls it made, in order, and
    either its results or a panic. *)
Definition M (A : Type) : Type := list wire.NetCall * outcome A.

Definition ret {A} (a : A) : M A := ([], Returns a).

Definition panic {A} (p : PanicKind) : M A := ([], Panics p).

Definition bind {A B} (m : M A) (f : A -> M B) : M B :=
  match m with
  | (calls, Returns a) =>
      let '(calls', r) := f a in ((calls ++ calls')%list, r)
  | (calls, Panics p) => (calls, Panics p)
  end.

Definition called {A} (c : wire.NetCall) (a : A) : M A := ([c], Returns a).

Definition calls {A} (m : M A) : list wire.NetCall := fst m.
Definition result {A} (m : M A) : outcome A := snd m.

Declare Scope go_scope.
Delimit Scope go_scope with go.
Notation "x <- e ;; k" := (bind e (fun x => k))
  (at level 100, e at next level, k at level 200, right associativity)
  : go_scope.
Local Open Scope go_scope.

(** An operation that reads the clock is run from the number of readings
    taken so far, and yields with its result the number after it. *)
Definition Op (A : Type) : Type := nat -> M (A * nat).

Definition oret {A} (a : A) : Op A := fun n => ret (a, n).

Definition opanic {A} (p : PanicKind) : Op A := fun _ => panic p.

Definition obind {A B} (m : Op A) (f : A -> Op B) : Op B :=
  fun n => bind (m n) (fun an => f (fst an) (snd an)).

Definition ocalled {A} (c : wire.NetCall) (a : A) : Op A :=
  fun n => called c (a, n).

(** What an operation returned, without the clock. *)
Definition value {A} (m : M (A * nat)) : outcome A :=
  match snd m with
  | Returns an => Returns (fst an)
  | Panics p => Panics p
  end.

Notation "x <-- e ;; k" := (obind e (fun x => k))
  (at level 100, e at next level, k at level 200, right associativity)
  : go_scope.

(** A [for ... range] loop that appends one element per item, and whose
    body can read the clock and can panic. *)
Fixpoint forEach {A B} (f : A -> Op B) (l : list A) : Op (list B) :=
  match l with
  | [] => oret []
  | x :: l' =>
      y <-- f x ;;
      ys <-- forEach f l' ;;
      oret (y :: ys)
  end.

(** The credentials loop of both adapters,
    [for k, v := range cfg["credentials"].(map[string]interface{})
       { credentials[k] = v.(string) }]:
    each of the two type assertions panics on a value of another dynamic
    type. *)
Definition credentialsOf (v : Value) : outcome (gmap string string) :=
  match v with
  | VMap m =>
      map_fold
        (fun k v acc =>
           match acc, v with
           | Returns credentials, VString s => Returns (<[k := s]> credentials)
           | Returns _, _ => Panics InterfaceConversion
           | Panics p, _ => Panics p
           end)
        (Returns ∅) m
  | _ => Panics InterfaceConversion
  end.

(** A [*zap.SugaredLogger] that has been set. *)
Inductive SugaredLogger : Type := zapLogger.

(* ===================================================================== *)
(** ** The Discourse adapter: package [discourse] *)
(* ===================================================================== *)

Module discourse.
Import api wire.

(** The service handlers of the client and the libraries the adapter
    calls.  [time_Now n] is what [time.Now()] returns at the [n]-th
    reading of the clock. *)
Class Services : Type := {
  Categories_List : Client -> Context -> Error + CategoriesResponse;
  Topics_ListLatest : Client -> Context -> Error + LatestTopicsResponse;
  Topics_Show : Client -> Context -> string -> Error + SingleTopicResponse;
  Posts_Create : Client -> Context -> CreatePostModel -> Error + PostModel;
  dateparse_ParseAny : string -> Error + Time;
  time_Now : nat -> Time;
  time_Format_RFC3339Nano : Time -> string;
  md_ConvertString : string -> Error + string
}.

Record System : Type := mkSystem {
  ID : Z;
  config : gmap string Value;
  logger : option SugaredLogger;
  client : option Client
}.

Definition set_client (sys : System) (c : Client) : System :=
  {| ID := ID sys; config := config sys; logger := logger sys;
     client := Some c |}.

(** [sys.logger] as a value of the client's interface [Logger]: a pointer
    that was never set makes an interface that holds a nil pointer. *)
Definition loggerOf (sys : System) : api.Logger :=
  match logger sys with
  | Some _ => aLogger
  | None => typedNilLogger
  end.

(** [Load]. *)
Definition Load (sys : System) : M (option Error * System) :=
  let url := index (config sys) "url" in
  match url with
  | VNil => ret (None, sys)
  | _ =>
      match credentialsOf (index (config sys) "credentials") with
      | Panics p => panic p
      | Returns credentials =>
          match url with
          | VString endpoint =>
              ret (None,
                   set_client sys
                     (NewClient
                        {| ClientConfig_Endpoint := endpoint;
                           ClientConfig_Credentials := credentials;
                           ClientConfig_Logger := loggerOf sys |}))
          | _ => panic InterfaceConversion
          end
      end
  end.

Section Operations.
Context `{Svc : Services}.

(** [sys.client.X]: a nil client panics. *)
Definition theClient (sys : System) : Op Client :=
  match client sys with
  | Some c => oret c
  | None => opanic NilDereference
  end.

(** The user-name loop of [ListPosts]. *)
Fixpoint userName (users : list UserModel) (userID : Z) : string :=
  match users with
  | [] => ""
  | u :: users' =>
      if UserModel_ID u =? userID then UserModel_Name u
      else userName users' userID
  end.

(** [time.Now()]: the next reading of the clock. *)
Definition now : Op Time := fun n => ret (time_Now n, S n).

(** [dateparse.ParseAny(s)], with [time.Now()] on a parse error. *)
Definition parseOrNow (s : string) : Op Time :=
  match dateparse_ParseAny s with
  | inr t => oret t
  | inl _ => now
  end.

(** The inner loop of the forum-name resolution: over the
    subcategories of one category; its [break] leaves this loop
    only. *)
Fixpoint subcategoryLoop (subcats : list CategoryModel) (categoryID : Z)
    (forumName : string) : string :=
  match subcats with
  | [] => forumName
  | subcat :: subcats' =>
      if CategoryModel_ID subcat =? categoryID
      then CategoryModel_Name subcat
      else subcategoryLoop subcats' categoryID forumName
  end.

(** The outer loop: over the categories; [forumName] is the variable
    of that name. *)
Fixpoint categoryLoop (cats : list CategoryModel) (categoryID : Z)
    (forumName : string) : string :=
  match cats with
  | [] => forumName
  | cat :: cats' =>
      if CategoryModel_ID cat =? categoryID
      then CategoryModel_Name cat
      else
        categoryLoop cats' categoryID
          (subcategoryLoop (CategoryModel_SubcategoryList cat)
             categoryID forumName)
  end.

Definition forumName (cats : CategoriesResponse) (categoryID : Z)
  : string :=
  categoryLoop (Categories (CategoryList cats)) categoryID "".

(** The body of the loop of [ListPosts] for one topic. *)
Definition topicToPost (sys : System) (cats : CategoriesResponse)
    (users : list UserModel) (i : TopicModel) : Op post.Post :=
  match TopicModel_Posters i with
  | [] => opanic IndexOutOfRange
  | poster0 :: _ =>
      createdAt <-- parseOrNow (TopicModel_CreatedAt i) ;;
      lastCommentedAt <-- parseOrNow (TopicModel_LastPostedAt i) ;;
      oret {| post.ID := strconv.Itoa (TopicModel_ID i);
              post.Subject := TopicModel_Title i;
              post.Body := "";
              post.Type_ := "post";
              post.Pinned := TopicModel_Pinned i;
              post.Closed := TopicModel_Closed i;
              post.CreatedAt := createdAt;
              post.LastCommentedAt := lastCommentedAt;
              post.Author :=
                {| author.ID := strconv.Itoa (PosterModel_UserID poster0);
                   author.Name :=
                     userName users (PosterModel_UserID poster0) |};
              post.Forum :=
                {| forum.ID := strconv.Itoa (TopicModel_CategoryID i);
                   forum.Name := forumName cats (TopicModel_CategoryID i) |};
              post.Replies := [];
              post.SysIDX := ID sys |}
  end.

(** [ListPosts]. *)
Definition ListPosts (sys : System) : Op (list post.Post * option Error) :=
  c <-- theClient sys ;;
  cats <-- ocalled (CategoriesList Background)
             (Categories_List c Background) ;;
  match cats with
  | inl err => oret ([], Some err)
  | inr cats =>
      items <-- ocalled (TopicsListLatest Background)
                  (Topics_ListLatest c Background) ;;
      match items with
      | inl err => oret ([], Some err)
      | inr items =>
          models <-- forEach (topicToPost sys cats (Users items))
                       (Topics (TopicList items)) ;;
          oret (models, None)
      end
  end.

(** The converted content of a raw post: the rich text itself when the
    conversion fails. *)
Definition cookedMd (i : PostModel) : string :=
  match md_ConvertString (PostModel_Cooked i) with
  | inr s => s
  | inl _ => PostModel_Cooked i
  end.

(** The reply [LoadPost] appends for a raw post, with the timestamp in
    its variable [createdAt]. *)
Definition toReply (sys : System) (p : post.Post) (i : PostModel)
    (createdAt : Time) : reply.Reply :=
  {| reply.ID := strconv.Itoa (PostModel_ID i);
     reply.InReplyTo := post.ID p;
     reply.Body := cookedMd i;
     reply.CreatedAt := createdAt;
     reply.Author :=
       {| author.ID := strconv.Itoa (PostModel_UserID i);
          author.Name := PostModel_Name i |};
     reply.SysIDX := ID sys |}.

(** The loop of [LoadPost] from index [idx] on. *)
Fixpoint postStreamLoop (sys : System) (idx : nat)
    (posts : list PostModel) (p : post.Post) : Op post.Post :=
  match posts with
  | [] => oret p
  | i :: posts' =>
      match idx with
      | O => postStreamLoop sys (S idx) posts' (post.set_Body p (cookedMd i))
      | S _ =>
          createdAt <-- parseOrNow (PostModel_CreatedAt i) ;;
          postStreamLoop sys (S idx) posts'
            (post.set_Replies p
               (post.Replies p ++ [toReply sys p i createdAt]))
      end
  end.

(** [LoadPost]. *)
Definition LoadPost (sys : System) (p : post.Post)
  : Op (option Error * post.Post) :=
  c <-- theClient sys ;;
  item <-- ocalled (TopicsShow Background (post.ID p))
             (Topics_Show c Background (post.ID p)) ;;
  match item with
  | inl err => oret (Some err, p)
  | inr item =>
      p' <-- postStreamLoop sys 0 (Posts (PostStream item)) p ;;
      oret (None, p')
  end.

(** [CreatePost]. *)
Definition CreatePost (sys : System) (p : post.Post)
  : Op (option Error * post.Post) :=
  match strconv.Atoi (forum.ID (post.Forum p)) with
  | inl e => oret (Some (NumError e), p)
  | inr categoryID =>
      createdAt <-- now ;;
      let ap := {| Title := post.Subject p;
                   Raw := post.Body p;
                   Category := categoryID;
                   TopicID := 0;
                   ReplyToPostNumber := 0;
                   CreatedAt := time_Format_RFC3339Nano createdAt |} in
      c <-- theClient sys ;;
      cp <-- ocalled (PostsCreate Background ap)
               (Posts_Create c Background ap) ;;
      match cp with
      | inl err => oret (Some err, p)
      | inr cp =>
          oret (None, post.set_ID p (strconv.Itoa (PostModel_ID cp)))
      end
  end.

(** The request [CreateReply] builds from the parsed [ID], the value of
    its variable [inReplyTo] and the reading of the clock. *)
Definition replyRequest (r : reply.Reply) (ID inReplyTo : Z)
    (createdAt : Time) : CreatePostModel :=
  if inReplyTo =? -1 then
    {| Title := "";
       Raw := reply.Body r;
       Category := 0;
       TopicID := ID;
       ReplyToPostNumber := 0;
       CreatedAt := time_Format_RFC3339Nano createdAt |}
  else
    {| Title := "";
       Raw := reply.Body r;
       Category := 0;
       TopicID := inReplyTo;
       ReplyToPostNumber := ID;
       CreatedAt := time_Format_RFC3339Nano createdAt |}.

(** [var inReplyTo int = -1], overwritten by the parsed [InReplyTo]
    when that is not the empty string. *)
Definition parseInReplyTo (r : reply.Reply) : strconv.NumError + Z :=
  match reply.InReplyTo r with
  | EmptyString => inr (-1)
  | s => strconv.Atoi s
  end.

(** [CreateReply]. *)
Definition CreateReply (sys : System) (r : reply.Reply)
  : Op (option Error * reply.Reply) :=
  match logger sys with
  | None => opanic NilDereference
  | Some _ =>
      match strconv.Atoi (reply.ID r) with
      | inl e => oret (Some (NumError e), r)
      | inr ID =>
          match parseInReplyTo r with
          | inl e => oret (Some (NumError e), r)
          | inr inReplyTo =>
              createdAt <-- now ;;
              let ap := replyRequest r ID inReplyTo createdAt in
              c <-- theClient sys ;;
              cp <-- ocalled (PostsCreate Background ap)
                       (Posts_Create c Background ap) ;;
              match cp with
              | inl err => oret (Some err, r)
              | inr cp =>
                  oret (None,
                        reply.set_ID r (strconv.Itoa (PostModel_ID cp)))
              end
          end
      end
  end.

End Operations.

End discourse.

(* ===================================================================== *)
(** ** The Lemmy adapter: package [lemmy] *)
(* ===================================================================== *)

Module lemmy.
Import api wire.

Inductive LemmyClient : Type := mkLemmyClient (baseURL : string).

(** The go-lemmy library: [lemmy.New] returns a client and an error;
    [Client.Login] logs in over the network. *)
Class Library : Type := {
  lemmy_New : string -> option LemmyClient * option Error;
  lemmy_Login : LemmyClient -> Context -> string -> string -> option Error
}.

Record System : Type := mkSystem {
  config : gmap string Value;
  logger : option SugaredLogger;
  client : option LemmyClient
}.

Definition set_client (sys : System) (c : option LemmyClient) : System :=
  {| config := config sys; logger := logger sys; client := c |}.

Section Load.
Context `{L : Library}.

(** [Load]. *)
Definition Load (sys : System) : M (option Error * System) :=
  match index (config sys) "url" with
  | VNil => ret (None, sys)
  | VString url =>
      let '(c, err) := lemmy_New url in
      let sys := set_client sys c in
      match err with
      | Some err => ret (Some err, sys)
      | None =>
          match credentialsOf (index (config sys) "credentials") with
          | Panics p => panic p
          | Returns credentials =>
              match c with
              | None => panic NilDereference
              | Some c =>
                  let username := default "" (credentials !! "username") in
                  let password := default "" (credentials !! "password") in
                  err <- called (LemmyLogin Background username password)
                           (lemmy_Login c Background username password) ;;
                  ret (err, sys)
              end
          end
      end
  | _ => panic InterfaceConversion
  end.

End Load.

End lemmy.

(* ===================================================================== *)
(** ** What the specification says, in its own words *)
(* ===================================================================== *)

Module spec.
Import api wire.

(** The statuses of a retryable class: 429, 0, and the 5xx range but
    501. *)
Definition retryable_status (code : Z) : bool :=
  (code =? 429) || (code =? 0) || ((500 <=? code) && negb (code =? 501)).

(** A transient failure: a network error that can pass, or a response
    with a status of a retryable class. *)
Definition transient (r : RoundTrip) : bool :=
  match r with
  | Failed (url_Error recoverable _) => recoverable
  | Failed _ => true
  | Received res => retryable_status (StatusCode res)
  end.

(** The logger is one that can be logged to: not an interface that
    holds a nil pointer. *)
Definition usable (l : Logger) : Prop := l <> typedNilLogger.

(** The status lies outside the success range [200, 204]. *)
Definition outside_success (res : http_Response) : Prop :=
  StatusCode res < 200 \/ 204 < StatusCode res.

Definition has_ID (categoryID : Z) (c : CategoryModel) : bool :=
  CategoryModel_ID c =? categoryID.

(** Category resolution as the specification words it: all direct
    categories first, then the subcategories of each category in turn;
    the first match wins; the empty name when nothing matches. *)
Definition forumName (cats : list CategoryModel) (categoryID : Z)
  : string :=
  match find (has_ID categoryID) cats with
  | Some cat => CategoryModel_Name cat
  | None =>
      match find (has_ID categoryID)
              (flat_map CategoryModel_SubcategoryList cats) with
      | Some subcat => CategoryModel_Name subcat
      | None => ""
      end
  end.

Definition isString (v : Value) : bool :=
  match v with
  | VString _ => true
  | _ => false
  end.

(** The value is a map from string keys to string values. *)
Definition is_string_map (v : Value) : bool :=
  match v with
  | VMap m => bool_decide (map_Forall (fun _ x => isString x = true) m)
  | _ => false
  end.

(** An operation that ran as [m] on the object [before] honours the
    caller's context [cctx]: every service call carries it, and when it
    is canceled the operation returns the cancellation error and the
    object as it was. *)
Definition honours_context {X} (cctx : Context)
    (m : M (option Error * X * nat)) (before : X) : Prop :=
  Forall (fun call => NetCall_ctx call = cctx) (calls m)
  /\ (ctx_Err cctx = Some context_Canceled ->
      value m = Returns (Some context_Canceled, before)).

End spec.

(* ===================================================================== *)
(** ** Concrete backends and inputs *)
(* ===================================================================== *)

Module fixtures.
Import api wire.

Definition noPost : PostModel := mkPostModel 0 "" 0 "" "".
Definition noResponse : Response := mkResponse "" 0 "" ∅ noPost [].

(** A decoder for the examples: a body that starts with [<] is not
    JSON; any other body decodes to an error envelope with the body as
    its message. *)
Definition decode (body : string) (dst : Response)
  : Response * option Error :=
  if String.prefix "<" body
  then (dst, Some (errors_New "invalid character '<'"))
  else (mkResponse "error" (Response_Timestamp dst) body
          (Response_Validation dst) (Response_Post dst)
          (Response_Posts dst), None).

(** A network that refuses every connection. *)
Definition refusing : Wire :=
  {| roundTrip := fun _ _ => Failed (url_Error true "connection refused");
     json_Unmarshal := decode |}.

(** A server that answers 500 with an envelope, every time. *)
Definition serverError : Wire :=
  {| roundTrip := fun _ _ =>
       Received {| StatusCode := 500; Body := inr "internal error" |};
     json_Unmarshal := decode |}.

(** A server that answers 503 twice and then 200. *)
Definition recovering : Wire :=
  {| roundTrip := fun _ i =>
       if (i <? 2)%nat
       then Received {| StatusCode := 503; Body := inr "busy" |}
       else Received {| StatusCode := 200; Body := inr "fine" |};
     json_Unmarshal := decode |}.

(** A server that answers 404 with an envelope. *)
Definition notFound : Wire :=
  {| roundTrip := fun _ _ =>
       Received {| StatusCode := 404; Body := inr "not found" |};
     json_Unmarshal := decode |}.

(** A server that answers 404 with an HTML page. *)
Definition notFoundHtml : Wire :=
  {| roundTrip := fun _ _ =>
       Received {| StatusCode := 404; Body := inr "<html>" |};
     json_Unmarshal := decode |}.

Definition getTopic : Request :=
  mkRequest "GET" "https://forum.example/t/1.json" [] "".

Definition cc : ClientConfig :=
  {| ClientConfig_Endpoint := "https://forum.example";
     ClientConfig_Credentials := ∅;
     ClientConfig_Logger := aLogger |}.

(** Two categories that each hold a subcategory with the ID 11. *)
Definition twoParents : list CategoryModel :=
  [ mkCategoryModel 1 "A" [mkCategoryModel 11 "A1" []];
    mkCategoryModel 2 "B" [mkCategoryModel 11 "B1" []] ].

(** The category tree of the specification's example. *)
Definition oneParent : list CategoryModel :=
  [ mkCategoryModel 1 "A" [mkCategoryModel 11 "A1" []] ].

Definition topic : TopicModel :=
  {| TopicModel_ID := 100;
     TopicModel_Title := "Hello";
     TopicModel_CreatedAt := "1600000000";
     TopicModel_LastPostedAt := "yesterday";
     TopicModel_Pinned := false;
     TopicModel_Closed := false;
     TopicModel_CategoryID := 11;
     TopicModel_Posters := [ {| PosterModel_UserID := 7 |} ] |}.

Definition thread : list PostModel :=
  [ mkPostModel 1 "ann" 7 "<p>root</p>" "1600000000";
    mkPostModel 2 "bob" 8 "<p>reply</p>" "1600000100" ].

(** A backend over a category tree.  Every handler honours the context
    it is given: a canceled context yields the cancellation error. *)
Definition backend (cats : list CategoryModel) : discourse.Services :=
  {| discourse.Categories_List := fun _ ctx =>
       match ctx_Err ctx with
       | Some e => inl e
       | None => inr {| CategoryList := {| Categories := cats |} |}
       end;
     discourse.Topics_ListLatest := fun _ ctx =>
       match ctx_Err ctx with
       | Some e => inl e
       | None =>
           inr {| Users := [ {| UserModel_ID := 7;
                                UserModel_Name := "ann" |} ];
                  TopicList := {| Topics := [topic] |} |}
       end;
     discourse.Topics_Show := fun _ ctx _ =>
       match ctx_Err ctx with
       | Some e => inl e
       | None => inr {| PostStream := {| Posts := thread |} |}
       end;
     discourse.Posts_Create := fun _ ctx _ =>
       match ctx_Err ctx with
       | Some e => inl e
       | None => inr (mkPostModel 42 "" 0 "" "")
       end;
     discourse.dateparse_ParseAny := fun s =>
       match strconv.Atoi s with
       | inr t => inr t
       | inl e => inl (NumError e)
       end;
     discourse.time_Now := fun n => 1700000000 + Z.of_nat n;
     discourse.time_Format_RFC3339Nano := strconv.Itoa;
     discourse.md_ConvertString := fun s => inr s |}.

Definition loaded : discourse.System :=
  {| discourse.ID := 0;
     discourse.config := {[ "url" := VString "https://forum.example" ]};
     discourse.logger := Some zapLogger;
     discourse.client := Some (NewClient cc) |}.

Definition unconfigured : discourse.System :=
  {| discourse.ID := 0;
     discourse.config := ∅;
     discourse.logger := Some zapLogger;
     discourse.client := None |}.

Definition noCredentials : discourse.System :=
  {| discourse.ID := 0;
     discourse.config := {[ "url" := VString "https://forum.example" ]};
     discourse.logger := Some zapLogger;
     discourse.client := None |}.

Definition aPost : post.Post :=
  {| post.ID := "1"; post.Subject := "Hello"; post.Body := "";
     post.Type_ := "post"; post.Pinned := false; post.Closed := false;
     post.CreatedAt := 0; post.LastCommentedAt := 0;
     post.Author := author.mkAuthor "7" "ann";
     post.Forum := forum.mkForum "11" "A1";
     post.Replies := []; post.SysIDX := 0 |}.

Definition aReply (id inReplyTo : string) : reply.Reply :=
  {| reply.ID := id; reply.InReplyTo := inReplyTo; reply.Body := "hi";
     reply.CreatedAt := 0; reply.Author := author.mkAuthor "7" "ann";
     reply.SysIDX := 0 |}.

Definition goLemmy : lemmy.Library :=
  {| lemmy.lemmy_New := fun url => (Some (lemmy.mkLemmyClient url), None);
     lemmy.lemmy_Login := fun _ ctx _ _ => ctx_Err ctx |}.

Definition lemmyUnconfigured : lemmy.System :=
  {| lemmy.config := ∅; lemmy.logger := None; lemmy.client := None |}.

Definition lemmyNoCredentials : lemmy.System :=
  {| lemmy.config := {[ "url" := VString "https://lemmy.example" ]};
     lemmy.logger := None; lemmy.client := None |}.

End fixtures.

(* ===================================================================== *)
(** ** The rest of the adapter and of the client *)
(* ===================================================================== *)

(** The accessors of the Discourse adapter. *)
Module accessors.

Definition GetID (sys : discourse.System) : Z := discourse.ID sys.

Definition SetID (sys : discourse.System) (id : Z) : discourse.System :=
  {| discourse.ID := id;
     discourse.config := discourse.config sys;
     discourse.logger := discourse.logger sys;
     discourse.client := discourse.client sys |}.

Definition GetConfig (sys : discourse.System) : gmap string Value :=
  discourse.config sys.

Definition SetConfig (sys : discourse.System) (cfg : gmap string Value)
  : discourse.System :=
  {| discourse.ID := discourse.ID sys;
     discourse.config := cfg;
     discourse.logger := discourse.logger sys;
     discourse.client := discourse.client sys |}.

Definition SetLogger (sys : discourse.System) (logger : SugaredLogger)
  : discourse.System :=
  {| discourse.ID := discourse.ID sys;
     discourse.config := discourse.config sys;
     discourse.logger := Some logger;
     discourse.client := discourse.client sys |}.

(** [Title]: [sys.config["url"].(string)]. *)
Definition Title (sys : discourse.System) : outcome string :=
  match index (discourse.config sys) "url" with
  | VString url => Returns url
  | _ => Panics InterfaceConversion
  end.

Definition Description (sys : discourse.System) : string := "Discourse".

End accessors.

(** [NewRequest] of the client. *)
Module request.
Import api.

Section NewRequest.
Variable B : Type.

(** The libraries [NewRequest] calls, for request bodies of type [B]:
    [resolve endpoint location] is the endpoint as [NewClient] parsed it
    (nil when it did not parse), its [Parse(location)] and the [String()]
    of the result; [json_Encode] is what [json.NewEncoder(buffer).Encode]
    writes; [http_NewRequest] is the error of [http.NewRequest] for a
    method and a URL, if any.  [http.NewRequest] makes a GET of a request
    without a method. *)
Class Library : Type := {
  resolve : string -> string -> outcome (Error + string);
  json_Encode : B -> Error + string;
  http_NewRequest : string -> string -> option Error
}.

Context `{Lib : Library}.

Definition NewRequest (c : Client) (ctx : Context)
    (method location : string) (body : option B)
  : outcome (Error + Request) :=
  match resolve (endpoint c) location with
  | Panics p => Panics p
  | Returns (inl err) => Returns (inl err)
  | Returns (inr parsedURL) =>
      match (match body with
             | Some b => json_Encode b
             | None => inr ""
             end) with
      | inl err => Returns (inl err)
      | inr buffer =>
          match http_NewRequest method parsedURL with
          | Some err => Returns (inl err)
          | None =>
              Returns
                (inr {| Request_Method :=
                          match method with
                          | EmptyString => "GET"
                          | _ => method
                          end;
                        Request_URL := parsedURL;
                        Request_Header :=
                          [ ("User-Agent", "gobbs");
                            ("Accept", "application/json");
                            ("Content-Type", "application/json");
                            ("User-Api-Client-Id",
                             default "" (credentials c !! "client_id"));
                            ("User-Api-Key",
                             default "" (credentials c !! "key")) ];
                        Request_Body := buffer |})
          end
      end
  end.

End NewRequest.

(** The values of a header, in the order they were added. *)
Definition Header_Values (req : Request) (key : string) : list string :=
  map snd (filter (fun kv => String.eqb (fst kv) key) (Request_Header req)).

End request.

(** Reading a decimal numeral. *)
Module decimal.

(** The value of the digits of [d], most significant first, after the
    digits already read into [acc]. *)
Fixpoint value (d : Decimal.uint) (acc : Z) : Z :=
  match d with
  | Decimal.Nil => acc
  | Decimal.D0 d => value d (acc * 10)
  | Decimal.D1 d => value d (acc * 10 + 1)
  | Decimal.D2 d => value d (acc * 10 + 2)
  | Decimal.D3 d => value d (acc * 10 + 3)
  | Decimal.D4 d => value d (acc * 10 + 4)
  | Decimal.D5 d => value d (acc * 10 + 5)
  | Decimal.D6 d => value d (acc * 10 + 6)
  | Decimal.D7 d => value d (acc * 10 + 7)
  | Decimal.D8 d => value d (acc * 10 + 8)
  | Decimal.D9 d => value d (acc * 10 + 9)
  end.

End decimal.

(** More backends and inputs. *)
Module cases.
Import api wire.

(** A server that answers 200 with an envelope. *)
Definition ok200 : Wire :=
  {| roundTrip := fun _ _ =>
       Received {| StatusCode := 200; Body := inr "welcome" |};
     json_Unmarshal := fixtures.decode |}.

(** A server that answers 204 and whose body cannot be read. *)
Definition brokenBody : Wire :=
  {| roundTrip := fun _ _ =>
       Received {| StatusCode := 204;
                   Body := inl (errors_New "unexpected EOF") |};
     json_Unmarshal := fixtures.decode |}.


Definition someCredentials : gmap string Value :=
  {[ "client_id" := VString "abc"; "key" := VString "s3cret" ]}.

Definition configured : discourse.System :=
  {| discourse.ID := 3;
     discourse.config :=
       {[ "url" := VString "https://forum.example";
          "credentials" := VMap someCredentials ]};
     discourse.logger := Some zapLogger;
     discourse.client := None |}.

Definition lemmyConfigured : lemmy.System :=
  {| lemmy.config :=
       {[ "url" := VString "https://lemmy.example";
          "credentials" := VMap {[ "username" := VString "ann" ]} ]};
     lemmy.logger := None;
     lemmy.client := None |}.

(** A go-lemmy that rejects every URL. *)
Definition badLemmy : lemmy.Library :=
  {| lemmy.lemmy_New := fun _ => (None, Some (errors_New "invalid URL"));
     lemmy.lemmy_Login := fun _ ctx _ _ => ctx_Err ctx |}.

Definition topicWithoutPosters : TopicModel :=
  {| TopicModel_ID := 101;
     TopicModel_Title := "Orphan";
     TopicModel_CreatedAt := "1600000000";
     TopicModel_LastPostedAt := "1600000000";
     TopicModel_Pinned := false;
     TopicModel_Closed := false;
     TopicModel_CategoryID := 1;
     TopicModel_Posters := [] |}.

(** A backend given by what its handlers return; timestamps are decimal
    seconds, the converter strips nothing. *)
Definition serving
    (cats : Error + CategoriesResponse)
    (latest : Error + LatestTopicsResponse)
    (topic : Error + SingleTopicResponse)
    (created : Error + PostModel) : discourse.Services :=
  {| discourse.Categories_List := fun _ _ => cats;
     discourse.Topics_ListLatest := fun _ _ => latest;
     discourse.Topics_Show := fun _ _ _ => topic;
     discourse.Posts_Create := fun _ _ _ => created;
     discourse.dateparse_ParseAny := fun s =>
       match strconv.Atoi s with
       | inr t => inr t
       | inl e => inl (NumError e)
       end;
     discourse.time_Now := fun n => 1700000000 + Z.of_nat n;
     discourse.time_Format_RFC3339Nano := strconv.Itoa;
     discourse.md_ConvertString := fun s => inr s |}.

(** A converter for the examples: it drops the tags. *)
Fixpoint stripTags (inTag : bool) (s : string) : string :=
  match s with
  | EmptyString => EmptyString
  | String c s' =>
      if Ascii.eqb c "<" then stripTags true s'
      else if Ascii.eqb c ">" then stripTags false s'
      else if inTag then stripTags inTag s'
      else String c (stripTags inTag s')
  end.

(** A backend that serves a thread and converts rich text by dropping
    its tags; a text without a tag is more than the converter takes. *)
Definition converting (posts : list PostModel) : discourse.Services :=
  {| discourse.Categories_List := fun _ _ => inl (errors_New "no categories");
     discourse.Topics_ListLatest := fun _ _ => inl (errors_New "no topics");
     discourse.Topics_Show := fun _ _ _ =>
       inr {| PostStream := {| Posts := posts |} |};
     discourse.Posts_Create := fun _ _ _ => inl (errors_New "read only");
     discourse.dateparse_ParseAny := fun s =>
       match strconv.Atoi s with
       | inr t => inr t
       | inl e => inl (NumError e)
       end;
     discourse.time_Now := fun n => 1700000000 + Z.of_nat n;
     discourse.time_Format_RFC3339Nano := strconv.Itoa;
     discourse.md_ConvertString := fun s =>
       if String.prefix "<" s then inr (stripTags false s)
       else inl (errors_New "not HTML") |}.

(** The thread of the specification's example, with a third post that
    the converter does not take and whose timestamp does not parse. *)
Definition exampleThread : list PostModel :=
  [ mkPostModel 1 "ann" 7 "<p>root</p>" "1600000000";
    mkPostModel 2 "bob" 8 "<p>reply</p>" "1600000100";
    mkPostModel 3 "cyd" 9 "plain" "just now" ].

(** A configured adapter whose logger was never set. *)
Definition unlogged : discourse.System :=
  {| discourse.ID := 3;
     discourse.config :=
       {[ "url" := VString "https://forum.example";
          "credentials" := VMap ∅ ]};
     discourse.logger := None;
     discourse.client := None |}.

(** A client configuration with a logger that holds a nil pointer. *)
Definition ccTypedNil : ClientConfig :=
  {| ClientConfig_Endpoint := "https://forum.example";
     ClientConfig_Credentials := ∅;
     ClientConfig_Logger := typedNilLogger |}.

Definition someCategories : CategoriesResponse :=
  {| CategoryList := {| Categories := fixtures.oneParent |} |}.

Definition latestOf (topics : list TopicModel) : LatestTopicsResponse :=
  {| Users := [ {| UserModel_ID := 7; UserModel_Name := "ann" |};
                {| UserModel_ID := 7; UserModel_Name := "shadow" |} ];
     TopicList := {| Topics := topics |} |}.

Definition threadOf (posts : list PostModel) : SingleTopicResponse :=
  {| PostStream := {| Posts := posts |} |}.

Definition down : Error := errors_New "backend down".

(** A request library for the examples: locations resolve by
    concatenation, a location with a space does not parse, the body is
    encoded as its [Raw] field, and the methods are GET, POST and the
    empty one. *)
Definition plainRequests : request.Library CreatePostModel :=
  {| request.resolve := fun endpoint location =>
       if String.eqb endpoint "" then Panics NilDereference
       else if String.eqb location "bad location"
       then Returns (inl (url_Error false "invalid character in URL"))
       else Returns (inr (endpoint ++ location)%string);
     request.json_Encode := fun ap => inr (Raw ap);
     request.http_NewRequest := fun method _ =>
       if String.eqb method "" || String.eqb method "GET"
          || String.eqb method "POST"
       then None
       else Some (errors_New "net/http: invalid method") |}.

End cases.

(** What the operations yield, written out. *)
Module views.
Import api wire.

Section Views.
Context `{Svc : discourse.Services}.

(** The timestamp a string stands for when the clock has been read [n]
    times: the parsed one, or the clock's next reading when it does not
    parse. *)
Definition stamp (s : string) (n : nat) : Time :=
  match discourse.dateparse_ParseAny s with
  | inr t => t
  | inl _ => discourse.time_Now n
  end.

(** The readings of the clock a timestamp costs: one when it does not
    parse. *)
Definition reads (s : string) : nat :=
  match discourse.dateparse_ParseAny s with
  | inr _ => 0
  | inl _ => 1
  end.

(** The post [p] is the one [ListPosts] lists for the topic [i] when the
    clock has been read [n] times. *)
Definition listed (sys : discourse.System) (cats : CategoriesResponse)
    (users : list UserModel) (i : TopicModel) (p : post.Post) (n : nat)
  : Prop :=
  post.ID p = strconv.Itoa (TopicModel_ID i)
  /\ post.Subject p = TopicModel_Title i
  /\ post.Type_ p = "post"
  /\ post.Body p = ""
  /\ post.Replies p = []
  /\ post.Pinned p = TopicModel_Pinned i
  /\ post.Closed p = TopicModel_Closed i
  /\ post.CreatedAt p = stamp (TopicModel_CreatedAt i) n
  /\ post.LastCommentedAt p
     = stamp (TopicModel_LastPostedAt i) (n + reads (TopicModel_CreatedAt i))
  /\ post.SysIDX p = discourse.ID sys
  /\ forum.ID (post.Forum p) = strconv.Itoa (TopicModel_CategoryID i)
  /\ forum.Name (post.Forum p)
     = discourse.forumName cats (TopicModel_CategoryID i)
  /\ exists poster0,
       head (TopicModel_Posters i) = Some poster0
       /\ author.ID (post.Author p)
          = strconv.Itoa (PosterModel_UserID poster0)
       /\ author.Name (post.Author p)
          = match find (fun u => UserModel_ID u =? PosterModel_UserID poster0)
                    users with
            | Some u => UserModel_Name u
            | None => ""
            end.

(** The posts are those [ListPosts] lists for the topics, one per topic
    and in their order, from [n] readings of the clock on. *)
Fixpoint listing (sys : discourse.System) (cats : CategoriesResponse)
    (users : list UserModel) (n : nat) (topics : list TopicModel)
    (posts : list post.Post) : Prop :=
  match topics, posts with
  | [], [] => True
  | i :: topics', p :: posts' =>
      listed sys cats users i p n
      /\ listing sys cats users
           (n + reads (TopicModel_CreatedAt i)
              + reads (TopicModel_LastPostedAt i))
           topics' posts'
  | _, _ => False
  end.

(** The converted content of a raw post: what the converter makes of its
    rich text, or the rich text itself when the converter fails. *)
Definition converted (i : PostModel) : string :=
  match discourse.md_ConvertString (PostModel_Cooked i) with
  | inr text => text
  | inl _ => PostModel_Cooked i
  end.

(** The reply [r] is the one [LoadPost] makes of the raw post [i] for
    the post [p] when the clock has been read [n] times. *)
Definition reply_of (sys : discourse.System) (p : post.Post)
    (i : PostModel) (r : reply.Reply) (n : nat) : Prop :=
  reply.ID r = strconv.Itoa (PostModel_ID i)
  /\ reply.InReplyTo r = post.ID p
  /\ reply.Body r = converted i
  /\ reply.CreatedAt r = stamp (PostModel_CreatedAt i) n
  /\ author.ID (reply.Author r) = strconv.Itoa (PostModel_UserID i)
  /\ author.Name (reply.Author r) = PostModel_Name i
  /\ reply.SysIDX r = discourse.ID sys.

(** The replies are those [LoadPost] makes of the raw posts, one per raw
    post and in their order, from [n] readings of the clock on. *)
Fixpoint replied (sys : discourse.System) (p : post.Post) (n : nat)
    (items : list PostModel) (replies : list reply.Reply) : Prop :=
  match items, replies with
  | [], [] => True
  | i :: items', r :: replies' =>
      reply_of sys p i r n
      /\ replied sys p (n + reads (PostModel_CreatedAt i)) items' replies'
  | _, _ => False
  end.

(** The post [p'] is [p] up to its body and its replies. *)
Definition same_header (p p' : post.Post) : Prop :=
  post.ID p' = post.ID p
  /\ post.Subject p' = post.Subject p
  /\ post.Type_ p' = post.Type_ p
  /\ post.Pinned p' = post.Pinned p
  /\ post.Closed p' = post.Closed p
  /\ post.CreatedAt p' = post.CreatedAt p
  /\ post.LastCommentedAt p' = post.LastCommentedAt p
  /\ post.Author p' = post.Author p
  /\ post.Forum p' = post.Forum p
  /\ post.SysIDX p' = post.SysIDX p.

End Views.

(** A category or subcategory of the tree with the given ID. *)
Definition node_with_ID (cats : list CategoryModel) (categoryID : Z)
    (c : CategoryModel) : Prop :=
  (In c cats \/ In c (flat_map CategoryModel_SubcategoryList cats))
  /\ CategoryModel_ID c = categoryID.

End views.

(* ===================================================================== *)
(** * Properties *)
(* ===================================================================== *)

Import api wire.

(** ** strconv on examples *)

Example Atoi_5 : strconv.Atoi "5" = inr 5.
Proof. reflexivity. Qed.
Example Atoi_minus1 : strconv.Atoi "-1" = inr (-1).
Proof. reflexivity. Qed.
Example Atoi_plus7 : strconv.Atoi "+7" = inr 7.
Proof. reflexivity. Qed.
Example Atoi_empty : strconv.Atoi "" = inl strconv.ErrSyntax.
Proof. reflexivity. Qed.
Example Atoi_sign_only : strconv.Atoi "-" = inl strconv.ErrSyntax.
Proof. reflexivity. Qed.
Example Atoi_letters : strconv.Atoi "12a" = inl strconv.ErrSyntax.
Proof. reflexivity. Qed.
Example Atoi_too_big :
  strconv.Atoi "9223372036854775808" = inl strconv.ErrRange.
Proof. reflexivity. Qed.
Example Atoi_smallest :
  strconv.Atoi "-9223372036854775808" = inr (-9223372036854775808).
Proof. reflexivity. Qed.
Example Atoi_overflow_then_letter :
  strconv.Atoi "99999999999999999999999x" = inl strconv.ErrRange.
Proof. reflexivity. Qed.
Example Atoi_letter_then_overflow :
  strconv.Atoi "x99999999999999999999999" = inl strconv.ErrSyntax.
Proof. reflexivity. Qed.
Example Itoa_42 : strconv.Itoa 42 = "42".
Proof. reflexivity. Qed.
Example Itoa_neg : strconv.Itoa (-7) = "-7".
Proof. reflexivity. Qed.
Example Itoa_0 : strconv.Itoa 0 = "0".
Proof. reflexivity. Qed.

(** ** The retry loop *)

(** The policy retries the transient failures and no others, and has no
    error of its own while the context is live. *)
Lemma baseRetryPolicy_transient r :
  fst (retryablehttp.baseRetryPolicy r) = spec.transient r.
Proof.
  destruct r as [e|res]; cbn.
  - destruct e as [| | |recoverable text| |]; try reflexivity.
    now destruct recoverable.
  - unfold spec.retryable_status, StatusTooManyRequests,
      StatusNotImplemented.
    destruct (StatusCode res =? 429); [reflexivity|].
    cbn [orb].
    now destruct ((StatusCode res =? 0)
                  || (500 <=? StatusCode res)
                     && negb (StatusCode res =? 501)).
Qed.

Section RetryLoop.
Variable ctx : Context.
Variable net : nat -> RoundTrip.
Hypothesis live : ctx_Err ctx = None.

Lemma attempt_live i : retryablehttp.attempt ctx net i = net i.
Proof. unfold retryablehttp.attempt. now rewrite live. Qed.

Lemma policy_live r :
  retryablehttp.DefaultRetryPolicy ctx r = (spec.transient r, None).
Proof.
  unfold retryablehttp.DefaultRetryPolicy.
  now rewrite live, baseRetryPolicy_transient.
Qed.

(** One step of the loop on a transient failure with retries left. *)
Lemma loop_retry remain i :
  spec.transient (net i) = true ->
  retryablehttp.loop ctx net (S remain) i
  = retryablehttp.loop ctx net remain (S i).
Proof.
  intros Ht. cbn [retryablehttp.loop].
  now rewrite attempt_live, policy_live, Ht.
Qed.

(** The loop on an outcome that is not a transient failure: it stops at
    once, with the response, or with the error of the round trip. *)
Lemma loop_stop remain i :
  spec.transient (net i) = false ->
  retryablehttp.loop ctx net remain i
  = (S i,
     match net i with
     | Received res => inr res
     | Failed e => inl (GivingUp (S i) (Some e))
     end).
Proof.
  intros Ht. destruct remain; cbn [retryablehttp.loop];
    rewrite attempt_live, policy_live, Ht; now destruct (net i).
Qed.

(** The loop with no retries left on a transient failure gives up, with
    the error of the round trip when it has one. *)
Lemma loop_exhausted i :
  spec.transient (net i) = true ->
  retryablehttp.loop ctx net 0 i
  = (S i, inl (GivingUp (S i) (retryablehttp.doErr (net i)))).
Proof.
  intros Ht. cbn [retryablehttp.loop].
  now rewrite attempt_live, policy_live, Ht.
Qed.

(** As long as the failures are transient the loop uses up its retries
    and gives up after [remain + 1] further attempts. *)
Lemma loop_all_transient remain : forall i,
  (forall j, (i <= j <= i + remain)%nat -> spec.transient (net j) = true) ->
  retryablehttp.loop ctx net remain i
  = (S (i + remain),
     inl (GivingUp (S (i + remain))
            (retryablehttp.doErr (net (i + remain)%nat)))).
Proof.
  induction remain as [|remain IH]; intros i Hall.
  - rewrite Nat.add_0_r. apply loop_exhausted. apply Hall. clear. lia.
  - rewrite loop_retry by (apply Hall; clear; lia).
    rewrite IH by (intros j Hj; apply Hall; clear - Hj; lia).
    now replace (i + S remain)%nat with (S i + remain)%nat by lia.
Qed.

(** Every run of the loop makes the attempt it starts with. *)
Lemma loop_ge remain : forall i,
  (S i <= fst (retryablehttp.loop ctx net remain i))%nat.
Proof.
  induction remain as [|remain IH]; intros i;
    destruct (spec.transient (net i)) eqn:Ht.
  - rewrite loop_exhausted by assumption. cbn. lia.
  - rewrite loop_stop by assumption. cbn. lia.
  - rewrite loop_retry by assumption. specialize (IH (S i)).
    clear - IH. lia.
  - rewrite loop_stop by assumption. cbn. lia.
Qed.

(** ... and never more than [remain] further ones. *)
Lemma loop_le remain : forall i,
  (fst (retryablehttp.loop ctx net remain i) <= S (i + remain))%nat.
Proof.
  induction remain as [|remain IH]; intros i;
    destruct (spec.transient (net i)) eqn:Ht.
  - rewrite loop_exhausted by assumption. cbn. lia.
  - rewrite loop_stop by assumption. cbn. lia.
  - rewrite loop_retry by assumption. specialize (IH (S i)).
    clear - IH. lia.
  - rewrite loop_stop by assumption. cbn. lia.
Qed.

(** Transient failures on the attempts [i .. i + k], with [k] below the
    retries left: the attempt after them is made as well. *)
Lemma loop_retries_every_transient k : forall remain i,
  (k < remain)%nat ->
  (forall j, (i <= j <= i + k)%nat -> spec.transient (net j) = true) ->
  (S (i + k) < fst (retryablehttp.loop ctx net remain i))%nat.
Proof.
  induction k as [|k IH]; intros remain i Hk Hall;
    (destruct remain as [|remain]; [clear - Hk; lia|]);
    rewrite loop_retry by (apply Hall; clear; lia).
  - pose proof (loop_ge remain (S i)) as Hge. clear - Hge. lia.
  - assert (Hlt : (S (S i + k)
                   < fst (retryablehttp.loop ctx net remain (S i)))%nat).
    { apply IH; [clear - Hk; lia|].
      intros j Hj. apply Hall. clear - Hj. lia. }
    clear - Hlt. lia.
Qed.

(** [k] transient failures, then a response that is not one, with at
    least [k] retries allowed: the loop returns that response after
    [k + 1] attempts. *)
Lemma loop_recovers k : forall remain i res,
  (k <= remain)%nat ->
  (forall j, (i <= j < i + k)%nat -> spec.transient (net j) = true) ->
  net (i + k)%nat = Received res ->
  spec.retryable_status (StatusCode res) = false ->
  retryablehttp.loop ctx net remain i = (S (i + k), inr res).
Proof.
  induction k as [|k IH]; intros remain i res Hk Hall Hnet Hstatus.
  - rewrite Nat.add_0_r in *. rewrite loop_stop, Hnet; [reflexivity|].
    now rewrite Hnet.
  - destruct remain as [|remain]; [clear - Hk; lia|].
    rewrite loop_retry by (apply Hall; clear; lia).
    replace (S (i + S k)) with (S (S i + k)) by lia.
    apply IH; [clear - Hk; lia| | |exact Hstatus].
    + intros j Hj. apply Hall. clear - Hj. lia.
    + now replace (S i + k)%nat with (i + S k)%nat by lia.
Qed.

End RetryLoop.

(** ** [Do]: retries *)

(** The client [NewClient] builds allows three retries. *)
Lemma NewClient_RetryMax cc :
  retryablehttp.RetryMax (httpClient (NewClient cc)) = 3.
Proof. unfold NewClient. now destruct (ClientConfig_Logger cc). Qed.

(** With a logger that can be logged to, the retrying client of a client
    built by [NewClient] runs the loop with three retries. *)
Lemma NewClient_Do cc ctx net :
  spec.usable (ClientConfig_Logger cc) ->
  retryablehttp.Do (httpClient (NewClient cc)) ctx net
  = Returns (retryablehttp.loop ctx net 3 0).
Proof.
  unfold spec.usable, NewClient, retryablehttp.Do.
  now destruct (ClientConfig_Logger cc).
Qed.

(** With a logger that holds a nil pointer, as [Load] passes it when the
    adapter's logger was never set, [Do] panics at the first line the
    retrying client logs, before any attempt. *)
Lemma NewClient_Do_typed_nil `{W : Wire} cc ctx req content :
  ClientConfig_Logger cc = typedNilLogger ->
  Do (NewClient cc) ctx req content = Panics NilDereference
  /\ Do_attempts (NewClient cc) ctx req = 0%nat.
Proof.
  intros Hl. unfold Do, Do_attempts, NewClient, retryablehttp.Do.
  now rewrite Hl.
Qed.

(** [Do] hands on what the retrying client yields when that is an
    error. *)
Lemma Do_transport_error `{W : Wire} c ctx req content n err :
  retryablehttp.Do (httpClient c) ctx (roundTrip req)
  = Returns (n, inl err) ->
  Do c ctx req content = Returns (Some err, content).
Proof. unfold Do. now intros ->. Qed.

(** C1, as the code has it: for a client built by [NewClient] with a
    logger that can be logged to, and a context that is not canceled,
    [Do] makes at least one and at most four attempts (the first one and
    three retries); every transient failure (a network error that can
    pass, a status 429, 0 or 5xx other than 501) of one of the first
    three attempts is followed by another attempt; and when the first
    four attempts all fail transiently, [Do] returns after the fourth
    attempt, with the retry loop's error, which carries the error of the
    last round trip, if any, and is a transport error and not a
    [RequestError]. *)
Theorem C1_retry_bound `{W : Wire} (cc : ClientConfig) (ctx : Context)
    (req : Request) (content : option Response) :
  spec.usable (ClientConfig_Logger cc) ->
  ctx_Err ctx = None ->
  (1 <= Do_attempts (NewClient cc) ctx req <= 4)%nat
  /\ (forall k, (k < 3)%nat ->
        (forall j, (j <= k)%nat -> spec.transient (roundTrip req j) = true) ->
        (S k < Do_attempts (NewClient cc) ctx req)%nat)
  /\ ((forall j, (j <= 3)%nat -> spec.transient (roundTrip req j) = true) ->
      Do_attempts (NewClient cc) ctx req = 4%nat
      /\ exists cause,
           cause = match roundTrip req 3 with
                   | Failed e => Some e
                   | Received _ => None
                   end
           /\ Do (NewClient cc) ctx req content
              = Returns (Some (GivingUp 4 cause), content)
           /\ is_RequestError (GivingUp 4 cause) = false).
Proof.
  intros Hlog live. unfold Do_attempts.
  rewrite (NewClient_Do cc ctx (roundTrip req) Hlog).
  split; [|split].
  - pose proof (loop_ge ctx (roundTrip req) live 3 0) as Hge.
    pose proof (loop_le ctx (roundTrip req) live 3 0) as Hle.
    destruct (retryablehttp.loop ctx (roundTrip req) 3 0) as [n r].
    cbn in *. lia.
  - intros k Hk Hall.
    pose proof (loop_retries_every_transient ctx (roundTrip req) live
                  k 3 0 Hk) as Hlt.
    destruct (retryablehttp.loop ctx (roundTrip req) 3 0) as [n r].
    cbn in *. apply Hlt. intros j Hj. apply Hall. lia.
  - intros Hall.
    pose proof (loop_all_transient ctx (roundTrip req) live 3 0) as Hloop.
    rewrite Hloop by (intros j Hj; apply Hall; lia).
    split; [reflexivity|]. eexists. split; [reflexivity|].
    split; [|reflexivity].
    eapply Do_transport_error.
    rewrite (NewClient_Do cc ctx (roundTrip req) Hlog), Hloop
      by (intros j Hj; apply Hall; lia).
    reflexivity.
Qed.

(** C1 at a network that refuses every connection. *)
Lemma C1_retry_bound_witness :
  Do_attempts (W := fixtures.refusing) (NewClient fixtures.cc) Background
    fixtures.getTopic = 4%nat
  /\ exists cause,
       cause = Some (url_Error true "connection refused")
       /\ Do (W := fixtures.refusing) (NewClient fixtures.cc) Background
            fixtures.getTopic None
          = Returns (Some (GivingUp 4 cause), None)
       /\ is_RequestError (GivingUp 4 cause) = false.
Proof.
  destruct (C1_retry_bound (W := fixtures.refusing) fixtures.cc Background
              fixtures.getTopic None ltac:(discriminate) eq_refl)
    as (_ & _ & Hperm).
  apply Hperm. intros j _. reflexivity.
Defined.

(** C1 as stated fails: on a network that refuses every connection the
    error comes after the fourth attempt, not after the third. *)
Lemma C1_counterexample :
  (forall i, spec.transient
               (roundTrip (Wire := fixtures.refusing) fixtures.getTopic i)
             = true)
  /\ Do_attempts (W := fixtures.refusing) (NewClient fixtures.cc) Background
       fixtures.getTopic <> 3%nat
  /\ Do (W := fixtures.refusing) (NewClient fixtures.cc) Background
       fixtures.getTopic None
     = Returns
         (Some (GivingUp 4 (Some (url_Error true "connection refused"))),
          None).
Proof.
  split; [intros i; reflexivity|].
  split; [vm_compute; discriminate|reflexivity].
Qed.

(** A status of a retryable class that persists: four attempts, then the
    retry loop's error, which carries no cause; the body is never
    decoded. *)
Example Do_server_error :
  Do_attempts (W := fixtures.serverError) (NewClient fixtures.cc) Background
    fixtures.getTopic = 4%nat
  /\ Do (W := fixtures.serverError) (NewClient fixtures.cc) Background
       fixtures.getTopic (Some fixtures.noResponse)
     = Returns (Some (GivingUp 4 None), Some fixtures.noResponse).
Proof. split; reflexivity. Qed.

(** A transient failure that passes: three attempts, no error. *)
Example Do_recovers :
  Do_attempts (W := fixtures.recovering) (NewClient fixtures.cc) Background
    fixtures.getTopic = 3%nat
  /\ Do (W := fixtures.recovering) (NewClient fixtures.cc) Background
       fixtures.getTopic (Some fixtures.noResponse)
     = Returns
         (None, Some (mkResponse "error" 0 "fine" ∅ fixtures.noPost [])).
Proof. split; reflexivity. Qed.

(** A canceled context: one attempt, nothing sent, the context's error
    inside the retry loop's. *)
Example Do_canceled :
  Do (W := fixtures.notFound) (NewClient fixtures.cc) (WithCancel true)
    fixtures.getTopic None
  = Returns (Some (GivingUp 1 (Some context_Canceled)), None).
Proof. reflexivity. Qed.

(** The client [Load] builds for an adapter whose logger was never set
    panics in [Do]. *)
Example Do_after_Load_without_logger :
  exists c,
    discourse.Load cases.unlogged
    = ([], Returns (None, discourse.set_client cases.unlogged c))
    /\ Do (W := cases.ok200) c Background fixtures.getTopic None
       = Panics NilDereference.
Proof. eexists. split; vm_compute; reflexivity. Qed.

(** ** [Do]: decoding and the status check *)

(** What the retrying client of a client built by [NewClient] returns
    when, after at most three transient failures, an attempt is answered
    with a status the policy does not retry. *)
Lemma NewClient_Do_answered `{W : Wire} cc ctx req k res :
  spec.usable (ClientConfig_Logger cc) ->
  ctx_Err ctx = None ->
  (k <= 3)%nat ->
  (forall j, (j < k)%nat -> spec.transient (roundTrip req j) = true) ->
  roundTrip req k = Received res ->
  spec.retryable_status (StatusCode res) = false ->
  retryablehttp.Do (httpClient (NewClient cc)) ctx (roundTrip req)
  = Returns (S k, inr res).
Proof.
  intros Hlog live Hk Hall Hnet Hstatus.
  rewrite (NewClient_Do cc ctx (roundTrip req) Hlog).
  rewrite (loop_recovers ctx (roundTrip req) live k 3 0 res);
    auto.
  intros j Hj. apply Hall. lia.
Qed.

(** ... and when the first four attempts are all answered with a status
    the policy retries. *)
Lemma NewClient_Do_retryable `{W : Wire} cc ctx req :
  spec.usable (ClientConfig_Logger cc) ->
  ctx_Err ctx = None ->
  (forall j, (j <= 3)%nat ->
     exists res, roundTrip req j = Received res
                 /\ spec.retryable_status (StatusCode res) = true) ->
  retryablehttp.Do (httpClient (NewClient cc)) ctx (roundTrip req)
  = Returns (4%nat, inl (GivingUp 4 None)).
Proof.
  intros Hlog live Hall.
  rewrite (NewClient_Do cc ctx (roundTrip req) Hlog).
  rewrite (loop_all_transient ctx (roundTrip req) live 3 0).
  - cbn [Nat.add]. destruct (Hall 3%nat ltac:(lia)) as (res & -> & _).
    reflexivity.
  - intros j Hj. destruct (Hall j ltac:(lia)) as (res & -> & Hs).
    exact Hs.
Qed.

(** The status check on a status outside [200, 204]. *)
Lemma checkStatus_outside res content :
  spec.outside_success res ->
  checkStatus res content
  = match content with
    | None => Panics NilDereference
    | Some c =>
        Returns (Some (RequestError c (errors_New "Non-2xx status code")),
                 content)
    end.
Proof.
  intros Hout. unfold checkStatus, StatusOK, StatusNoContent.
  destruct Hout as [Hlo|Hhi].
  - apply Z.ltb_lt in Hlo. now rewrite Hlo.
  - apply Z.gtb_lt in Hhi. rewrite Hhi. now rewrite orb_true_r.
Qed.

(** C2, as the code has it: for a client built by [NewClient] with a
    logger that can be logged to, a context that is not canceled, and a
    destination to decode into: when, after at most three transient
    failures, an attempt is answered with a status outside [200, 204]
    that the retry policy does not retry, then [Do] returns a
    [RequestError] that carries the decoded envelope if the body can be
    read and decodes, the decoder's error if it can be read and does not
    decode (the body is decoded before the status is looked at), and the
    error of reading if it cannot be read; when the first four attempts
    are all answered with a status the policy retries (429, 0, 5xx other
    than 501), [Do] returns the retry loop's error and leaves the
    destination as it was, whether or not the body would decode. *)
Theorem C2_decode_before_status `{W : Wire} (cc : ClientConfig)
    (ctx : Context) (req : Request) (dst : Response) :
  spec.usable (ClientConfig_Logger cc) ->
  ctx_Err ctx = None ->
  (forall k res,
     (k <= 3)%nat ->
     (forall j, (j < k)%nat -> spec.transient (roundTrip req j) = true) ->
     roundTrip req k = Received res ->
     spec.retryable_status (StatusCode res) = false ->
     spec.outside_success res ->
     (forall body dst',
        Body res = inr body ->
        json_Unmarshal body dst = (dst', None) ->
        Do (NewClient cc) ctx req (Some dst)
        = Returns
            (Some (RequestError dst' (errors_New "Non-2xx status code")),
             Some dst'))
     /\ (forall body dst' err,
           Body res = inr body ->
           json_Unmarshal body dst = (dst', Some err) ->
           Do (NewClient cc) ctx req (Some dst)
           = Returns (Some err, Some dst'))
     /\ (forall err,
           Body res = inl err ->
           Do (NewClient cc) ctx req (Some dst)
           = Returns (Some err, Some dst)))
  /\ ((forall j, (j <= 3)%nat ->
         exists res, roundTrip req j = Received res
                     /\ spec.retryable_status (StatusCode res) = true) ->
      Do (NewClient cc) ctx req (Some dst)
      = Returns (Some (GivingUp 4 None), Some dst)).
Proof.
  intros Hlog live. split.
  - intros k res Hk Hall Hnet Hstatus Hout.
    unfold Do.
    rewrite (NewClient_Do_answered cc ctx req k res) by assumption.
    split; [|split].
    + intros body dst' -> ->. now rewrite checkStatus_outside.
    + now intros body dst' err -> ->.
    + now intros err ->.
  - intros Hall. unfold Do.
    now rewrite (NewClient_Do_retryable cc ctx req) by assumption.
Qed.

(** C2 at a 404 with an envelope, at a 404 with an HTML page, and at a
    500 that persists. *)
Lemma C2_decode_before_status_witness :
  Do (W := fixtures.notFound) (NewClient fixtures.cc) Background
    fixtures.getTopic (Some fixtures.noResponse)
  = Returns
      (Some (RequestError
               (mkResponse "error" 0 "not found" ∅ fixtures.noPost [])
               (errors_New "Non-2xx status code")),
       Some (mkResponse "error" 0 "not found" ∅ fixtures.noPost []))
  /\ Do (W := fixtures.notFoundHtml) (NewClient fixtures.cc) Background
       fixtures.getTopic (Some fixtures.noResponse)
     = Returns (Some (errors_New "invalid character '<'"),
                Some fixtures.noResponse)
  /\ Do (W := fixtures.serverError) (NewClient fixtures.cc) Background
       fixtures.getTopic (Some fixtures.noResponse)
     = Returns (Some (GivingUp 4 None), Some fixtures.noResponse).
Proof.
  split; [|split].
  - destruct (C2_decode_before_status (W := fixtures.notFound)
                fixtures.cc Background fixtures.getTopic
                fixtures.noResponse ltac:(discriminate) eq_refl)
      as [Hanswered _].
    refine (proj1 (Hanswered 0%nat
                     {| StatusCode := 404; Body := inr "not found" |}
                     ltac:(lia) _ eq_refl eq_refl (or_intror eq_refl))
              "not found" _ eq_refl eq_refl).
    intros j Hj. lia.
  - destruct (C2_decode_before_status (W := fixtures.notFoundHtml)
                fixtures.cc Background fixtures.getTopic
                fixtures.noResponse ltac:(discriminate) eq_refl)
      as [Hanswered _].
    refine (proj1 (proj2 (Hanswered 0%nat
                     {| StatusCode := 404; Body := inr "<html>" |}
                     ltac:(lia) _ eq_refl eq_refl (or_intror eq_refl)))
              "<html>" _ _ eq_refl eq_refl).
    intros j Hj. lia.
  - destruct (C2_decode_before_status (W := fixtures.serverError)
                fixtures.cc Background fixtures.getTopic
                fixtures.noResponse ltac:(discriminate) eq_refl)
      as [_ Hretried].
    apply Hretried. intros j _. eexists. split; reflexivity.
Defined.

(** C2 as stated fails: a server that answers every attempt with 500 and
    an envelope that decodes.  Every response has a status outside
    [200, 204] and a body that decodes, and [Do] returns the retry loop's
    error, not a [RequestError]; the destination does not receive the
    envelope. *)
Lemma C2_counterexample :
  (forall i, exists res body dst',
     roundTrip (Wire := fixtures.serverError) fixtures.getTopic i
     = Received res
     /\ spec.outside_success res
     /\ Body res = inr body
     /\ json_Unmarshal (Wire := fixtures.serverError) body
          fixtures.noResponse = (dst', None))
  /\ Do (W := fixtures.serverError) (NewClient fixtures.cc) Background
       fixtures.getTopic (Some fixtures.noResponse)
     = Returns (Some (GivingUp 4 None), Some fixtures.noResponse)
  /\ is_RequestError (GivingUp 4 None) = false.
Proof.
  split; [|split; reflexivity].
  intros i. eexists _, _, _. cbn.
  split; [reflexivity|]. split; [right; cbn; lia|].
  split; reflexivity.
Qed.

(** C8, as the code has it: for a client built by [NewClient] with a
    logger that can be logged to and a context that is not canceled:
    when, after at most three transient failures, an attempt is answered
    with a status outside [200, 204] that the retry policy does not
    retry, then [Do] with a nil destination panics on the nil
    dereference if the body can be read, and returns the error of
    reading, without a panic, if it cannot; with a destination, the
    status check returns a [RequestError] with the destination's
    contents, and [Do] returns an error and does not panic.  When the
    first four attempts
    are all answered with a status the policy retries, [Do] with a nil
    destination returns the retry loop's error and does not panic. *)
Theorem C8_nil_destination_panics `{W : Wire} (cc : ClientConfig)
    (ctx : Context) (req : Request) :
  spec.usable (ClientConfig_Logger cc) ->
  ctx_Err ctx = None ->
  (forall k res,
     (k <= 3)%nat ->
     (forall j, (j < k)%nat -> spec.transient (roundTrip req j) = true) ->
     roundTrip req k = Received res ->
     spec.retryable_status (StatusCode res) = false ->
     spec.outside_success res ->
     (forall body,
        Body res = inr body ->
        Do (NewClient cc) ctx req None = Panics NilDereference)
     /\ (forall err,
           Body res = inl err ->
           Do (NewClient cc) ctx req None = Returns (Some err, None))
     /\ (forall dst,
           checkStatus res (Some dst)
           = Returns
               (Some (RequestError dst (errors_New "Non-2xx status code")),
                Some dst))
     /\ (forall dst, exists err dst',
           Do (NewClient cc) ctx req (Some dst)
           = Returns (Some err, dst')))
  /\ ((forall j, (j <= 3)%nat ->
         exists res, roundTrip req j = Received res
                     /\ spec.retryable_status (StatusCode res) = true) ->
      Do (NewClient cc) ctx req None
      = Returns (Some (GivingUp 4 None), None)).
Proof.
  intros Hlog live. split.
  - intros k res Hk Hall Hnet Hstatus Hout.
    unfold Do.
    rewrite (NewClient_Do_answered cc ctx req k res) by assumption.
    split; [|split; [|split]].
    + intros body ->. now rewrite checkStatus_outside.
    + now intros err ->.
    + intros dst. now rewrite checkStatus_outside.
    + intros dst. destruct (Body res) as [err|body]; [eauto|].
      destruct (json_Unmarshal body dst) as [dst' [err|]]; [eauto|].
      rewrite checkStatus_outside by assumption. eauto.
  - intros Hall. unfold Do.
    now rewrite (NewClient_Do_retryable cc ctx req) by assumption.
Qed.

(** C8 at a 404 with an envelope. *)
Lemma C8_nil_destination_panics_witness :
  Do (W := fixtures.notFound) (NewClient fixtures.cc) Background
    fixtures.getTopic None = Panics NilDereference.
Proof.
  destruct (C8_nil_destination_panics (W := fixtures.notFound)
              fixtures.cc Background fixtures.getTopic
              ltac:(discriminate) eq_refl) as [Hanswered _].
  refine (proj1 (Hanswered 0%nat
                   {| StatusCode := 404; Body := inr "not found" |}
                   ltac:(lia) _ eq_refl eq_refl (or_intror eq_refl))
            "not found" eq_refl).
  intros j Hj. lia.
Defined.

(** C8 as stated fails: a server that answers every attempt with 500.
    Every response has a status outside [200, 204], the destination is
    nil, and [Do] returns an error without a panic. *)
Lemma C8_counterexample :
  (forall i, exists res,
     roundTrip (Wire := fixtures.serverError) fixtures.getTopic i
     = Received res
     /\ spec.outside_success res)
  /\ Do (W := fixtures.serverError) (NewClient fixtures.cc) Background
       fixtures.getTopic None
     = Returns (Some (GivingUp 4 None), None)
  /\ Do (W := fixtures.serverError) (NewClient fixtures.cc) Background
       fixtures.getTopic None
     <> Panics NilDereference.
Proof.
  split; [|split; [reflexivity|discriminate]].
  intros i. eexists. split; [reflexivity|]. right. cbn. lia.
Qed.
(** ** [ListPosts]: the forum name *)

Section ForumName.
Variable categoryID : Z.

(** The inner loop yields the name of the first subcategory with the
    ID, and leaves the variable alone when there is none. *)
Lemma subcategoryLoop_find subcats acc :
  discourse.subcategoryLoop subcats categoryID acc
  = match find (spec.has_ID categoryID) subcats with
    | Some subcat => CategoryModel_Name subcat
    | None => acc
    end.
Proof.
  induction subcats as [|subcat subcats IH]; cbn; [reflexivity|].
  unfold spec.has_ID at 1.
  now destruct (CategoryModel_ID subcat =? categoryID).
Qed.

(** A direct category with the ID wins over every subcategory: the
    first such category gives the name. *)
Lemma categoryLoop_direct cats cat : forall acc,
  find (spec.has_ID categoryID) cats = Some cat ->
  discourse.categoryLoop cats categoryID acc = CategoryModel_Name cat.
Proof.
  induction cats as [|c cats IH]; intros acc; cbn; [discriminate|].
  unfold spec.has_ID at 1.
  destruct (CategoryModel_ID c =? categoryID).
  - now intros [= ->].
  - apply IH.
Qed.

(** Without a direct match the outer loop runs the inner loop over
    every category in turn, on the same variable. *)
Lemma categoryLoop_no_direct cats : forall acc,
  find (spec.has_ID categoryID) cats = None ->
  discourse.categoryLoop cats categoryID acc
  = fold_left
      (fun name cat =>
         discourse.subcategoryLoop (CategoryModel_SubcategoryList cat)
           categoryID name)
      cats acc.
Proof.
  induction cats as [|c cats IH]; intros acc; cbn; [reflexivity|].
  unfold spec.has_ID at 1.
  destruct (CategoryModel_ID c =? categoryID); [discriminate|].
  apply IH.
Qed.

(** Nothing matches: the name stays empty. *)
Lemma forumName_unmatched cats :
  find (spec.has_ID categoryID) cats = None ->
  find (spec.has_ID categoryID)
    (flat_map CategoryModel_SubcategoryList cats) = None ->
  discourse.forumName {| CategoryList := {| Categories := cats |} |}
    categoryID = "".
Proof.
  unfold discourse.forumName. cbn. generalize "" as acc.
  induction cats as [|c cats IH]; intros acc; cbn; [reflexivity|].
  unfold spec.has_ID at 1.
  destruct (CategoryModel_ID c =? categoryID); [discriminate|].
  intros Hd Hs. rewrite subcategoryLoop_find.
  destruct (find (spec.has_ID categoryID) (CategoryModel_SubcategoryList c))
    as [s|] eqn:Hc.
  - exfalso. apply find_some in Hc as [Hin Hid].
    eapply find_none in Hs; [|apply in_or_app; left; exact Hin].
    congruence.
  - apply IH; [exact Hd|].
    destruct (find _ (flat_map _ cats)) as [s|] eqn:Hf; [|reflexivity].
    exfalso. apply find_some in Hf as [Hin Hid].
    eapply find_none in Hs; [|apply in_or_app; right; exact Hin].
    congruence.
Qed.

Lemma find_app_has_ID (l k : list CategoryModel) :
  find (spec.has_ID categoryID) (l ++ k)
  = match find (spec.has_ID categoryID) l with
    | Some c => Some c
    | None => find (spec.has_ID categoryID) k
    end.
Proof.
  induction l as [|c l IH]; cbn; [reflexivity|].
  now destruct (spec.has_ID categoryID c).
Qed.

(** When no two subcategories of the tree share an ID, the code resolves
    the name as the specification words it. *)
Lemma forumName_unique_ids cats :
  NoDup (map CategoryModel_ID
           (flat_map CategoryModel_SubcategoryList cats)) ->
  discourse.forumName {| CategoryList := {| Categories := cats |} |}
    categoryID
  = spec.forumName cats categoryID.
Proof.
  unfold discourse.forumName, spec.forumName. cbn. generalize "" as acc.
  induction cats as [|c cats IH]; intros acc; cbn; [reflexivity|].
  unfold spec.has_ID at 1 3.
  destruct (CategoryModel_ID c =? categoryID); [reflexivity|].
  rewrite map_app. intros Hnd.
  apply NoDup_app in Hnd as (_ & Hdisj & Hnd).
  rewrite IH by exact Hnd. rewrite subcategoryLoop_find, find_app_has_ID.
  destruct (find (spec.has_ID categoryID) cats); [reflexivity|].
  destruct (find (spec.has_ID categoryID) (CategoryModel_SubcategoryList c))
    as [s|] eqn:Hc; [|reflexivity].
  destruct (find _ (flat_map _ cats)) as [s'|] eqn:Hf; [|reflexivity].
  exfalso. apply find_some in Hc as [Hin Hid].
  apply find_some in Hf as [Hin' Hid'].
  unfold spec.has_ID in Hid, Hid'.
  apply Z.eqb_eq in Hid. apply Z.eqb_eq in Hid'.
  apply (Hdisj categoryID).
  - rewrite <- Hid. apply list_elem_of_In, in_map, Hin.
  - rewrite <- Hid'. apply list_elem_of_In, in_map, Hin'.
Qed.

End ForumName.

(** The example of the specification: the subcategory 11 resolves to
    [A1], the unknown ID 99 to the empty name. *)
Example forumName_spec_example :
  discourse.forumName
    {| CategoryList := {| Categories := fixtures.oneParent |} |} 11 = "A1"
  /\ discourse.forumName
       {| CategoryList := {| Categories := fixtures.oneParent |} |} 99 = "".
Proof. split; reflexivity. Qed.

(** C3, the code at a tree in which two categories hold a subcategory
    with the topic's category ID 11: [ListPosts] returns without an error,
    and the forum name of the post is [B1], the name of the match in the
    last such category, where the first match in the order of the
    specification is [A1]. *)
Theorem C3_last_parent_wins (t : nat) :
  exists p,
    calls (discourse.ListPosts (Svc := fixtures.backend fixtures.twoParents)
             fixtures.loaded t)
    = [CategoriesList Background; TopicsListLatest Background]
    /\ value (discourse.ListPosts
                (Svc := fixtures.backend fixtures.twoParents)
                fixtures.loaded t)
       = Returns ([p], None)
    /\ forum.Name (post.Forum p) = "B1"
    /\ spec.forumName fixtures.twoParents 11 = "A1".
Proof.
  eexists. split; [reflexivity|]. split; [reflexivity|].
  split; reflexivity.
Qed.

(** ** [LoadPost] *)

Section LoadPost.
Context `{Svc : discourse.Services}.
Variable sys : discourse.System.

(** A timestamp: the parsed one and no reading of the clock, or the
    clock's next reading. *)
Lemma parseOrNow_run s n :
  discourse.parseOrNow s n
  = ([], Returns (views.stamp s n, (n + views.reads s)%nat)).
Proof.
  unfold discourse.parseOrNow, views.stamp, views.reads, discourse.now,
    oret, ret.
  destruct (discourse.dateparse_ParseAny s).
  - now rewrite Nat.add_1_r.
  - now rewrite Nat.add_0_r.
Qed.

Lemma set_Replies_id p : post.set_Replies p (post.Replies p) = p.
Proof. now destruct p. Qed.

(** The replies made for a post depend on the post through its ID
    only. *)
Lemma replied_same_ID p1 p2 items : forall n replies,
  post.ID p1 = post.ID p2 ->
  views.replied sys p1 n items replies ->
  views.replied sys p2 n items replies.
Proof.
  induction items as [|i items IH]; intros n [|r replies] Hid; cbn; auto.
  intros [Hr Hrest]. split; [|now apply IH].
  unfold views.reply_of in *. now rewrite <- Hid.
Qed.

Lemma replied_length p items : forall n replies,
  views.replied sys p n items replies -> length replies = length items.
Proof.
  induction items as [|i items IH]; intros n [|r replies]; cbn;
    try tauto.
  intros [_ Hrest]. f_equal. now apply (IH _ _ Hrest).
Qed.

(** The reply the loop builds for a raw post is the one the views
    describe. *)
Lemma toReply_reply_of p i n :
  views.reply_of sys p i
    (discourse.toReply sys p i (views.stamp (PostModel_CreatedAt i) n)) n.
Proof. unfold views.reply_of. cbn. tauto. Qed.

(** Past the first item the loop appends one reply per item, in the
    order of the stream, and makes no call. *)
Lemma postStreamLoop_rest posts : forall idx p n,
  exists added n',
    discourse.postStreamLoop sys (S idx) posts p n
    = ([], Returns (post.set_Replies p (post.Replies p ++ added), n'))
    /\ views.replied sys p n posts added.
Proof.
  induction posts as [|i posts IH]; intros idx p n.
  - exists [], n. split; [|exact I]. cbn.
    now rewrite app_nil_r, set_Replies_id.
  - cbn [discourse.postStreamLoop]. unfold obind.
    rewrite parseOrNow_run. cbn [bind fst snd].
    destruct (IH (S idx)
                (post.set_Replies p
                   (post.Replies p
                    ++ [discourse.toReply sys p i
                          (views.stamp (PostModel_CreatedAt i) n)]))
                (n + views.reads (PostModel_CreatedAt i))%nat)
      as (added & n' & Heq & Hrep).
    rewrite Heq.
    exists (discourse.toReply sys p i
              (views.stamp (PostModel_CreatedAt i) n) :: added), n'.
    split.
    + cbn. now rewrite <- app_assoc.
    + cbn [views.replied]. split; [apply toReply_reply_of|].
      now apply (replied_same_ID _ p) in Hrep.
Qed.

(** The whole loop on a stream that is not empty. *)
Lemma postStreamLoop_cons first rest p n :
  exists added n',
    discourse.postStreamLoop sys 0 (first :: rest) p n
    = ([], Returns
             (post.set_Replies (post.set_Body p (discourse.cookedMd first))
                (post.Replies p ++ added), n'))
    /\ views.replied sys p n rest added.
Proof.
  cbn [discourse.postStreamLoop].
  destruct (postStreamLoop_rest rest 0
              (post.set_Body p (discourse.cookedMd first)) n)
    as (added & n' & Heq & Hrep).
  exists added, n'. split; [exact Heq|].
  now apply (replied_same_ID _ p) in Hrep.
Qed.

(** [LoadPost] on a stream that is not empty. *)
Lemma LoadPost_stream c p item first rest n :
  discourse.client sys = Some c ->
  discourse.Topics_Show c Background (post.ID p) = inr item ->
  Posts (PostStream item) = first :: rest ->
  exists added n',
    discourse.LoadPost sys p n
    = ([TopicsShow Background (post.ID p)],
       Returns
         ((None,
           post.set_Replies (post.set_Body p (discourse.cookedMd first))
             (post.Replies p ++ added)), n'))
    /\ views.replied sys p n rest added.
Proof.
  intros Hc Hshow Hposts.
  destruct (postStreamLoop_cons first rest p n)
    as (added & n' & Heq & Hrep).
  exists added, n'. split; [|exact Hrep].
  unfold discourse.LoadPost, discourse.theClient, obind, ocalled, oret.
  rewrite Hc. cbn. rewrite Hshow. cbn. rewrite Hposts, Heq. reflexivity.
Qed.

End LoadPost.

(** C5: when the backend returns a post stream that is not empty,
    [LoadPost] returns no error; the post's body is the converted content
    of the first item (what the converter makes of its rich text, or the
    rich text itself when the converter fails), and its replies are those
    it had, followed by one reply per further item, in the order of the
    stream; nothing else of the post changes. *)
Theorem C5_thread_mapping `{Svc : discourse.Services}
    (sys : discourse.System) (c : Client) (p : post.Post)
    (item : SingleTopicResponse) (first : PostModel) (rest : list PostModel)
    (t : nat) :
  discourse.client sys = Some c ->
  discourse.Topics_Show c Background (post.ID p) = inr item ->
  Posts (PostStream item) = first :: rest ->
  exists p' added,
    value (discourse.LoadPost sys p t) = Returns (None, p')
    /\ post.Body p' = views.converted first
    /\ post.Replies p' = (post.Replies p ++ added)%list
    /\ views.replied sys p t rest added
    /\ length added = length rest
    /\ length (post.Replies p')
       = (length (post.Replies p) + length rest)%nat
    /\ views.same_header p p'.
Proof.
  intros Hc Hshow Hposts.
  destruct (LoadPost_stream sys c p item first rest t Hc Hshow Hposts)
    as (added & n' & Heq & Hrep).
  pose proof (replied_length sys p rest t added Hrep) as Hlen.
  eexists _, added. split; [unfold value; rewrite Heq; reflexivity|].
  cbn. split; [reflexivity|]. split; [reflexivity|].
  split; [exact Hrep|]. split; [exact Hlen|].
  split; [now rewrite length_app, Hlen|].
  unfold views.same_header. cbn. tauto.
Qed.

(** C5 at the thread of the specification's example, followed by a post
    the converter does not take and whose timestamp does not parse. *)
Lemma C5_thread_mapping_witness :
  exists p',
    value (discourse.LoadPost
             (Svc := cases.converting cases.exampleThread)
             fixtures.loaded fixtures.aPost 0%nat)
    = Returns (None, p')
    /\ post.Body p' = "root"
    /\ map reply.ID (post.Replies p') = ["2"; "3"]
    /\ map reply.Body (post.Replies p') = ["reply"; "plain"]
    /\ map reply.CreatedAt (post.Replies p') = [1600000100; 1700000000].
Proof.
  destruct (C5_thread_mapping (Svc := cases.converting cases.exampleThread)
              fixtures.loaded (NewClient fixtures.cc) fixtures.aPost
              {| PostStream := {| Posts := cases.exampleThread |} |}
              (mkPostModel 1 "ann" 7 "<p>root</p>" "1600000000")
              [mkPostModel 2 "bob" 8 "<p>reply</p>" "1600000100";
               mkPostModel 3 "cyd" 9 "plain" "just now"]
              0%nat eq_refl eq_refl eq_refl)
    as (p' & added & Hres & Hbody & _).
  exists p'. split; [exact Hres|]. split; [exact Hbody|].
  cbv in Hres. injection Hres as <-.
  split; [reflexivity|]. split; reflexivity.
Defined.

(** ** [CreateReply] *)

Section CreateReply.
Context `{Svc : discourse.Services}.
Variables (sys : discourse.System) (l : SugaredLogger) (c : Client).
Hypothesis Hlogger : discourse.logger sys = Some l.
Hypothesis Hclient : discourse.client sys = Some c.

(** [CreateReply] once both numbers have been parsed: it reads the clock
    once and makes one call. *)
Lemma CreateReply_parsed r id inReplyTo clock :
  strconv.Atoi (reply.ID r) = inr id ->
  discourse.parseInReplyTo r = inr inReplyTo ->
  discourse.CreateReply sys r clock
  = ([PostsCreate Background
        (discourse.replyRequest r id inReplyTo (discourse.time_Now clock))],
     Returns
       (match discourse.Posts_Create c Background
                (discourse.replyRequest r id inReplyTo
                   (discourse.time_Now clock)) with
        | inl err => (Some err, r)
        | inr cp =>
            (None, reply.set_ID r (strconv.Itoa (PostModel_ID cp)))
        end, S clock)).
Proof.
  intros Hid Hin. unfold discourse.CreateReply, discourse.theClient.
  rewrite Hlogger, Hid, Hin, Hclient. cbn.
  now destruct (discourse.Posts_Create _ _ _).
Qed.

Lemma parseInReplyTo_empty r :
  reply.InReplyTo r = "" -> discourse.parseInReplyTo r = inr (-1).
Proof. unfold discourse.parseInReplyTo. now intros ->. Qed.

Lemma parseInReplyTo_nonempty r :
  reply.InReplyTo r <> "" ->
  discourse.parseInReplyTo r = strconv.Atoi (reply.InReplyTo r).
Proof.
  unfold discourse.parseInReplyTo.
  now destruct (reply.InReplyTo r).
Qed.

End CreateReply.

(** C4, as the code has it: for a loaded adapter and a reply whose [ID]
    parses as an integer, [CreateReply] makes one call of the create
    handler.  With an empty [InReplyTo] the request has the parsed [ID] as
    [TopicID] and no [ReplyToPostNumber]; with an [InReplyTo] that is not
    empty and parses as an integer other than -1 it has the parsed
    [InReplyTo] as [TopicID] and the parsed [ID] as [ReplyToPostNumber].
    When [CreateReply] returns no error, the reply's [ID] is the decimal
    form of the identifier the backend returned for that request. *)
Theorem C4_reply_request `{Svc : discourse.Services}
    (sys : discourse.System) (l : SugaredLogger) (c : Client)
    (r : reply.Reply) (id : Z) (clock : nat) :
  discourse.logger sys = Some l ->
  discourse.client sys = Some c ->
  strconv.Atoi (reply.ID r) = inr id ->
  (reply.InReplyTo r = "" ->
   exists ap,
     calls (discourse.CreateReply sys r clock) = [PostsCreate Background ap]
     /\ Raw ap = reply.Body r
     /\ TopicID ap = id
     /\ ReplyToPostNumber ap = 0)
  /\ (forall t,
        reply.InReplyTo r <> "" ->
        strconv.Atoi (reply.InReplyTo r) = inr t ->
        t <> -1 ->
        exists ap,
          calls (discourse.CreateReply sys r clock)
          = [PostsCreate Background ap]
          /\ Raw ap = reply.Body r
          /\ TopicID ap = t
          /\ ReplyToPostNumber ap = id)
  /\ (forall r',
        value (discourse.CreateReply sys r clock) = Returns (None, r') ->
        exists ap cp,
          calls (discourse.CreateReply sys r clock)
          = [PostsCreate Background ap]
          /\ discourse.Posts_Create c Background ap = inr cp
          /\ r' = reply.set_ID r (strconv.Itoa (PostModel_ID cp))
          /\ reply.ID r' = strconv.Itoa (PostModel_ID cp)).
Proof.
  intros Hl Hc Hid. split; [|split].
  - intros Hempty.
    rewrite (CreateReply_parsed sys l c Hl Hc r id (-1) clock Hid)
      by now apply parseInReplyTo_empty.
    eexists. split; [reflexivity|]. now cbn.
  - intros t Hne Ht Hsentinel.
    rewrite (CreateReply_parsed sys l c Hl Hc r id t clock Hid)
      by now rewrite parseInReplyTo_nonempty.
    eexists. split; [reflexivity|]. unfold discourse.replyRequest.
    apply Z.eqb_neq in Hsentinel. rewrite Hsentinel. now cbn.
  - intros r'. destruct (discourse.parseInReplyTo r) as [e|t] eqn:Hin.
    + unfold discourse.CreateReply. rewrite Hl, Hid, Hin. discriminate.
    + rewrite (CreateReply_parsed sys l c Hl Hc r id t clock Hid Hin).
      unfold value. cbn.
      destruct (discourse.Posts_Create c Background _) as [err|cp] eqn:Hcp;
        intros [= <-].
      exists (discourse.replyRequest r id t (discourse.time_Now clock)), cp.
      now rewrite Hcp.
Qed.

(** C4 on the examples of the specification: [{ID: 5, InReplyTo: empty}]
    and [{ID: 7, InReplyTo: 5}], on a backend that assigns the
    identifier 42. *)
Lemma C4_reply_request_witness :
  (exists ap,
     calls (discourse.CreateReply (Svc := fixtures.backend fixtures.oneParent)
              fixtures.loaded (fixtures.aReply "5" "") 0%nat)
     = [PostsCreate Background ap]
     /\ Raw ap = "hi" /\ TopicID ap = 5 /\ ReplyToPostNumber ap = 0)
  /\ (exists ap,
        calls (discourse.CreateReply
                 (Svc := fixtures.backend fixtures.oneParent)
                 fixtures.loaded (fixtures.aReply "7" "5") 0%nat)
        = [PostsCreate Background ap]
        /\ Raw ap = "hi" /\ TopicID ap = 5 /\ ReplyToPostNumber ap = 7)
  /\ (exists ap cp,
        calls (discourse.CreateReply
                 (Svc := fixtures.backend fixtures.oneParent)
                 fixtures.loaded (fixtures.aReply "7" "5") 0%nat)
        = [PostsCreate Background ap]
        /\ discourse.Posts_Create (Services := fixtures.backend fixtures.oneParent)
             (NewClient fixtures.cc) Background ap = inr cp
        /\ fixtures.aReply "42" "5"
           = reply.set_ID (fixtures.aReply "7" "5")
               (strconv.Itoa (PostModel_ID cp))
        /\ reply.ID (fixtures.aReply "42" "5")
           = strconv.Itoa (PostModel_ID cp)).
Proof.
  split; [|split].
  - refine (proj1 (C4_reply_request
                     (Svc := fixtures.backend fixtures.oneParent)
                     fixtures.loaded zapLogger (NewClient fixtures.cc)
                     (fixtures.aReply "5" "") 5 0%nat
                     eq_refl eq_refl eq_refl)
              eq_refl).
  - refine (proj1 (proj2 (C4_reply_request
                     (Svc := fixtures.backend fixtures.oneParent)
                     fixtures.loaded zapLogger (NewClient fixtures.cc)
                     (fixtures.aReply "7" "5") 7 0%nat
                     eq_refl eq_refl eq_refl))
              5 _ eq_refl _); discriminate.
  - refine (proj2 (proj2 (C4_reply_request
                     (Svc := fixtures.backend fixtures.oneParent)
                     fixtures.loaded zapLogger (NewClient fixtures.cc)
                     (fixtures.aReply "7" "5") 7 0%nat
                     eq_refl eq_refl eq_refl))
              (fixtures.aReply "42" "5") eq_refl).
Defined.

(** C4 as stated fails at [{ID: 7, InReplyTo: -1}]: the [InReplyTo] is
    not empty and parses as an integer, yet the request has neither that
    integer as [TopicID] nor the parsed [ID] as [ReplyToPostNumber],
    whenever the operation is run. *)
Lemma C4_counterexample :
  strconv.Atoi (reply.ID (fixtures.aReply "7" "-1")) = inr 7
  /\ reply.InReplyTo (fixtures.aReply "7" "-1") <> ""
  /\ strconv.Atoi (reply.InReplyTo (fixtures.aReply "7" "-1")) = inr (-1)
  /\ forall clock,
       ~ (exists ap,
            calls (discourse.CreateReply
                     (Svc := fixtures.backend fixtures.oneParent)
                     fixtures.loaded (fixtures.aReply "7" "-1") clock)
            = [PostsCreate Background ap]
            /\ TopicID ap = -1
            /\ ReplyToPostNumber ap = 7).
Proof.
  split; [reflexivity|]. split; [discriminate|]. split; [reflexivity|].
  intros clock (ap & Hcalls & Htopic & _).
  rewrite (CreateReply_parsed (Svc := fixtures.backend fixtures.oneParent)
             fixtures.loaded zapLogger (NewClient fixtures.cc)
             eq_refl eq_refl (fixtures.aReply "7" "-1") 7 (-1) clock
             eq_refl eq_refl) in Hcalls.
  cbn in Hcalls. injection Hcalls as <-. discriminate Htopic.
Qed.

(** C10: for a loaded adapter and a reply whose [ID] parses as an integer
    and whose [InReplyTo] is the string [-1], the [InReplyTo] parses to
    the value the variable [inReplyTo] starts with, and the request is
    that of a direct reply to the topic: the parsed [ID] as [TopicID], no
    [ReplyToPostNumber]; it is the request the same reply with an empty
    [InReplyTo] gives: the same in every field but the time stamp, which
    is the reading of the clock, and the same in every field at the same
    reading. *)
Theorem C10_minus_one_is_the_sentinel `{Svc : discourse.Services}
    (sys : discourse.System) (l : SugaredLogger) (c : Client)
    (r : reply.Reply) (id : Z) (clock : nat) :
  discourse.logger sys = Some l ->
  discourse.client sys = Some c ->
  strconv.Atoi (reply.ID r) = inr id ->
  reply.InReplyTo r = "-1" ->
  strconv.Atoi (reply.InReplyTo r) = inr (-1)
  /\ (exists ap,
        calls (discourse.CreateReply sys r clock)
        = [PostsCreate Background ap]
        /\ Raw ap = reply.Body r
        /\ TopicID ap = id
        /\ ReplyToPostNumber ap = 0)
  /\ calls (discourse.CreateReply sys r clock)
     = calls (discourse.CreateReply sys
                {| reply.ID := reply.ID r; reply.InReplyTo := "";
                   reply.Body := reply.Body r;
                   reply.CreatedAt := reply.CreatedAt r;
                   reply.Author := reply.Author r;
                   reply.SysIDX := reply.SysIDX r |} clock)
  /\ (forall clock', exists ap ap',
        calls (discourse.CreateReply sys r clock)
        = [PostsCreate Background ap]
        /\ calls (discourse.CreateReply sys
                    {| reply.ID := reply.ID r; reply.InReplyTo := "";
                       reply.Body := reply.Body r;
                       reply.CreatedAt := reply.CreatedAt r;
                       reply.Author := reply.Author r;
                       reply.SysIDX := reply.SysIDX r |} clock')
           = [PostsCreate Background ap']
        /\ Title ap = Title ap'
        /\ Raw ap = Raw ap'
        /\ Category ap = Category ap'
        /\ TopicID ap = TopicID ap'
        /\ ReplyToPostNumber ap = ReplyToPostNumber ap').
Proof.
  intros Hl Hc Hid Hin.
  assert (Hparse : discourse.parseInReplyTo r = inr (-1)).
  { unfold discourse.parseInReplyTo. now rewrite Hin. }
  split; [now rewrite Hin|].
  rewrite (CreateReply_parsed sys l c Hl Hc r id (-1) clock Hid Hparse).
  split; [|split].
  - eexists. split; [reflexivity|]. now cbn.
  - match goal with
    | |- _ = calls (discourse.CreateReply sys ?r0 _) =>
        now rewrite (CreateReply_parsed sys l c Hl Hc r0 id (-1) clock
                       Hid eq_refl)
    end.
  - intros clock'.
    match goal with
    | |- context [discourse.CreateReply sys ?r0 clock'] =>
        rewrite (CreateReply_parsed sys l c Hl Hc r0 id (-1) clock'
                   Hid eq_refl)
    end.
    eexists _, _. split; [reflexivity|]. split; [reflexivity|].
    now cbn.
Qed.

(** C10 at [{ID: 7, InReplyTo: -1}]. *)
Lemma C10_minus_one_is_the_sentinel_witness :
  exists ap,
    calls (discourse.CreateReply (Svc := fixtures.backend fixtures.oneParent)
             fixtures.loaded (fixtures.aReply "7" "-1") 0%nat)
    = [PostsCreate Background ap]
    /\ Raw ap = "hi" /\ TopicID ap = 7 /\ ReplyToPostNumber ap = 0.
Proof.
  refine (proj1 (proj2 (C10_minus_one_is_the_sentinel
                   (Svc := fixtures.backend fixtures.oneParent)
                   fixtures.loaded zapLogger (NewClient fixtures.cc)
                   (fixtures.aReply "7" "-1") 7 0%nat
                   eq_refl eq_refl eq_refl eq_refl))).
Defined.

(** ** [Load] *)

Lemma index_absent (m : gmap string Value) (k : string) :
  m !! k = None -> index m k = VNil.
Proof. unfold index. now intros ->. Qed.

(** The credentials loop returns when every value is a string and panics
    on the type assertion otherwise. *)
Lemma credentialsOf_VMap (m : gmap string Value) :
  (map_Forall (fun _ x => spec.isString x = true) m ->
   exists credentials, credentialsOf (VMap m) = Returns credentials)
  /\ (~ map_Forall (fun _ x => spec.isString x = true) m ->
      credentialsOf (VMap m) = Panics InterfaceConversion).
Proof.
  unfold credentialsOf.
  apply (map_fold_weak_ind
           (fun r m =>
              (map_Forall (fun _ x => spec.isString x = true) m ->
               exists credentials, r = Returns credentials)
              /\ (~ map_Forall (fun _ x => spec.isString x = true) m ->
                  r = Panics InterfaceConversion))); clear m.
  - split; [eauto|]. intros Hno. destruct Hno. apply map_Forall_empty.
  - intros k x m r Hfresh [IHok IHbad]. split.
    + intros Hall. apply map_Forall_insert in Hall as [Hx Hm]; [|exact Hfresh].
      destruct (IHok Hm) as [credentials ->].
      destruct x; try discriminate Hx. eauto.
    + intros Hno.
      destruct (decide (map_Forall (fun _ x => spec.isString x = true) m))
        as [Hm|Hm].
      * destruct (IHok Hm) as [credentials ->].
        destruct x; try reflexivity.
        destruct Hno. apply map_Forall_insert; [exact Hfresh|]. now split.
      * now rewrite (IHbad Hm).
Qed.

Lemma credentialsOf_not_string_map (v : Value) :
  spec.is_string_map v = false ->
  credentialsOf v = Panics InterfaceConversion.
Proof.
  destruct v as [| | | |m|]; try reflexivity.
  cbn. intros Hno. apply bool_decide_eq_false in Hno.
  now apply credentialsOf_VMap.
Qed.

Lemma credentialsOf_outcome (v : Value) :
  (exists credentials, credentialsOf v = Returns credentials)
  \/ credentialsOf v = Panics InterfaceConversion.
Proof.
  destruct (spec.is_string_map v) eqn:Hv.
  - left. destruct v as [| | | |m|]; try discriminate Hv.
    cbn in Hv. apply bool_decide_eq_true in Hv.
    now apply credentialsOf_VMap.
  - right. now apply credentialsOf_not_string_map.
Qed.

(** C6: with no [url] key in the configuration, [Load] of either adapter
    returns no error, makes no call, and leaves the adapter as it was,
    without a client of its making. *)
Theorem C6_load_without_url `{L : lemmy.Library}
    (dsys : discourse.System) (lsys : lemmy.System) :
  (discourse.config dsys !! "url" = None ->
   discourse.Load dsys = ([], Returns (None, dsys)))
  /\ (lemmy.config lsys !! "url" = None ->
      lemmy.Load lsys = ([], Returns (None, lsys))).
Proof.
  split; intros Hurl.
  - unfold discourse.Load. now rewrite (index_absent _ _ Hurl).
  - unfold lemmy.Load. now rewrite (index_absent _ _ Hurl).
Qed.

(** C6 at the empty configuration. *)
Lemma C6_load_without_url_witness :
  discourse.Load fixtures.unconfigured
  = ([], Returns (None, fixtures.unconfigured))
  /\ discourse.client fixtures.unconfigured = None
  /\ lemmy.Load (L := fixtures.goLemmy) fixtures.lemmyUnconfigured
     = ([], Returns (None, fixtures.lemmyUnconfigured)).
Proof.
  destruct (C6_load_without_url (L := fixtures.goLemmy)
              fixtures.unconfigured fixtures.lemmyUnconfigured)
    as [Hd Hl].
  split; [exact (Hd eq_refl)|]. split; [reflexivity|exact (Hl eq_refl)].
Defined.

(** C9, as the code has it: when the configuration holds a [url] and
    its [credentials] are absent or are not a map from strings to
    strings, the Discourse adapter's [Load] panics on a type assertion;
    on every configuration it returns nil or panics, and never returns
    an error.  The Lemmy adapter's [Load] panics on the same
    configurations once [lemmy.New] has returned without an error; when
    [lemmy.New] returns an error, [Load] returns that error before it
    looks at the credentials, and does not panic. *)
Theorem C9_load_panics `{L : lemmy.Library}
    (dsys : discourse.System) (lsys : lemmy.System) :
  (index (discourse.config dsys) "url" <> VNil ->
   spec.is_string_map (index (discourse.config dsys) "credentials") = false ->
   discourse.Load dsys = ([], Panics InterfaceConversion))
  /\ ((exists sys', discourse.Load dsys = ([], Returns (None, sys')))
      \/ (exists p, discourse.Load dsys = ([], Panics p)))
  /\ (index (lemmy.config lsys) "url" <> VNil ->
      spec.is_string_map (index (lemmy.config lsys) "credentials") = false ->
      (forall url, index (lemmy.config lsys) "url" = VString url ->
                   snd (lemmy.lemmy_New url) = None) ->
      lemmy.Load lsys = ([], Panics InterfaceConversion))
  /\ (forall url c err,
        index (lemmy.config lsys) "url" = VString url ->
        lemmy.lemmy_New url = (c, Some err) ->
        lemmy.Load lsys = ([], Returns (Some err, lemmy.set_client lsys c))).
Proof.
  split; [|split; [|split]].
  - intros Hurl Hcred. unfold discourse.Load.
    rewrite (credentialsOf_not_string_map _ Hcred).
    now destruct (index (discourse.config dsys) "url").
  - unfold discourse.Load.
    destruct (credentialsOf (index (discourse.config dsys) "credentials"))
      as [credentials|p];
      destruct (index (discourse.config dsys) "url"); cbn; eauto.
  - intros Hurl Hcred Hnew. unfold lemmy.Load.
    destruct (index (lemmy.config lsys) "url") as [|url| | | |];
      try reflexivity; [now destruct Hurl|].
    specialize (Hnew url eq_refl).
    destruct (lemmy.lemmy_New url) as [c err]. cbn in Hnew. subst err.
    cbn [lemmy.set_client lemmy.config].
    now rewrite (credentialsOf_not_string_map _ Hcred).
  - intros url c err Hurl Hnew. unfold lemmy.Load.
    now rewrite Hurl, Hnew.
Qed.

(** C9 at a configuration with a [url] and no [credentials]. *)
Lemma C9_load_panics_witness :
  discourse.Load fixtures.noCredentials = ([], Panics InterfaceConversion)
  /\ lemmy.Load (L := fixtures.goLemmy) fixtures.lemmyNoCredentials
     = ([], Panics InterfaceConversion).
Proof.
  destruct (C9_load_panics (L := fixtures.goLemmy)
              fixtures.noCredentials fixtures.lemmyNoCredentials)
    as (Hd & _ & Hl & _).
  split.
  - apply Hd; [discriminate|reflexivity].
  - apply Hl; [discriminate|reflexivity|reflexivity].
Defined.

(** C9 as stated fails for the Lemmy adapter: with a [url] that
    [lemmy.New] rejects and no [credentials], [Load] returns the error of
    [lemmy.New] and does not panic. *)
Lemma C9_counterexample :
  index (lemmy.config fixtures.lemmyNoCredentials) "url" <> VNil
  /\ spec.is_string_map
       (index (lemmy.config fixtures.lemmyNoCredentials) "credentials")
     = false
  /\ lemmy.Load (L := cases.badLemmy) fixtures.lemmyNoCredentials
     = ([], Returns (Some (errors_New "invalid URL"),
                     fixtures.lemmyNoCredentials))
  /\ forall p,
       lemmy.Load (L := cases.badLemmy) fixtures.lemmyNoCredentials
       <> ([], Panics p).
Proof.
  split; [discriminate|]. split; [reflexivity|].
  split; [reflexivity|]. intros p. discriminate.
Qed.

Example credentialsOf_strings :
  credentialsOf
    (VMap {[ "client_id" := VString "abc"; "key" := VString "s3cret" ]})
  = Returns {[ "client_id" := "abc"; "key" := "s3cret" ]}.
Proof. vm_compute. reflexivity. Qed.

Example credentialsOf_number :
  credentialsOf (VMap {[ "client_id" := VString "abc"; "key" := VInt 5 ]})
  = Panics InterfaceConversion.
Proof. vm_compute. reflexivity. Qed.

Example Load_configured :
  discourse.Load
    {| discourse.ID := 0;
       discourse.config :=
         {[ "url" := VString "https://forum.example";
            "credentials" := VMap {[ "key" := VString "s3cret" ]} ]};
       discourse.logger := Some zapLogger;
       discourse.client := None |}
  = ([], Returns
           (None,
            {| discourse.ID := 0;
               discourse.config :=
                 {[ "url" := VString "https://forum.example";
                    "credentials" := VMap {[ "key" := VString "s3cret" ]} ]};
               discourse.logger := Some zapLogger;
               discourse.client :=
                 Some {| httpClient :=
                           {| retryablehttp.RetryMax := 3;
                              retryablehttp.Logger_ :=
                                retryablehttp.StdLogger aLogger |};
                         endpoint := "https://forum.example";
                         credentials := {[ "key" := "s3cret" ]};
                         logger := aLogger |} |})).
Proof. vm_compute. reflexivity. Qed.

(** ** Contexts *)

Section Contexts.
Context `{Svc : discourse.Services}.
Variable sys : discourse.System.

(** The post the loop of [ListPosts] makes of a topic with a poster: no
    call, and one reading of the clock per timestamp that does not
    parse. *)
Lemma topicToPost_run cats users i poster0 posters n :
  TopicModel_Posters i = poster0 :: posters ->
  discourse.topicToPost sys cats users i n
  = ([],
     Returns
       ({| post.ID := strconv.Itoa (TopicModel_ID i);
           post.Subject := TopicModel_Title i;
           post.Body := "";
           post.Type_ := "post";
           post.Pinned := TopicModel_Pinned i;
           post.Closed := TopicModel_Closed i;
           post.CreatedAt := views.stamp (TopicModel_CreatedAt i) n;
           post.LastCommentedAt :=
             views.stamp (TopicModel_LastPostedAt i)
               (n + views.reads (TopicModel_CreatedAt i));
           post.Author :=
             {| author.ID := strconv.Itoa (PosterModel_UserID poster0);
                author.Name :=
                  discourse.userName users (PosterModel_UserID poster0) |};
           post.Forum :=
             {| forum.ID := strconv.Itoa (TopicModel_CategoryID i);
                forum.Name :=
                  discourse.forumName cats (TopicModel_CategoryID i) |};
           post.Replies := [];
           post.SysIDX := discourse.ID sys |},
        (n + views.reads (TopicModel_CreatedAt i)
         + views.reads (TopicModel_LastPostedAt i))%nat)).
Proof.
  intros Hposters. unfold discourse.topicToPost. rewrite Hposters.
  unfold obind. rewrite parseOrNow_run. cbn [bind fst snd].
  rewrite parseOrNow_run. reflexivity.
Qed.

Lemma topicToPost_panics cats users i n :
  TopicModel_Posters i = [] ->
  discourse.topicToPost sys cats users i n = ([], Panics IndexOutOfRange).
Proof.
  intros Hposters. unfold discourse.topicToPost. now rewrite Hposters.
Qed.

(** Mapping the topics makes no call. *)
Lemma forEach_topicToPost_calls cats users topics : forall n,
  calls (forEach (discourse.topicToPost sys cats users) topics n) = [].
Proof.
  induction topics as [|i topics IH]; intros n; [reflexivity|].
  cbn [forEach]. unfold obind.
  destruct (TopicModel_Posters i) as [|poster0 posters] eqn:Hposters.
  - now rewrite topicToPost_panics.
  - rewrite (topicToPost_run cats users i poster0 posters n Hposters).
    cbn [bind fst snd]. match goal with
    | |- context [forEach _ topics ?n'] => specialize (IH n')
    end.
    destruct (forEach _ topics _) as [cs [ys|pk]]; cbn in *; now subst.
Qed.

Lemma ListPosts_calls n :
  Forall (fun call => NetCall_ctx call = Background)
    (calls (discourse.ListPosts sys n)).
Proof.
  unfold discourse.ListPosts, discourse.theClient, obind.
  destruct (discourse.client sys) as [c|]; cbn; [|constructor].
  destruct (discourse.Categories_List c Background) as [err|cats]; cbn;
    [repeat constructor|].
  destruct (discourse.Topics_ListLatest c Background) as [err|items]; cbn;
    [repeat constructor|].
  pose proof (forEach_topicToPost_calls cats (Users items)
                (Topics (TopicList items)) n) as Hcalls.
  destruct (forEach _ _ n) as [cs [ys|pk]]; cbn in *; subst;
    repeat constructor.
Qed.

Lemma ListPosts_error n e ps :
  value (discourse.ListPosts sys n) = Returns (ps, Some e) -> ps = [].
Proof.
  unfold discourse.ListPosts, discourse.theClient, obind, value.
  destruct (discourse.client sys) as [c|]; cbn; [|discriminate].
  destruct (discourse.Categories_List c Background); cbn;
    [now intros [= <- _]|].
  destruct (discourse.Topics_ListLatest c Background) as [err|items]; cbn;
    [now intros [= <- _]|].
  destruct (forEach _ _ n) as [cs [ys|pk]]; cbn; discriminate.
Qed.

(** The loop of [LoadPost] makes no call and does not panic. *)
Lemma postStreamLoop_returns posts : forall idx p n,
  exists p' n',
    discourse.postStreamLoop sys idx posts p n = ([], Returns (p', n')).
Proof.
  induction posts as [|i posts IH]; intros idx p n; [cbn; eauto|].
  destruct idx as [|idx]; cbn [discourse.postStreamLoop]; [apply IH|].
  unfold obind. rewrite parseOrNow_run. cbn [bind fst snd].
  match goal with
  | |- context [discourse.postStreamLoop sys ?k posts ?q ?m] =>
      destruct (IH k q m) as (p' & n' & ->)
  end.
  cbn. eauto.
Qed.

Lemma LoadPost_calls p n :
  Forall (fun call => NetCall_ctx call = Background)
    (calls (discourse.LoadPost sys p n)).
Proof.
  unfold discourse.LoadPost, discourse.theClient, obind.
  destruct (discourse.client sys) as [c|]; cbn; [|constructor].
  destruct (discourse.Topics_Show c Background (post.ID p)) as [err|item];
    cbn; [repeat constructor|].
  destruct (postStreamLoop_returns (Posts (PostStream item)) 0 p n)
    as (p' & n' & ->).
  cbn. repeat constructor.
Qed.

Lemma LoadPost_error p n e p' :
  value (discourse.LoadPost sys p n) = Returns (Some e, p') -> p' = p.
Proof.
  unfold discourse.LoadPost, discourse.theClient, obind, value.
  destruct (discourse.client sys) as [c|]; cbn; [|discriminate].
  destruct (discourse.Topics_Show c Background (post.ID p)) as [err|item];
    cbn; [now intros [= _ <-]|].
  destruct (postStreamLoop_returns (Posts (PostStream item)) 0 p n)
    as (q & n' & ->).
  cbn. discriminate.
Qed.

Lemma CreatePost_calls p n :
  Forall (fun call => NetCall_ctx call = Background)
    (calls (discourse.CreatePost sys p n)).
Proof.
  unfold discourse.CreatePost, discourse.theClient, obind.
  destruct (strconv.Atoi _); cbn; [constructor|].
  destruct (discourse.client sys) as [c|]; cbn; [|constructor].
  destruct (discourse.Posts_Create c Background _); cbn;
    repeat constructor.
Qed.

Lemma CreatePost_error p n e p' :
  value (discourse.CreatePost sys p n) = Returns (Some e, p') -> p' = p.
Proof.
  unfold discourse.CreatePost, discourse.theClient, obind, value.
  destruct (strconv.Atoi _); cbn; [now intros [= _ <-]|].
  destruct (discourse.client sys) as [c|]; cbn; [|discriminate].
  destruct (discourse.Posts_Create c Background _); cbn;
    [now intros [= _ <-]|discriminate].
Qed.

Lemma CreateReply_calls r n :
  Forall (fun call => NetCall_ctx call = Background)
    (calls (discourse.CreateReply sys r n)).
Proof.
  unfold discourse.CreateReply, discourse.theClient, obind.
  destruct (discourse.logger sys); [|constructor].
  destruct (strconv.Atoi _); [constructor|].
  destruct (discourse.parseInReplyTo r); [constructor|].
  destruct (discourse.client sys) as [c|]; cbn; [|constructor].
  destruct (discourse.Posts_Create c Background _); cbn;
    repeat constructor.
Qed.

Lemma CreateReply_error r n e r' :
  value (discourse.CreateReply sys r n) = Returns (Some e, r') -> r' = r.
Proof.
  unfold discourse.CreateReply, discourse.theClient, obind, value.
  destruct (discourse.logger sys); [|discriminate].
  destruct (strconv.Atoi _); [now intros [= _ <-]|].
  destruct (discourse.parseInReplyTo r); [now intros [= _ <-]|].
  destruct (discourse.client sys) as [c|]; cbn; [|discriminate].
  destruct (discourse.Posts_Create c Background _); cbn;
    [now intros [= _ <-]|discriminate].
Qed.

End Contexts.

(** C7, as the code has it: no domain operation takes a context.  Every
    call a domain operation makes carries [context.Background()], which
    is never canceled and has no deadline, so the caller cannot cancel
    the operation.  When an operation returns an error, whatever its
    kind, the caller's object is as it was before the call, and
    [ListPosts] returns no posts. *)
Theorem C7_background_context `{Svc : discourse.Services}
    (sys : discourse.System) (p : post.Post) (r : reply.Reply)
    (clock : nat) :
  ctx_Err Background = None
  /\ Forall (fun call => NetCall_ctx call = Background)
       (calls (discourse.ListPosts sys clock))
  /\ Forall (fun call => NetCall_ctx call = Background)
       (calls (discourse.LoadPost sys p clock))
  /\ Forall (fun call => NetCall_ctx call = Background)
       (calls (discourse.CreatePost sys p clock))
  /\ Forall (fun call => NetCall_ctx call = Background)
       (calls (discourse.CreateReply sys r clock))
  /\ (forall e ps,
        value (discourse.ListPosts sys clock) = Returns (ps, Some e) ->
        ps = [])
  /\ (forall e p',
        value (discourse.LoadPost sys p clock) = Returns (Some e, p') ->
        p' = p)
  /\ (forall e p',
        value (discourse.CreatePost sys p clock) = Returns (Some e, p') ->
        p' = p)
  /\ (forall e r',
        value (discourse.CreateReply sys r clock) = Returns (Some e, r') ->
        r' = r).
Proof.
  split; [reflexivity|].
  split; [apply ListPosts_calls|].
  split; [apply LoadPost_calls|].
  split; [apply CreatePost_calls|].
  split; [apply CreateReply_calls|].
  split; [intros e ps; apply ListPosts_error|].
  split; [intros e p'; apply LoadPost_error|].
  split; [intros e p'; apply CreatePost_error|].
  intros e r'; apply CreateReply_error.
Qed.

(** C7 at the post with the ID 1, and at a reply whose [ID] is not a
    number: the error leaves the reply as it was. *)
Lemma C7_background_context_witness :
  Forall (fun call => NetCall_ctx call = Background)
    (calls (discourse.LoadPost (Svc := fixtures.backend fixtures.oneParent)
              fixtures.loaded fixtures.aPost 0%nat))
  /\ exists e r',
       value (discourse.CreateReply
                (Svc := fixtures.backend fixtures.oneParent)
                fixtures.loaded (fixtures.aReply "seven" "") 0%nat)
       = Returns (Some e, r')
       /\ r' = fixtures.aReply "seven" "".
Proof.
  destruct (C7_background_context
              (Svc := fixtures.backend fixtures.oneParent)
              fixtures.loaded fixtures.aPost (fixtures.aReply "seven" "")
              0%nat)
    as (_ & _ & Hcalls & _ & _ & _ & _ & _ & Hreply).
  split; [exact Hcalls|].
  exists (NumError strconv.ErrSyntax), (fixtures.aReply "seven" "").
  split; [reflexivity|].
  exact (Hreply (NumError strconv.ErrSyntax) (fixtures.aReply "seven" "")
           eq_refl).
Defined.

(** C7 as stated fails: the handlers of this backend honour the context
    they are given, and the caller's context is canceled; yet [LoadPost]
    hands them the background context, returns no error and rewrites the
    post. *)
Lemma C7_counterexample :
  (forall c id,
     discourse.Topics_Show (Services := fixtures.backend fixtures.oneParent)
       c (WithCancel true) id = inl context_Canceled)
  /\ (forall clock,
        ~ spec.honours_context (WithCancel true)
            (discourse.LoadPost (Svc := fixtures.backend fixtures.oneParent)
               fixtures.loaded fixtures.aPost clock)
            fixtures.aPost)
  /\ forall clock, exists p',
       calls (discourse.LoadPost (Svc := fixtures.backend fixtures.oneParent)
                fixtures.loaded fixtures.aPost clock)
       = [TopicsShow Background "1"]
       /\ value (discourse.LoadPost
                   (Svc := fixtures.backend fixtures.oneParent)
                   fixtures.loaded fixtures.aPost clock)
          = Returns (None, p')
       /\ post.Body p' = "<p>root</p>"
       /\ p' <> fixtures.aPost.
Proof.
  split; [reflexivity|]. split.
  - intros clock [Hcalls _]. cbn in Hcalls.
    apply Forall_inv in Hcalls. discriminate Hcalls.
  - intros clock. eexists. split; [reflexivity|]. split; [reflexivity|].
    split; [reflexivity|]. discriminate.
Qed.

(* ===================================================================== *)
(** * Further properties of the client *)
(* ===================================================================== *)


Lemma checkStatus_success res content :
  200 <= StatusCode res <= 204 ->
  checkStatus res content = Returns (None, content).
Proof.
  intros Hs. unfold checkStatus, StatusOK, StatusNoContent.
  replace (StatusCode res <? 200) with false by (symmetry; apply Z.ltb_ge; lia).
  replace (StatusCode res >? 204) with false
    by (symmetry; rewrite Z.gtb_ltb; apply Z.ltb_ge; lia).
  reflexivity.
Qed.

Lemma checkStatus_nil_error res content content' :
  checkStatus res content = Returns (None, content') ->
  200 <= StatusCode res <= 204 /\ content' = content.
Proof.
  unfold checkStatus, StatusOK, StatusNoContent.
  destruct (StatusCode res <? 200) eqn:Hlo;
    destruct (StatusCode res >? 204) eqn:Hhi; cbn;
    try (destruct content; discriminate).
  intros [= <-]. apply Z.ltb_ge in Hlo.
  rewrite Z.gtb_ltb in Hhi. apply Z.ltb_ge in Hhi. split; [lia|reflexivity].
Qed.

(** X1: when the HTTP client hands [Do] a response with a status in
    [200, 204] whose body has been read, [Do] returns no error: with a
    nil destination the body is not decoded and nothing panics; with a
    destination into which the body decodes, the destination holds what
    the decoder left in it. *)
Theorem X1_Do_success `{W : Wire} (c : Client) (ctx : Context)
    (req : Request) (n : nat) (res : http_Response) (body : string) :
  retryablehttp.Do (httpClient c) ctx (roundTrip req)
  = Returns (n, inr res) ->
  Body res = inr body ->
  200 <= StatusCode res <= 204 ->
  Do c ctx req None = Returns (None, None)
  /\ (forall dst dst',
        json_Unmarshal body dst = (dst', None) ->
        Do c ctx req (Some dst) = Returns (None, Some dst')).
Proof.
  intros Hres Hbody Hs. unfold Do. rewrite Hres, Hbody. split.
  - now apply checkStatus_success.
  - intros dst dst' ->. now apply checkStatus_success.
Qed.

(** X1 at a server that answers 200 with an envelope. *)
Lemma X1_Do_success_witness :
  Do (W := cases.ok200) (NewClient fixtures.cc) Background
    fixtures.getTopic None = Returns (None, None)
  /\ Do (W := cases.ok200) (NewClient fixtures.cc) Background
       fixtures.getTopic (Some fixtures.noResponse)
     = Returns
         (None, Some (mkResponse "error" 0 "welcome" ∅ fixtures.noPost [])).
Proof.
  destruct (X1_Do_success (W := cases.ok200) (NewClient fixtures.cc)
              Background fixtures.getTopic 1%nat
              {| StatusCode := 200; Body := inr "welcome" |} "welcome"
              eq_refl eq_refl ltac:(cbn; lia))
    as [Hnil Hdst].
  split; [exact Hnil|]. exact (Hdst fixtures.noResponse _ eq_refl).
Defined.

(** X2: [Do] returns no error only when the HTTP client handed it a
    response with a status in [200, 204] whose body could be read and,
    with a destination, decoded; the destination is then what the decoder
    left, and a nil destination stays nil. *)
Theorem X2_Do_nil_error_means_success `{W : Wire} (c : Client)
    (ctx : Context) (req : Request) (content content' : option Response) :
  Do c ctx req content = Returns (None, content') ->
  exists n res body,
    retryablehttp.Do (httpClient c) ctx (roundTrip req)
    = Returns (n, inr res)
    /\ Body res = inr body
    /\ 200 <= StatusCode res <= 204
    /\ match content with
       | None => content' = None
       | Some dst => exists dst',
                       json_Unmarshal body dst = (dst', None)
                       /\ content' = Some dst'
       end.
Proof.
  unfold Do.
  destruct (retryablehttp.Do (httpClient c) ctx (roundTrip req))
    as [[n [err|res]]|pk]; [discriminate| |discriminate].
  destruct (Body res) as [err|body] eqn:Hbody; [discriminate|].
  intros HDo. exists n, res, body.
  split; [reflexivity|]. split; [exact Hbody|].
  destruct content as [dst|].
  - destruct (json_Unmarshal body dst) as [dst' [err|]] eqn:Hdec;
      [discriminate|].
    apply checkStatus_nil_error in HDo as [Hs ->]. split; [exact Hs|].
    now exists dst'.
  - apply checkStatus_nil_error in HDo as [Hs ->]. now split.
Qed.

(** X2 at a server that answers 200 with an envelope. *)
Lemma X2_Do_nil_error_means_success_witness :
  exists n res body,
    retryablehttp.Do (httpClient (NewClient fixtures.cc)) Background
      (roundTrip (Wire := cases.ok200) fixtures.getTopic)
    = Returns (n, inr res)
    /\ Body res = inr body
    /\ 200 <= StatusCode res <= 204
    /\ exists dst',
         fixtures.decode body fixtures.noResponse = (dst', None)
         /\ Some (mkResponse "error" 0 "welcome" ∅ fixtures.noPost [])
            = Some dst'.
Proof.
  exact (X2_Do_nil_error_means_success (W := cases.ok200)
           (NewClient fixtures.cc) Background fixtures.getTopic
           (Some fixtures.noResponse)
           (Some (mkResponse "error" 0 "welcome" ∅ fixtures.noPost []))
           eq_refl).
Defined.

(** X3: [Do] writes to the destination only by decoding: whatever [Do]
    returns, the destination is as it was, or the response was received,
    its body read, and the destination is what the decoder left.  In
    particular an error of the HTTP client or of reading the body leaves
    the destination as it was. *)
Theorem X3_Do_destination `{W : Wire} (c : Client) (ctx : Context)
    (req : Request) (content content' : option Response)
    (err : option Error) :
  Do c ctx req content = Returns (err, content') ->
  content' = content
  \/ exists n res body dst,
       retryablehttp.Do (httpClient c) ctx (roundTrip req)
       = Returns (n, inr res)
       /\ Body res = inr body
       /\ content = Some dst
       /\ content' = Some (fst (json_Unmarshal body dst)).
Proof.
  unfold Do.
  destruct (retryablehttp.Do (httpClient c) ctx (roundTrip req))
    as [[n [e|res]]|pk]; [intros [= _ <-]; now left| |discriminate].
  destruct (Body res) as [e|body] eqn:Hbody; [intros [= _ <-]; now left|].
  destruct content as [dst|].
  - intros HDo. right. exists n, res, body, dst.
    split; [reflexivity|]. split; [exact Hbody|]. split; [reflexivity|].
    destruct (json_Unmarshal body dst) as [dst' [e|]]; cbn.
    + now injection HDo as _ <-.
    + unfold checkStatus in HDo.
      destruct (_ || _); now injection HDo as _ <-.
  - unfold checkStatus. destruct (_ || _); [discriminate|].
    intros [= _ <-]. now left.
Qed.

(** X3 at a server whose body cannot be read: the error of reading is
    returned and the destination is as it was. *)
Lemma X3_Do_destination_witness :
  Do (W := cases.brokenBody) (NewClient fixtures.cc) Background
    fixtures.getTopic (Some fixtures.noResponse)
  = Returns (Some (errors_New "unexpected EOF"), Some fixtures.noResponse)
  /\ (Some fixtures.noResponse = Some fixtures.noResponse
      \/ exists n res body dst,
           retryablehttp.Do (httpClient (NewClient fixtures.cc))
             Background
             (roundTrip (Wire := cases.brokenBody) fixtures.getTopic)
           = Returns (n, inr res)
           /\ Body res = inr body
           /\ Some fixtures.noResponse = Some dst
           /\ Some fixtures.noResponse
              = Some (fst (fixtures.decode body dst))).
Proof.
  split; [reflexivity|].
  exact (X3_Do_destination (W := cases.brokenBody) (NewClient fixtures.cc)
           Background fixtures.getTopic (Some fixtures.noResponse)
           (Some fixtures.noResponse) (Some (errors_New "unexpected EOF"))
           eq_refl).
Defined.



(** X5: the logger of the configuration decides whether [Do] can run.
    A client built by [NewClient] from a logger that holds a nil pointer
    panics in [Do] before the first attempt, whatever the request and
    the context; that is the client [Load] builds for an adapter whose
    logger was never set.  With a logger that can be logged to and a
    context that is done, [Do] makes one attempt, on which nothing is
    sent, and returns the retry loop's error around the context's; the
    destination is as it was. *)
Theorem X5_Do_logger `{W : Wire} (cc : ClientConfig) (ctx : Context)
    (req : Request) (content : option Response) :
  (ClientConfig_Logger cc = typedNilLogger ->
   Do (NewClient cc) ctx req content = Panics NilDereference
   /\ Do_attempts (NewClient cc) ctx req = 0%nat)
  /\ (forall e,
        spec.usable (ClientConfig_Logger cc) ->
        ctx_Err ctx = Some e ->
        Do_attempts (NewClient cc) ctx req = 1%nat
        /\ Do (NewClient cc) ctx req content
           = Returns (Some (GivingUp 1 (Some e)), content))
  /\ (forall sys sys',
        discourse.logger sys = None ->
        index (discourse.config sys) "url" <> VNil ->
        discourse.Load sys = ([], Returns (None, sys')) ->
        exists c,
          discourse.client sys' = Some c
          /\ Do c ctx req content = Panics NilDereference).
Proof.
  split; [|split].
  - now apply NewClient_Do_typed_nil.
  - intros e Hlog Hctx. unfold Do_attempts, Do.
    rewrite (NewClient_Do cc ctx (roundTrip req) Hlog).
    cbn. unfold retryablehttp.attempt, retryablehttp.DefaultRetryPolicy.
    now rewrite Hctx.
  - intros sys sys' Hlogger Hurl. unfold discourse.Load.
    destruct (credentialsOf _) as [credentials|pk];
      destruct (index (discourse.config sys) "url") as [|url| | | |];
      try discriminate; try (now destruct Hurl).
    intros [= <-]. eexists. split; [reflexivity|].
    apply NewClient_Do_typed_nil. cbn. unfold discourse.loggerOf.
    now rewrite Hlogger.
Qed.

(** X5 at a configuration whose logger holds a nil pointer, at a
    canceled context, and at an adapter whose logger was never set. *)
Lemma X5_Do_logger_witness :
  Do (W := cases.ok200) (NewClient cases.ccTypedNil) Background
    fixtures.getTopic None = Panics NilDereference
  /\ Do (W := cases.ok200) (NewClient fixtures.cc) (WithCancel true)
       fixtures.getTopic None
     = Returns (Some (GivingUp 1 (Some context_Canceled)), None)
  /\ exists c,
       discourse.client
         (discourse.set_client cases.unlogged
            (NewClient cases.ccTypedNil)) = Some c
       /\ Do (W := cases.ok200) c Background fixtures.getTopic None
          = Panics NilDereference.
Proof.
  split; [|split].
  - destruct (X5_Do_logger (W := cases.ok200) cases.ccTypedNil Background
                fixtures.getTopic None) as (Hnil & _ & _).
    exact (proj1 (Hnil eq_refl)).
  - destruct (X5_Do_logger (W := cases.ok200) fixtures.cc (WithCancel true)
                fixtures.getTopic None) as (_ & Hdone & _).
    exact (proj2 (Hdone context_Canceled ltac:(discriminate) eq_refl)).
  - destruct (X5_Do_logger (W := cases.ok200) fixtures.cc Background
                fixtures.getTopic None) as (_ & _ & Hload).
    apply (Hload cases.unlogged); [reflexivity|discriminate|].
    vm_compute. reflexivity.
Defined.

(* ===================================================================== *)
(** * Further properties of [Load] and of [NewRequest] *)
(* ===================================================================== *)

(** The credentials loop copies every string under its key and adds
    nothing. *)
Lemma credentialsOf_lookup (m : gmap string Value)
    (credentials : gmap string string) :
  credentialsOf (VMap m) = Returns credentials ->
  forall k,
    credentials !! k
    = match m !! k with
      | Some (VString s) => Some s
      | _ => None
      end.
Proof.
  unfold credentialsOf. revert credentials.
  apply (map_fold_weak_ind
           (fun r m =>
              forall credentials, r = Returns credentials ->
              forall k,
                credentials !! k
                = match m !! k with
                  | Some (VString s) => Some s
                  | _ => None
                  end)); clear m.
  - intros credentials [= <-] k. now rewrite !lookup_empty.
  - intros i x m r Hfresh IH credentials Hr k.
    destruct r as [c0|p]; [|discriminate Hr].
    destruct x; try discriminate Hr. injection Hr as <-.
    destruct (decide (i = k)) as [->|Hne].
    + now rewrite !lookup_insert_eq.
    + rewrite !lookup_insert_ne by exact Hne. now apply IH.
Qed.

Lemma credentialsOf_string_map (v : Value) :
  spec.is_string_map v = true ->
  exists m credentials,
    v = VMap m /\ credentialsOf v = Returns credentials.
Proof.
  destruct v as [| | | |m|]; try discriminate. cbn [spec.is_string_map].
  intros Hm. apply bool_decide_eq_true in Hm.
  destruct (proj1 (credentialsOf_VMap m) Hm) as [credentials Hc]. eauto.
Qed.

(** X6: with a string under [url] and a map of strings under
    [credentials], the Discourse adapter's [Load] returns no error and
    makes no call; the adapter gets a client for that endpoint, with
    three retries, whose credentials are exactly the strings of the
    configuration under their keys; nothing else of the adapter
    changes. *)
Theorem X6_Load_builds_client (sys : discourse.System) (url : string)
    (m : gmap string Value) :
  index (discourse.config sys) "url" = VString url ->
  index (discourse.config sys) "credentials" = VMap m ->
  map_Forall (fun _ x => spec.isString x = true) m ->
  exists c,
    discourse.Load sys = ([], Returns (None, discourse.set_client sys c))
    /\ endpoint c = url
    /\ retryablehttp.RetryMax (httpClient c) = 3
    /\ forall k,
         credentials c !! k
         = match m !! k with
           | Some (VString s) => Some s
           | _ => None
           end.
Proof.
  intros Hurl Hcred Hm.
  destruct (proj1 (credentialsOf_VMap m) Hm) as [creds Hc].
  eexists. split.
  - unfold discourse.Load. rewrite Hurl, Hcred, Hc. reflexivity.
  - split; [reflexivity|]. split; [apply NewClient_RetryMax|].
    now apply credentialsOf_lookup.
Qed.

(** X6 at a configuration with a client id and a key. *)
Lemma X6_Load_builds_client_witness :
  exists c,
    discourse.Load cases.configured
    = ([], Returns (None, discourse.set_client cases.configured c))
    /\ endpoint c = "https://forum.example"
    /\ retryablehttp.RetryMax (httpClient c) = 3
    /\ credentials c !! "key" = Some "s3cret"
    /\ credentials c !! "password" = None.
Proof.
  destruct (X6_Load_builds_client cases.configured "https://forum.example"
              cases.someCredentials eq_refl eq_refl)
    as (c & Hload & Hend & Hretry & Hcred).
  - apply (proj1 (bool_decide_eq_true
                    (map_Forall (fun _ x => spec.isString x = true)
                       cases.someCredentials))).
    vm_compute. reflexivity.
  - exists c. split; [exact Hload|]. split; [exact Hend|].
    split; [exact Hretry|]. split; apply Hcred.
Defined.

(** X7: the Discourse adapter's [Load] returns (always nil) exactly when
    the configuration holds no [url], or holds a string under [url] and a
    map of strings under [credentials]; on every other configuration it
    panics on a type assertion.  It never makes a call. *)
Theorem X7_Load_outcomes (sys : discourse.System) :
  ((exists sys', discourse.Load sys = ([], Returns (None, sys')))
   <-> index (discourse.config sys) "url" = VNil
       \/ ((exists url, index (discourse.config sys) "url" = VString url)
           /\ spec.is_string_map
                (index (discourse.config sys) "credentials") = true))
  /\ (discourse.Load sys = ([], Panics InterfaceConversion)
      \/ exists sys', discourse.Load sys = ([], Returns (None, sys'))).
Proof.
  unfold discourse.Load.
  destruct (spec.is_string_map (index (discourse.config sys) "credentials"))
    eqn:Hsm.
  - destruct (credentialsOf_string_map _ Hsm) as (m & creds & _ & ->).
    destruct (index (discourse.config sys) "url") eqn:Hurl; cbn;
      (split; [split|]);
      try (intros [sys' [=]]); try (intros [[=]|[[u [=]] _]]);
      eauto.
  - rewrite (credentialsOf_not_string_map _ Hsm).
    destruct (index (discourse.config sys) "url") eqn:Hurl; cbn;
      (split; [split|]);
      try (intros [sys' [=]]); try (intros [[=]|[_ [=]]]);
      eauto.
Qed.

(** X8: loading again changes nothing: when [Load] returns, [Load] on
    the adapter it yields returns the same adapter. *)
Theorem X8_Load_again (sys sys' : discourse.System) (err : option Error) :
  discourse.Load sys = ([], Returns (err, sys')) ->
  discourse.Load sys' = ([], Returns (err, sys')).
Proof.
  unfold discourse.Load.
  destruct (index (discourse.config sys) "url") eqn:Hurl;
    try (intros [= <- <-]; now rewrite Hurl);
    destruct (credentialsOf (index (discourse.config sys) "credentials"))
      eqn:Hc; try discriminate.
  intros [= <- <-]. cbn [discourse.set_client discourse.config].
  now rewrite Hurl, Hc.
Qed.

(** X8 at a configuration with a client id and a key. *)
Lemma X8_Load_again_witness :
  exists sys',
    discourse.Load cases.configured = ([], Returns (None, sys'))
    /\ discourse.Load sys' = ([], Returns (None, sys')).
Proof.
  eexists. split; [vm_compute; reflexivity|].
  apply (X8_Load_again cases.configured). vm_compute. reflexivity.
Defined.

(** X9: an adapter without a [url] and without a client loads without
    an error and stays without a client; on it [ListPosts] and
    [LoadPost] panic on the nil client before any call, [Title] panics on
    its type assertion, and [CreatePost] panics as well unless the
    forum's ID is not a number, in which case it returns the conversion
    error. *)
Theorem X9_unconfigured_adapter `{Svc : discourse.Services}
    (sys : discourse.System) (p : post.Post) (clock : nat) :
  discourse.config sys !! "url" = None ->
  discourse.client sys = None ->
  discourse.Load sys = ([], Returns (None, sys))
  /\ discourse.ListPosts sys clock = ([], Panics NilDereference)
  /\ discourse.LoadPost sys p clock = ([], Panics NilDereference)
  /\ accessors.Title sys = Panics InterfaceConversion
  /\ match strconv.Atoi (forum.ID (post.Forum p)) with
     | inr _ =>
         discourse.CreatePost sys p clock = ([], Panics NilDereference)
     | inl e =>
         calls (discourse.CreatePost sys p clock) = []
         /\ value (discourse.CreatePost sys p clock)
            = Returns (Some (NumError e), p)
     end.
Proof.
  intros Hurl Hclient.
  split; [unfold discourse.Load; now rewrite (index_absent _ _ Hurl)|].
  unfold discourse.ListPosts, discourse.LoadPost, discourse.CreatePost,
    discourse.theClient, accessors.Title, obind.
  rewrite Hclient, (index_absent _ _ Hurl).
  repeat split. now destruct (strconv.Atoi _).
Qed.

(** X9 at the empty configuration. *)
Lemma X9_unconfigured_adapter_witness :
  discourse.ListPosts (Svc := fixtures.backend fixtures.oneParent)
    fixtures.unconfigured 0%nat = ([], Panics NilDereference)
  /\ accessors.Title fixtures.unconfigured = Panics InterfaceConversion.
Proof.
  destruct (X9_unconfigured_adapter
              (Svc := fixtures.backend fixtures.oneParent)
              fixtures.unconfigured fixtures.aPost 0%nat eq_refl eq_refl)
    as (_ & Hlist & _ & Htitle & _).
  split; [exact Hlist|exact Htitle].
Defined.

(** X10: a request [NewRequest] builds for the client [Load] made from a
    configuration carries the configuration's [client_id] and [key]
    credentials in the headers [User-Api-Client-Id] and [User-Api-Key],
    an empty value for one that is missing, and the fixed user agent
    [gobbs]; its method is the one asked for, and GET when none is
    asked for; without a body its body is empty. *)
Theorem X10_NewRequest_headers {B : Type} `{Lib : request.Library B}
    (sys sys' : discourse.System) (m : gmap string Value)
    (ctx : Context) (method location : string) (body : option B)
    (req : Request) :
  index (discourse.config sys) "url" <> VNil ->
  index (discourse.config sys) "credentials" = VMap m ->
  discourse.Load sys = ([], Returns (None, sys')) ->
  exists c,
    discourse.client sys' = Some c
    /\ (request.NewRequest B c ctx method location body = Returns (inr req) ->
        request.Header_Values req "User-Api-Client-Id"
        = [match m !! "client_id" with
           | Some (VString s) => s
           | _ => ""
           end]
        /\ request.Header_Values req "User-Api-Key"
           = [match m !! "key" with
              | Some (VString s) => s
              | _ => ""
              end]
        /\ request.Header_Values req "User-Agent" = ["gobbs"]
        /\ (method <> "" -> Request_Method req = method)
        /\ (method = "" -> Request_Method req = "GET")
        /\ (body = None -> Request_Body req = "")).
Proof.
  intros Hurl Hcred. unfold discourse.Load. rewrite Hcred.
  destruct (credentialsOf (VMap m)) as [creds|] eqn:Hc;
    [|now destruct (index (discourse.config sys) "url")].
  pose proof (credentialsOf_lookup m creds Hc) as Hlook.
  destruct (index (discourse.config sys) "url") as [|url| | | |];
    try discriminate; [now destruct Hurl|].
  intros [= <-]. eexists. split; [reflexivity|].
  unfold request.NewRequest. cbn [endpoint NewClient ClientConfig_Endpoint].
  destruct (request.resolve B url location) as [[e|parsedURL]|]; try discriminate.
  destruct (match body with
            | Some b => request.json_Encode B b
            | None => inr ""
            end) as [e|buffer] eqn:Hbuf; [discriminate|].
  destruct (request.http_NewRequest B method parsedURL); [discriminate|].
  intros [= <-]. unfold request.Header_Values. cbn.
  rewrite !Hlook.
  split; [now destruct (m !! "client_id") as [[]|]|].
  split; [now destruct (m !! "key") as [[]|]|].
  split; [reflexivity|].
  split; [intros Hm; now destruct method|].
  split; [now intros ->|].
  intros ->. now injection Hbuf as <-.
Qed.

(** X10 at a configuration with a client id and a key, and a request
    without a method and without a body. *)
Lemma X10_NewRequest_headers_witness :
  exists c req,
    discourse.client (discourse.set_client cases.configured c) = Some c
    /\ request.NewRequest CreatePostModel (Lib := cases.plainRequests)
         c Background "" "/latest.json" None = Returns (inr req)
    /\ Request_Method req = "GET"
    /\ request.Header_Values req "User-Api-Client-Id" = ["abc"]
    /\ request.Header_Values req "User-Api-Key" = ["s3cret"]
    /\ Request_URL req = "https://forum.example/latest.json"
    /\ Request_Body req = "".
Proof.
  set (c := NewClient
              {| ClientConfig_Endpoint := "https://forum.example";
                 ClientConfig_Credentials :=
                   {[ "client_id" := "abc"; "key" := "s3cret" ]};
                 ClientConfig_Logger := aLogger |}).
  set (req := {| Request_Method := "GET";
                 Request_URL := "https://forum.example/latest.json";
                 Request_Header :=
                   [ ("User-Agent", "gobbs");
                     ("Accept", "application/json");
                     ("Content-Type", "application/json");
                     ("User-Api-Client-Id", "abc");
                     ("User-Api-Key", "s3cret") ];
                 Request_Body := "" |}).
  destruct (X10_NewRequest_headers (Lib := cases.plainRequests)
              cases.configured (discourse.set_client cases.configured c)
              cases.someCredentials Background "" "/latest.json" None req)
    as (c' & Hc' & Hreq).
  - discriminate.
  - reflexivity.
  - vm_compute. reflexivity.
  - injection Hc' as <-.
    assert (Hbuilt : request.NewRequest CreatePostModel
                       (Lib := cases.plainRequests) c Background ""
                       "/latest.json" None = Returns (inr req))
      by (vm_compute; reflexivity).
    destruct (Hreq Hbuilt) as (Hid & Hkey & _ & _ & Hget & Hbody).
    exists c, req. split; [reflexivity|]. split; [exact Hbuilt|].
    split; [now apply Hget|].
    split; [exact Hid|]. split; [exact Hkey|]. split; [reflexivity|].
    now apply Hbody.
Defined.

(** X11: with a string under [url] that [lemmy.New] accepts and a map of
    strings under [credentials], the Lemmy adapter's [Load] stores the
    client and makes exactly one call, the login, under the background
    context, with the [username] and [password] of the configuration, an
    empty string for one that is missing; it returns what the login
    returns, and keeps the client when the login fails. *)
Theorem X11_lemmy_Load_logs_in `{L : lemmy.Library} (sys : lemmy.System)
    (url : string) (m : gmap string Value) (c : lemmy.LemmyClient) :
  index (lemmy.config sys) "url" = VString url ->
  lemmy.lemmy_New url = (Some c, None) ->
  index (lemmy.config sys) "credentials" = VMap m ->
  map_Forall (fun _ x => spec.isString x = true) m ->
  let username := match m !! "username" with
                  | Some (VString s) => s
                  | _ => ""
                  end in
  let password := match m !! "password" with
                  | Some (VString s) => s
                  | _ => ""
                  end in
  lemmy.Load sys
  = ([LemmyLogin Background username password],
     Returns (lemmy.lemmy_Login c Background username password,
              lemmy.set_client sys (Some c))).
Proof.
  intros Hurl Hnew Hcred Hm username password.
  destruct (proj1 (credentialsOf_VMap m) Hm) as [creds Hc].
  pose proof (credentialsOf_lookup m creds Hc) as Hlook.
  unfold lemmy.Load. rewrite Hurl, Hnew.
  cbn [lemmy.set_client lemmy.config]. rewrite Hcred, Hc.
  rewrite !Hlook. subst username password.
  replace (default "" match m !! "username" with
                      | Some (VString s) => Some s
                      | _ => None
                      end)
    with (match m !! "username" with
          | Some (VString s) => s
          | _ => ""
          end) by now destruct (m !! "username") as [[]|].
  replace (default "" match m !! "password" with
                      | Some (VString s) => Some s
                      | _ => None
                      end)
    with (match m !! "password" with
          | Some (VString s) => s
          | _ => ""
          end) by now destruct (m !! "password") as [[]|].
  reflexivity.
Qed.

(** X11 at a configuration with a user name and no password. *)
Lemma X11_lemmy_Load_logs_in_witness :
  lemmy.Load (L := fixtures.goLemmy) cases.lemmyConfigured
  = ([LemmyLogin Background "ann" ""],
     Returns (None,
              lemmy.set_client cases.lemmyConfigured
                (Some (lemmy.mkLemmyClient "https://lemmy.example")))).
Proof.
  apply (X11_lemmy_Load_logs_in (L := fixtures.goLemmy) cases.lemmyConfigured
           "https://lemmy.example" {[ "username" := VString "ann" ]}
           (lemmy.mkLemmyClient "https://lemmy.example")
           eq_refl eq_refl eq_refl).
  apply (proj1 (bool_decide_eq_true
                  (map_Forall (fun _ x => spec.isString x = true)
                     ({[ "username" := VString "ann" ]}
                        : gmap string Value)))).
  vm_compute. reflexivity.
Defined.

(** X12: when [lemmy.New] returns an error for the string under [url],
    the Lemmy adapter's [Load] returns that error without looking at the
    credentials and without a call: it does not panic even when the
    credentials are absent; the adapter's client is what [lemmy.New]
    returned. *)
Theorem X12_lemmy_Load_New_error `{L : lemmy.Library} (sys : lemmy.System)
    (url : string) (c : option lemmy.LemmyClient) (err : Error) :
  index (lemmy.config sys) "url" = VString url ->
  lemmy.lemmy_New url = (c, Some err) ->
  lemmy.Load sys = ([], Returns (Some err, lemmy.set_client sys c)).
Proof.
  intros Hurl Hnew. unfold lemmy.Load. now rewrite Hurl, Hnew.
Qed.

(** X12 at a configuration with a [url] and no credentials. *)
Lemma X12_lemmy_Load_New_error_witness :
  lemmy.Load (L := cases.badLemmy) fixtures.lemmyNoCredentials
  = ([], Returns (Some (errors_New "invalid URL"),
                  lemmy.set_client fixtures.lemmyNoCredentials None)).
Proof.
  exact (X12_lemmy_Load_New_error (L := cases.badLemmy)
           fixtures.lemmyNoCredentials "https://lemmy.example" None
           (errors_New "invalid URL") eq_refl eq_refl).
Defined.

(* ===================================================================== *)
(** * Further properties of [ListPosts] *)
(* ===================================================================== *)

(** The user-name loop stops at the first user with the ID. *)
Lemma userName_find `{Svc : discourse.Services} users userID :
  discourse.userName users userID
  = match find (fun u => UserModel_ID u =? userID) users with
    | Some u => UserModel_Name u
    | None => ""
    end.
Proof.
  induction users as [|u users IH]; cbn; [reflexivity|].
  now destruct (UserModel_ID u =? userID).
Qed.

Section ListPosts.
Context `{Svc : discourse.Services}.
Variable sys : discourse.System.
Variable cats : CategoriesResponse.
Variable users : list UserModel.

Lemma topicToPost_listed i poster0 posters n :
  TopicModel_Posters i = poster0 :: posters ->
  exists p,
    discourse.topicToPost sys cats users i n
    = ([], Returns
             (p, (n + views.reads (TopicModel_CreatedAt i)
                  + views.reads (TopicModel_LastPostedAt i))%nat))
    /\ views.listed sys cats users i p n.
Proof.
  intros Hp. eexists. split;
    [exact (topicToPost_run sys cats users i poster0 posters n Hp)|].
  unfold views.listed. cbn. repeat (split; [reflexivity|]).
  exists poster0. rewrite Hp. split; [reflexivity|].
  split; [reflexivity|]. apply userName_find.
Qed.

Lemma listing_length topics : forall n posts,
  views.listing sys cats users n topics posts ->
  length posts = length topics.
Proof.
  induction topics as [|i topics IH]; intros n [|p posts]; cbn;
    try tauto.
  intros [_ Hrest]. f_equal. now apply (IH _ _ Hrest).
Qed.

Lemma listing_Forall2 topics : forall n posts,
  views.listing sys cats users n topics posts ->
  Forall2 (fun i p => exists m, views.listed sys cats users i p m)
    topics posts.
Proof.
  induction topics as [|i topics IH]; intros n [|p posts]; cbn;
    try tauto; [constructor|].
  intros [Hl Hrest]. constructor; [now exists n|now apply (IH _ _ Hrest)].
Qed.

(** The loop over the topics: one post per topic, in order, when every
    topic has a poster; a panic, and no post, when one has none. *)
Lemma forEach_topicToPost_cases topics : forall n,
  (Forall (fun i => TopicModel_Posters i <> []) topics
   /\ exists posts n',
        forEach (discourse.topicToPost sys cats users) topics n
        = ([], Returns (posts, n'))
        /\ views.listing sys cats users n topics posts)
  \/ (Exists (fun i => TopicModel_Posters i = []) topics
      /\ forEach (discourse.topicToPost sys cats users) topics n
         = ([], Panics IndexOutOfRange)).
Proof.
  induction topics as [|i topics IH]; intros n.
  - left. split; [constructor|]. exists [], n. split; [reflexivity|exact I].
  - destruct (TopicModel_Posters i) as [|poster0 posters] eqn:Hp.
    + right. split; [now left|].
      cbn [forEach]. unfold obind. now rewrite topicToPost_panics.
    + destruct (topicToPost_listed i poster0 posters n Hp)
        as (p & Hto & Hl).
      destruct (IH (n + views.reads (TopicModel_CreatedAt i)
                    + views.reads (TopicModel_LastPostedAt i))%nat)
        as [[Hall (posts & n' & Hfe & Hf2)]|[Hex Hfe]].
      * left. split; [constructor; [now rewrite Hp|exact Hall]|].
        exists (p :: posts), n'. split; [|now split].
        cbn [forEach]. unfold obind. rewrite Hto. cbn [bind fst snd].
        rewrite Hfe. reflexivity.
      * right. split; [now right|].
        cbn [forEach]. unfold obind. rewrite Hto. cbn [bind fst snd].
        rewrite Hfe. reflexivity.
Qed.

(** [ListPosts] once both handlers have answered: the two calls, and the
    loop over the topics. *)
Lemma ListPosts_answered c items n :
  discourse.client sys = Some c ->
  discourse.Categories_List c Background = inr cats ->
  discourse.Topics_ListLatest c Background = inr items ->
  users = Users items ->
  discourse.ListPosts sys n
  = match forEach (discourse.topicToPost sys cats users)
            (Topics (TopicList items)) n with
    | (cs, Returns (posts, n')) =>
        (([CategoriesList Background; TopicsListLatest Background]
          ++ cs)%list,
         Returns ((posts, None), n'))
    | (cs, Panics pk) =>
        (([CategoriesList Background; TopicsListLatest Background]
          ++ cs)%list,
         Panics pk)
    end.
Proof.
  intros Hc Hcats Hitems ->.
  unfold discourse.ListPosts, discourse.theClient, obind.
  rewrite Hc. cbn. rewrite Hcats. cbn. rewrite Hitems. cbn.
  destruct (forEach _ _ n) as [cs [[posts n']|pk]]; cbn;
    [now rewrite app_nil_r|reflexivity].
Qed.

End ListPosts.

(** X13: when both handlers succeed and every topic of the listing has
    a poster, [ListPosts] calls the category handler and then the
    listing handler, and returns, without an error, one post per topic in
    the order of the listing.  Each post has the topic's ID and category
    ID in decimal, its title, the name of the first user of the directory
    whose ID is the first poster's (empty when there is none), the forum
    name the category loop resolves, and for each timestamp the parsed
    value or, when it does not parse, the reading of the clock at that
    moment: each timestamp that does not parse costs one reading. *)
Theorem X13_ListPosts_lists `{Svc : discourse.Services}
    (sys : discourse.System) (c : Client) (cats : CategoriesResponse)
    (items : LatestTopicsResponse) (clock : nat) :
  discourse.client sys = Some c ->
  discourse.Categories_List c Background = inr cats ->
  discourse.Topics_ListLatest c Background = inr items ->
  Forall (fun i => TopicModel_Posters i <> []) (Topics (TopicList items)) ->
  exists posts,
    calls (discourse.ListPosts sys clock)
    = [CategoriesList Background; TopicsListLatest Background]
    /\ value (discourse.ListPosts sys clock) = Returns (posts, None)
    /\ views.listing sys cats (Users items) clock
         (Topics (TopicList items)) posts
    /\ length posts = length (Topics (TopicList items)).
Proof.
  intros Hc Hcats Hitems Hall.
  rewrite (ListPosts_answered sys cats (Users items) c items clock
             Hc Hcats Hitems eq_refl).
  destruct (forEach_topicToPost_cases sys cats (Users items)
              (Topics (TopicList items)) clock)
    as [[_ (posts & n' & -> & Hf2)]|[Hex _]].
  - exists posts. split; [reflexivity|]. split; [reflexivity|].
    split; [exact Hf2|]. eapply listing_length. exact Hf2.
  - exfalso. apply Exists_exists in Hex as (i & Hin & Hnil).
    rewrite Forall_forall in Hall. now apply (Hall i).
Qed.

(** X13 at a listing with one topic, whose last-posted timestamp does
    not parse, and a directory with two users of the poster's ID, when
    the clock has been read five times. *)
Lemma X13_ListPosts_lists_witness :
  exists p,
    value (discourse.ListPosts
             (Svc := cases.serving (inr cases.someCategories)
                       (inr (cases.latestOf [fixtures.topic]))
                       (inl cases.down) (inl cases.down))
             fixtures.loaded 5%nat)
    = Returns ([p], None)
    /\ post.ID p = "100"
    /\ author.Name (post.Author p) = "ann"
    /\ forum.Name (post.Forum p) = "A1"
    /\ post.CreatedAt p = 1600000000
    /\ post.LastCommentedAt p = 1700000005.
Proof.
  destruct (X13_ListPosts_lists
              (Svc := cases.serving (inr cases.someCategories)
                        (inr (cases.latestOf [fixtures.topic]))
                        (inl cases.down) (inl cases.down))
              fixtures.loaded (NewClient fixtures.cc) cases.someCategories
              (cases.latestOf [fixtures.topic]) 5%nat
              eq_refl eq_refl eq_refl)
    as (posts & _ & Hlist & Hl & Hlen).
  - repeat constructor. discriminate.
  - destruct posts as [|p [|q posts]]; try discriminate Hlen.
    destruct Hl as [Hp _]. exists p. split; [exact Hlist|].
    destruct Hp as (Hid & _ & _ & _ & _ & _ & _ & Hcr & Hlc & _ & _
                    & Hfn & poster0 & Hhead & _ & Han).
    injection Hhead as <-.
    split; [exact Hid|]. split; [exact Han|]. split; [exact Hfn|].
    split; [exact Hcr|exact Hlc].
Defined.

(** X14: when both handlers succeed, [ListPosts] panics on an index out
    of range exactly when some topic of the listing has no posters; one
    such topic costs the whole listing. *)
Theorem X14_ListPosts_panics `{Svc : discourse.Services}
    (sys : discourse.System) (c : Client) (cats : CategoriesResponse)
    (items : LatestTopicsResponse) (clock : nat) :
  discourse.client sys = Some c ->
  discourse.Categories_List c Background = inr cats ->
  discourse.Topics_ListLatest c Background = inr items ->
  (value (discourse.ListPosts sys clock) = Panics IndexOutOfRange
   <-> Exists (fun i => TopicModel_Posters i = []) (Topics (TopicList items))).
Proof.
  intros Hc Hcats Hitems.
  rewrite (ListPosts_answered sys cats (Users items) c items clock
             Hc Hcats Hitems eq_refl).
  destruct (forEach_topicToPost_cases sys cats (Users items)
              (Topics (TopicList items)) clock)
    as [[Hall (posts & n' & -> & _)]|[Hex ->]]; cbn.
  - split; [discriminate|]. intros Hex. exfalso.
    apply Exists_exists in Hex as (i & Hin & Hnil).
    rewrite Forall_forall in Hall. now apply (Hall i).
  - split; [now intros _|reflexivity].
Qed.

(** X14 at a listing whose second topic has no posters. *)
Lemma X14_ListPosts_panics_witness :
  value
    (discourse.ListPosts
       (Svc := cases.serving (inr cases.someCategories)
                 (inr (cases.latestOf
                         [fixtures.topic; cases.topicWithoutPosters]))
                 (inl cases.down) (inl cases.down))
       fixtures.loaded 0%nat)
  = Panics IndexOutOfRange.
Proof.
  apply (X14_ListPosts_panics
           (Svc := cases.serving (inr cases.someCategories)
                     (inr (cases.latestOf
                             [fixtures.topic; cases.topicWithoutPosters]))
                     (inl cases.down) (inl cases.down))
           fixtures.loaded (NewClient fixtures.cc) cases.someCategories
           (cases.latestOf [fixtures.topic; cases.topicWithoutPosters])
           0%nat eq_refl eq_refl eq_refl).
  right. left. reflexivity.
Defined.

(** X15: an error of the category handler ends [ListPosts] at once: the
    listing handler is not called, and the error is returned with no
    posts.  An error of the listing handler, after the categories were
    fetched, is returned with no posts as well.  The clock is not
    read. *)
Theorem X15_ListPosts_errors `{Svc : discourse.Services}
    (sys : discourse.System) (c : Client) (err : Error) (clock : nat) :
  discourse.client sys = Some c ->
  (discourse.Categories_List c Background = inl err ->
   discourse.ListPosts sys clock
   = ([CategoriesList Background], Returns (([], Some err), clock)))
  /\ (forall cats,
        discourse.Categories_List c Background = inr cats ->
        discourse.Topics_ListLatest c Background = inl err ->
        discourse.ListPosts sys clock
        = ([CategoriesList Background; TopicsListLatest Background],
           Returns (([], Some err), clock))).
Proof.
  intros Hc. unfold discourse.ListPosts, discourse.theClient, obind.
  rewrite Hc. cbn. split.
  - now intros ->.
  - intros cats -> ->. reflexivity.
Qed.

(** X15 at a backend whose category handler fails. *)
Lemma X15_ListPosts_errors_witness :
  discourse.ListPosts
    (Svc := cases.serving (inl cases.down)
              (inr (cases.latestOf [fixtures.topic]))
              (inl cases.down) (inl cases.down))
    fixtures.loaded 0%nat
  = ([CategoriesList Background],
     Returns (([], Some cases.down), 0%nat)).
Proof.
  refine (proj1 (X15_ListPosts_errors
                   (Svc := cases.serving (inl cases.down)
                             (inr (cases.latestOf [fixtures.topic]))
                             (inl cases.down) (inl cases.down))
                   fixtures.loaded (NewClient fixtures.cc) cases.down
                   0%nat eq_refl) eq_refl).
Defined.

(** The category loop yields the variable it was given, when no category
    and no subcategory has the ID, or the name of a category or
    subcategory with the ID. *)
Lemma categoryLoop_sound categoryID cats : forall acc,
  (discourse.categoryLoop cats categoryID acc = acc
   /\ find (spec.has_ID categoryID) cats = None
   /\ find (spec.has_ID categoryID)
        (flat_map CategoryModel_SubcategoryList cats) = None)
  \/ exists c,
       views.node_with_ID cats categoryID c
       /\ discourse.categoryLoop cats categoryID acc = CategoryModel_Name c.
Proof.
  induction cats as [|cat cats IH]; intros acc; cbn.
  - left. repeat split.
  - change (spec.has_ID categoryID cat)
      with (CategoryModel_ID cat =? categoryID).
    destruct (CategoryModel_ID cat =? categoryID) eqn:Hcat.
    + right. exists cat. split; [|reflexivity].
      split; [left; now left|now apply Z.eqb_eq].
    + rewrite subcategoryLoop_find, find_app_has_ID.
      destruct (find (spec.has_ID categoryID)
                  (CategoryModel_SubcategoryList cat)) as [s|] eqn:Hs.
      * right.
        destruct (IH (CategoryModel_Name s))
          as [(-> & _ & _)|(c & [Hin Hid] & ->)].
        -- exists s. apply find_some in Hs as [Hin Hid].
           split; [|reflexivity]. split; [|now apply Z.eqb_eq].
           right. apply in_or_app. now left.
        -- exists c. split; [|reflexivity]. split; [|exact Hid].
           destruct Hin as [Hin|Hin]; [left; now right|].
           right. apply in_or_app. now right.
      * destruct (IH acc) as [(-> & Hd & Hsub)|(c & [Hin Hid] & ->)].
        -- left. split; [reflexivity|]. split; [exact Hd|exact Hsub].
        -- right. exists c. split; [|reflexivity]. split; [|exact Hid].
           destruct Hin as [Hin|Hin]; [left; now right|].
           right. apply in_or_app. now right.
Qed.

(** X16: the forum name [ListPosts] resolves for a category ID is never
    the name of a category of another ID: when some category or
    subcategory of the tree has the ID, it is the name of one that has;
    when none has, it is empty. *)
Theorem X16_forumName_sound (cats : list CategoryModel) (categoryID : Z) :
  ((exists c, views.node_with_ID cats categoryID c) ->
   exists c,
     views.node_with_ID cats categoryID c
     /\ discourse.forumName {| CategoryList := {| Categories := cats |} |}
          categoryID = CategoryModel_Name c)
  /\ ((forall c, ~ views.node_with_ID cats categoryID c) ->
      discourse.forumName {| CategoryList := {| Categories := cats |} |}
        categoryID = "").
Proof.
  unfold discourse.forumName. cbn.
  destruct (categoryLoop_sound categoryID cats "")
    as [(Hacc & Hd & Hs)|(c & Hc & Hname)].
  - split; [|now intros _].
    intros (c & [Hin|Hin] & Hid); exfalso.
    + eapply find_none in Hd; [|exact Hin].
      unfold spec.has_ID in Hd. apply Z.eqb_neq in Hd. contradiction.
    + eapply find_none in Hs; [|exact Hin].
      unfold spec.has_ID in Hs. apply Z.eqb_neq in Hs. contradiction.
  - split; [intros _; now exists c|].
    intros Hnone. now destruct (Hnone c).
Qed.

(** X16 at the tree with two parents of a subcategory 11. *)
Lemma X16_forumName_sound_witness :
  exists c,
    views.node_with_ID fixtures.twoParents 11 c
    /\ discourse.forumName
         {| CategoryList := {| Categories := fixtures.twoParents |} |} 11
       = CategoryModel_Name c.
Proof.
  apply (proj1 (X16_forumName_sound fixtures.twoParents 11)).
  exists (mkCategoryModel 11 "A1" []). split; [|reflexivity].
  right. left. reflexivity.
Defined.

(** X17: on a category tree in which no two subcategories share an ID,
    every post [ListPosts] lists has the forum name of the
    specification's order: the first direct category with the topic's
    category ID, else the first subcategory with it, else empty. *)
Theorem X17_ListPosts_forum_names `{Svc : discourse.Services}
    (sys : discourse.System) (c : Client) (cats : CategoriesResponse)
    (items : LatestTopicsResponse) (posts : list post.Post)
    (clock : nat) :
  discourse.client sys = Some c ->
  discourse.Categories_List c Background = inr cats ->
  discourse.Topics_ListLatest c Background = inr items ->
  NoDup (map CategoryModel_ID
           (flat_map CategoryModel_SubcategoryList
              (Categories (CategoryList cats)))) ->
  value (discourse.ListPosts sys clock) = Returns (posts, None) ->
  Forall2
    (fun i p =>
       forum.Name (post.Forum p)
       = spec.forumName (Categories (CategoryList cats))
           (TopicModel_CategoryID i))
    (Topics (TopicList items)) posts.
Proof.
  intros Hc Hcats Hitems Hnd.
  rewrite (ListPosts_answered sys cats (Users items) c items clock
             Hc Hcats Hitems eq_refl).
  destruct (forEach_topicToPost_cases sys cats (Users items)
              (Topics (TopicList items)) clock)
    as [[_ (ps & n' & -> & Hf2)]|[_ ->]]; cbn; [|discriminate].
  intros [= <-]. apply listing_Forall2 in Hf2.
  eapply Forall2_impl; [exact Hf2|].
  intros i p [m Hl]. cbn.
  destruct Hl as (_ & _ & _ & _ & _ & _ & _ & _ & _ & _ & _ & -> & _).
  destruct cats as [[categories]]. cbn in *.
  now apply forumName_unique_ids.
Qed.

(** X17 at the tree of the specification's example. *)
Lemma X17_ListPosts_forum_names_witness :
  exists p,
    Forall2
      (fun i p =>
         forum.Name (post.Forum p)
         = spec.forumName fixtures.oneParent (TopicModel_CategoryID i))
      [fixtures.topic] [p]
    /\ spec.forumName fixtures.oneParent 11 = "A1".
Proof.
  eexists. split; [|reflexivity].
  apply (X17_ListPosts_forum_names
           (Svc := cases.serving (inr cases.someCategories)
                     (inr (cases.latestOf [fixtures.topic]))
                     (inl cases.down) (inl cases.down))
           fixtures.loaded (NewClient fixtures.cc) cases.someCategories
           (cases.latestOf [fixtures.topic]) _ 0%nat
           eq_refl eq_refl eq_refl).
  - repeat constructor. intros Hin. inversion Hin.
  - reflexivity.
Defined.

(* ===================================================================== *)
(** * Further properties of [LoadPost] *)
(* ===================================================================== *)

Section LoadPostMore.
Context `{Svc : discourse.Services}.
Variable sys : discourse.System.

(** The replies made of a stream have the IDs and the bodies of its
    items, whenever they are made. *)
Lemma replied_IDs p items : forall n replies,
  views.replied sys p n items replies ->
  map reply.ID replies
  = map (fun i => strconv.Itoa (PostModel_ID i)) items
  /\ map reply.Body replies = map views.converted items.
Proof.
  induction items as [|i items IH]; intros n [|r replies]; cbn;
    try tauto.
  intros [(Hid & _ & Hbody & _) Hrest].
  destruct (IH _ _ Hrest) as [-> ->]. now rewrite Hid, Hbody.
Qed.

Lemma LoadPost_shown c p item n :
  discourse.client sys = Some c ->
  discourse.Topics_Show c Background (post.ID p) = inr item ->
  discourse.LoadPost sys p n
  = match discourse.postStreamLoop sys 0 (Posts (PostStream item)) p n with
    | (cs, Returns (p', n')) =>
        ((TopicsShow Background (post.ID p) :: cs)%list,
         Returns ((None, p'), n'))
    | (cs, Panics pk) =>
        ((TopicsShow Background (post.ID p) :: cs)%list, Panics pk)
    end.
Proof.
  intros Hc Hshow. unfold discourse.LoadPost, discourse.theClient, obind.
  rewrite Hc. cbn. rewrite Hshow. cbn.
  destruct (discourse.postStreamLoop _ _ _ _ _) as [cs [[p' n']|pk]]; cbn;
    [now rewrite app_nil_r|reflexivity].
Qed.

(** [LoadPost] on any stream. *)
Lemma LoadPost_any c p item n :
  discourse.client sys = Some c ->
  discourse.Topics_Show c Background (post.ID p) = inr item ->
  exists p' added n',
    discourse.LoadPost sys p n
    = ([TopicsShow Background (post.ID p)], Returns ((None, p'), n'))
    /\ views.same_header p p'
    /\ post.Replies p' = (post.Replies p ++ added)%list
    /\ views.replied sys p n (tail (Posts (PostStream item))) added.
Proof.
  intros Hc Hshow. rewrite (LoadPost_shown c p item n Hc Hshow).
  destruct (Posts (PostStream item)) as [|first rest].
  - exists p, [], n. split; [reflexivity|].
    split; [unfold views.same_header; tauto|].
    split; [now rewrite app_nil_r|exact I].
  - destruct (postStreamLoop_cons sys first rest p n)
      as (added & n' & -> & Hrep).
    eexists _, added, n'. split; [reflexivity|].
    split; [unfold views.same_header; cbn; tauto|].
    split; [reflexivity|exact Hrep].
Qed.

End LoadPostMore.

(** X18: when the backend returns an empty post stream, [LoadPost]
    returns no error and leaves the post as it was, body and replies
    included; the clock is not read. *)
Theorem X18_LoadPost_empty_stream `{Svc : discourse.Services}
    (sys : discourse.System) (c : Client) (p : post.Post)
    (item : SingleTopicResponse) (clock : nat) :
  discourse.client sys = Some c ->
  discourse.Topics_Show c Background (post.ID p) = inr item ->
  Posts (PostStream item) = [] ->
  discourse.LoadPost sys p clock
  = ([TopicsShow Background (post.ID p)], Returns ((None, p), clock)).
Proof.
  intros Hc Hshow Hposts.
  rewrite (LoadPost_shown sys c p item clock Hc Hshow), Hposts.
  reflexivity.
Qed.

(** X18 at a backend that returns an empty stream. *)
Lemma X18_LoadPost_empty_stream_witness :
  discourse.LoadPost
    (Svc := cases.serving (inl cases.down) (inl cases.down)
              (inr (cases.threadOf [])) (inl cases.down))
    fixtures.loaded fixtures.aPost 0%nat
  = ([TopicsShow Background "1"], Returns ((None, fixtures.aPost), 0%nat)).
Proof.
  exact (X18_LoadPost_empty_stream
           (Svc := cases.serving (inl cases.down) (inl cases.down)
                     (inr (cases.threadOf [])) (inl cases.down))
           fixtures.loaded (NewClient fixtures.cc) fixtures.aPost
           (cases.threadOf []) 0%nat eq_refl eq_refl eq_refl).
Defined.

(** X19: whatever stream the backend returns, [LoadPost] makes one call,
    for the post's ID, and changes nothing of the post but its body and
    its replies.  The replies the post had stay, in front; one reply is
    added per item after the first, with that item's ID in decimal, its
    converted content and its timestamp (the reading of the clock at
    that moment when it does not parse), and with the post's ID as
    [InReplyTo] and the adapter's ID as [SysIDX]. *)
Theorem X19_LoadPost_keeps_header `{Svc : discourse.Services}
    (sys : discourse.System) (c : Client) (p : post.Post)
    (item : SingleTopicResponse) (clock : nat) :
  discourse.client sys = Some c ->
  discourse.Topics_Show c Background (post.ID p) = inr item ->
  exists p' added,
    calls (discourse.LoadPost sys p clock)
    = [TopicsShow Background (post.ID p)]
    /\ value (discourse.LoadPost sys p clock) = Returns (None, p')
    /\ views.same_header p p'
    /\ post.Replies p' = (post.Replies p ++ added)%list
    /\ views.replied sys p clock (tail (Posts (PostStream item))) added
    /\ length added = length (tail (Posts (PostStream item))).
Proof.
  intros Hc Hshow.
  destruct (LoadPost_any sys c p item clock Hc Hshow)
    as (p' & added & n' & -> & Hhead & Hreplies & Hrep).
  exists p', added. split; [reflexivity|]. split; [reflexivity|].
  split; [exact Hhead|]. split; [exact Hreplies|].
  split; [exact Hrep|]. eapply replied_length. exact Hrep.
Qed.

(** X19 at the thread of the specification's example. *)
Lemma X19_LoadPost_keeps_header_witness :
  exists p' added,
    value (discourse.LoadPost (Svc := fixtures.backend fixtures.oneParent)
             fixtures.loaded fixtures.aPost 0%nat)
    = Returns (None, p')
    /\ post.Subject p' = "Hello"
    /\ post.Forum p' = forum.mkForum "11" "A1"
    /\ post.Replies p' = added
    /\ length added = 1%nat.
Proof.
  destruct (X19_LoadPost_keeps_header
              (Svc := fixtures.backend fixtures.oneParent)
              fixtures.loaded (NewClient fixtures.cc) fixtures.aPost
              {| PostStream := {| Posts := fixtures.thread |} |} 0%nat
              eq_refl eq_refl)
    as (p' & added & _ & Hload & Hhead & Hreplies & _ & Hlen).
  exists p', added. split; [exact Hload|].
  destruct Hhead as (_ & Hsubj & _ & _ & _ & _ & _ & _ & Hforum & _).
  split; [exact Hsubj|]. split; [exact Hforum|]. split; [exact Hreplies|].
  exact Hlen.
Defined.

(** X20: [LoadPost] does not replace the replies it loaded before: on a
    backend that returns the same stream, loading a post a second time,
    at whatever later moment, appends the replies of the stream once
    more, so that each appears twice, with the same ID and the same
    body; the time stamps of those whose timestamp does not parse are
    the readings of the clock at each loading.  The body is set to the
    same text. *)
Theorem X20_LoadPost_twice `{Svc : discourse.Services}
    (sys : discourse.System) (c : Client) (p : post.Post)
    (item : SingleTopicResponse) (first : PostModel) (rest : list PostModel)
    (clock clock' : nat) :
  discourse.client sys = Some c ->
  discourse.Topics_Show c Background (post.ID p) = inr item ->
  Posts (PostStream item) = first :: rest ->
  exists p' p'' added added',
    value (discourse.LoadPost sys p clock) = Returns (None, p')
    /\ value (discourse.LoadPost sys p' clock') = Returns (None, p'')
    /\ post.Body p'' = post.Body p'
    /\ post.Replies p' = (post.Replies p ++ added)%list
    /\ post.Replies p'' = (post.Replies p ++ added ++ added')%list
    /\ views.replied sys p clock rest added
    /\ views.replied sys p clock' rest added'
    /\ map reply.ID added' = map reply.ID added
    /\ map reply.Body added' = map reply.Body added
    /\ length added = length rest
    /\ length added' = length rest.
Proof.
  intros Hc Hshow Hposts.
  destruct (LoadPost_stream sys c p item first rest clock Hc Hshow Hposts)
    as (added & n1 & H1 & Hrep).
  set (p' := post.set_Replies (post.set_Body p (discourse.cookedMd first))
               (post.Replies p ++ added)) in *.
  destruct (LoadPost_stream sys c p' item first rest clock' Hc Hshow Hposts)
    as (added' & n2 & H2 & Hrep').
  apply (replied_same_ID sys p' p) in Hrep'; [|reflexivity].
  destruct (replied_IDs sys p rest clock added Hrep) as [Hids Hbodies].
  destruct (replied_IDs sys p rest clock' added' Hrep') as [Hids' Hbodies'].
  exists p'. eexists. exists added, added'.
  split; [unfold value; rewrite H1; reflexivity|].
  split; [unfold value; rewrite H2; reflexivity|].
  cbn. split; [reflexivity|]. split; [reflexivity|].
  split; [now rewrite <- app_assoc|].
  split; [exact Hrep|]. split; [exact Hrep'|].
  split; [now rewrite Hids, Hids'|]. split; [now rewrite Hbodies, Hbodies'|].
  split; eapply replied_length; eassumption.
Qed.

(** X20 at the thread of the specification's example, followed by a post
    whose timestamp does not parse; the post is loaded when the clock
    has been read no times and again when it has been read seven
    times. *)
Lemma X20_LoadPost_twice_witness :
  exists p' p'',
    value (discourse.LoadPost
             (Svc := cases.converting cases.exampleThread)
             fixtures.loaded fixtures.aPost 0%nat) = Returns (None, p')
    /\ value (discourse.LoadPost
                (Svc := cases.converting cases.exampleThread)
                fixtures.loaded p' 7%nat) = Returns (None, p'')
    /\ map reply.ID (post.Replies p'') = ["2"; "3"; "2"; "3"]
    /\ map reply.CreatedAt (post.Replies p'')
       = [1600000100; 1700000000; 1600000100; 1700000007].
Proof.
  destruct (X20_LoadPost_twice
              (Svc := cases.converting cases.exampleThread)
              fixtures.loaded (NewClient fixtures.cc) fixtures.aPost
              {| PostStream := {| Posts := cases.exampleThread |} |}
              (mkPostModel 1 "ann" 7 "<p>root</p>" "1600000000")
              [mkPostModel 2 "bob" 8 "<p>reply</p>" "1600000100";
               mkPostModel 3 "cyd" 9 "plain" "just now"]
              0%nat 7%nat eq_refl eq_refl eq_refl)
    as (p' & p'' & added & added' & H1 & H2 & _).
  exists p', p''. split; [exact H1|]. split; [exact H2|].
  cbv in H1. injection H1 as <-.
  cbv in H2. injection H2 as <-.
  split; reflexivity.
Defined.

(* ===================================================================== *)
(** * Further properties of the create operations and of [strconv] *)
(* ===================================================================== *)

(** X21: a malformed number fails a create operation before anything is
    sent: [CreatePost] on a forum ID that is not an integer, and
    [CreateReply] on an [ID] or a non-empty [InReplyTo] that is not one,
    return the conversion error, make no call, do not read the clock and
    leave the object as it was.  [CreatePost] does so even on an adapter
    without a client. *)
Theorem X21_create_validates_first `{Svc : discourse.Services}
    (sys : discourse.System) (l : SugaredLogger) (p : post.Post)
    (r : reply.Reply) (e : strconv.NumError) (clock : nat) :
  discourse.logger sys = Some l ->
  (strconv.Atoi (forum.ID (post.Forum p)) = inl e ->
   discourse.CreatePost sys p clock
   = ([], Returns ((Some (NumError e), p), clock)))
  /\ (strconv.Atoi (reply.ID r) = inl e ->
      discourse.CreateReply sys r clock
      = ([], Returns ((Some (NumError e), r), clock)))
  /\ (forall id,
        strconv.Atoi (reply.ID r) = inr id ->
        reply.InReplyTo r <> "" ->
        strconv.Atoi (reply.InReplyTo r) = inl e ->
        discourse.CreateReply sys r clock
        = ([], Returns ((Some (NumError e), r), clock))).
Proof.
  intros Hl. split; [|split].
  - intros He. unfold discourse.CreatePost. now rewrite He.
  - intros He. unfold discourse.CreateReply. now rewrite Hl, He.
  - intros id Hid Hne He. unfold discourse.CreateReply.
    rewrite Hl, Hid. unfold discourse.parseInReplyTo.
    destruct (reply.InReplyTo r) eqn:Hin; [now destruct Hne|].
    now rewrite He.
Qed.

(** X21 at a reply to the comment [five] and at a post in the forum
    [general], on an adapter without a client. *)
Lemma X21_create_validates_first_witness :
  discourse.CreateReply (Svc := fixtures.backend fixtures.oneParent)
    fixtures.unconfigured (fixtures.aReply "7" "five") 0%nat
  = ([], Returns ((Some (NumError strconv.ErrSyntax),
                   fixtures.aReply "7" "five"), 0%nat))
  /\ discourse.CreatePost (Svc := fixtures.backend fixtures.oneParent)
       fixtures.unconfigured
       (post.mkPost "" "Hello" "text" "post" false false 0 0
          (author.mkAuthor "7" "ann") (forum.mkForum "general" "General")
          [] 0) 0%nat
     = ([], Returns ((Some (NumError strconv.ErrSyntax),
                      post.mkPost "" "Hello" "text" "post" false false 0 0
                        (author.mkAuthor "7" "ann")
                        (forum.mkForum "general" "General") [] 0), 0%nat)).
Proof.
  destruct (X21_create_validates_first
              (Svc := fixtures.backend fixtures.oneParent)
              fixtures.unconfigured zapLogger
              (post.mkPost "" "Hello" "text" "post" false false 0 0
                 (author.mkAuthor "7" "ann")
                 (forum.mkForum "general" "General") [] 0)
              (fixtures.aReply "7" "five") strconv.ErrSyntax 0%nat eq_refl)
    as (Hpost & _ & Hreply).
  split.
  - apply (Hreply 7 eq_refl); [discriminate|reflexivity].
  - exact (Hpost eq_refl).
Defined.

(** X22: on an adapter with a client and a post whose forum ID parses
    as an integer, [CreatePost] makes one call of the create handler,
    with the post's subject as title, its body as raw text and the parsed
    forum ID as category, neither a topic nor a reply-to number, and the
    reading of the clock as time stamp.  When the backend returns a post,
    [CreatePost] returns no error and the post with the backend's
    identifier, in decimal, as its ID and everything else as it was; when
    the backend returns an error, [CreatePost] returns that error and the
    post as it was. *)
Theorem X22_CreatePost `{Svc : discourse.Services}
    (sys : discourse.System) (c : Client) (p : post.Post) (categoryID : Z)
    (clock : nat) :
  discourse.client sys = Some c ->
  strconv.Atoi (forum.ID (post.Forum p)) = inr categoryID ->
  exists ap,
    calls (discourse.CreatePost sys p clock) = [PostsCreate Background ap]
    /\ Title ap = post.Subject p
    /\ Raw ap = post.Body p
    /\ Category ap = categoryID
    /\ TopicID ap = 0
    /\ ReplyToPostNumber ap = 0
    /\ CreatedAt ap
       = discourse.time_Format_RFC3339Nano (discourse.time_Now clock)
    /\ value (discourse.CreatePost sys p clock)
       = Returns
           match discourse.Posts_Create c Background ap with
           | inr cp =>
               (None, post.set_ID p (strconv.Itoa (PostModel_ID cp)))
           | inl err => (Some err, p)
           end.
Proof.
  intros Hc Hid. unfold discourse.CreatePost, discourse.theClient, obind.
  rewrite Hid, Hc. cbn. eexists. split.
  - destruct (discourse.Posts_Create c Background _); reflexivity.
  - cbn. repeat (split; [reflexivity|]). unfold value. cbn.
    destruct (discourse.Posts_Create c Background _); reflexivity.
Qed.

(** X22 at a post in the forum 11, on a backend that assigns the
    identifier 42. *)
Lemma X22_CreatePost_witness :
  exists ap,
    calls (discourse.CreatePost (Svc := fixtures.backend fixtures.oneParent)
             fixtures.loaded fixtures.aPost 0%nat)
    = [PostsCreate Background ap]
    /\ Category ap = 11
    /\ value (discourse.CreatePost
                (Svc := fixtures.backend fixtures.oneParent)
                fixtures.loaded fixtures.aPost 0%nat)
       = Returns (None, post.set_ID fixtures.aPost "42").
Proof.
  destruct (X22_CreatePost (Svc := fixtures.backend fixtures.oneParent)
              fixtures.loaded (NewClient fixtures.cc) fixtures.aPost 11
              0%nat eq_refl eq_refl)
    as (ap & Hcalls & _ & _ & Hcat & _ & _ & _ & Hres).
  exists ap. split; [exact Hcalls|]. split; [exact Hcat|].
  rewrite Hres. reflexivity.
Defined.

(** *** [Atoi] after [Itoa] *)

Lemma digit_of_digit :
  strconv.digit_of "0" = Some 0 /\ strconv.digit_of "1" = Some 1
  /\ strconv.digit_of "2" = Some 2 /\ strconv.digit_of "3" = Some 3
  /\ strconv.digit_of "4" = Some 4 /\ strconv.digit_of "5" = Some 5
  /\ strconv.digit_of "6" = Some 6 /\ strconv.digit_of "7" = Some 7
  /\ strconv.digit_of "8" = Some 8 /\ strconv.digit_of "9" = Some 9.
Proof. repeat split. Qed.

Lemma maxUint64_value : strconv.maxUint64 = 18446744073709551615.
Proof. reflexivity. Qed.

Lemma cutoff_value : strconv.cutoff = 1844674407370955162.
Proof. reflexivity. Qed.

(** A numeral read after a number is at least that number. *)
Lemma value_ge (d : Decimal.uint) : forall acc,
  0 <= acc -> acc <= decimal.value d acc.
Proof.
  induction d as [|d IH|d IH|d IH|d IH|d IH|d IH|d IH|d IH|d IH|d IH];
    intros acc Hacc; cbn [decimal.value]; [lia|..];
    match goal with
    | |- _ <= decimal.value d ?a => specialize (IH a ltac:(lia)); lia
    end.
Qed.

(** One round of the digit loop that stays within 64 bits. *)
Lemma digits_step c k s acc :
  strconv.digit_of c = Some k ->
  0 <= k ->
  0 <= acc ->
  acc * 10 + k <= strconv.maxUint64 ->
  strconv.digits (String c s) acc = strconv.digits s (acc * 10 + k).
Proof.
  intros Hc Hk Hacc Hmax. cbn [strconv.digits]. rewrite Hc.
  rewrite maxUint64_value in *. rewrite cutoff_value.
  rewrite (proj2 (Z.leb_gt _ _)) by lia. cbn zeta.
  now rewrite (proj2 (Z.ltb_ge _ _)) by lia.
Qed.

(** The digit loop of [Atoi] reads a numeral of at most 64 bits as its
    value. *)
Lemma digits_string_of_uint (d : Decimal.uint) : forall acc,
  0 <= acc ->
  decimal.value d acc <= strconv.maxUint64 ->
  strconv.digits (NilEmpty.string_of_uint d) acc
  = inr (decimal.value d acc).
Proof.
  induction d as [|d IH|d IH|d IH|d IH|d IH|d IH|d IH|d IH|d IH|d IH];
    intros acc Hacc Hmax; [reflexivity|..];
    cbn [NilEmpty.string_of_uint decimal.value] in *.
  - pose proof (value_ge d (acc * 10) ltac:(lia)) as Hge.
    rewrite (digits_step "0" 0 _ acc (proj1 digit_of_digit))
      by lia.
    rewrite Z.add_0_r. apply IH; [lia|exact Hmax].
  - pose proof (value_ge d (acc * 10 + 1) ltac:(lia)) as Hge.
    rewrite (digits_step "1" 1 _ acc (proj1 (proj2 digit_of_digit)))
      by lia.
    apply IH; [lia|exact Hmax].
  - pose proof (value_ge d (acc * 10 + 2) ltac:(lia)) as Hge.
    rewrite (digits_step "2" 2 _ acc
               (proj1 (proj2 (proj2 digit_of_digit)))) by lia.
    apply IH; [lia|exact Hmax].
  - pose proof (value_ge d (acc * 10 + 3) ltac:(lia)) as Hge.
    rewrite (digits_step "3" 3 _ acc
               (proj1 (proj2 (proj2 (proj2 digit_of_digit))))) by lia.
    apply IH; [lia|exact Hmax].
  - pose proof (value_ge d (acc * 10 + 4) ltac:(lia)) as Hge.
    rewrite (digits_step "4" 4 _ acc
               (proj1 (proj2 (proj2 (proj2 (proj2 digit_of_digit))))))
      by lia.
    apply IH; [lia|exact Hmax].
  - pose proof (value_ge d (acc * 10 + 5) ltac:(lia)) as Hge.
    rewrite (digits_step "5" 5 _ acc
               (proj1 (proj2 (proj2 (proj2 (proj2
                  (proj2 digit_of_digit))))))) by lia.
    apply IH; [lia|exact Hmax].
  - pose proof (value_ge d (acc * 10 + 6) ltac:(lia)) as Hge.
    rewrite (digits_step "6" 6 _ acc
               (proj1 (proj2 (proj2 (proj2 (proj2 (proj2
                  (proj2 digit_of_digit)))))))) by lia.
    apply IH; [lia|exact Hmax].
  - pose proof (value_ge d (acc * 10 + 7) ltac:(lia)) as Hge.
    rewrite (digits_step "7" 7 _ acc
               (proj1 (proj2 (proj2 (proj2 (proj2 (proj2
                  (proj2 (proj2 digit_of_digit))))))))) by lia.
    apply IH; [lia|exact Hmax].
  - pose proof (value_ge d (acc * 10 + 8) ltac:(lia)) as Hge.
    rewrite (digits_step "8" 8 _ acc
               (proj1 (proj2 (proj2 (proj2 (proj2 (proj2
                  (proj2 (proj2 (proj2 digit_of_digit))))))))))
      by lia.
    apply IH; [lia|exact Hmax].
  - pose proof (value_ge d (acc * 10 + 9) ltac:(lia)) as Hge.
    rewrite (digits_step "9" 9 _ acc
               (proj2 (proj2 (proj2 (proj2 (proj2 (proj2
                  (proj2 (proj2 (proj2 digit_of_digit))))))))))
      by lia.
    apply IH; [lia|exact Hmax].
Qed.

Lemma value_positive (d : Decimal.uint) : forall acc : positive,
  decimal.value d (Z.pos acc) = Z.pos (Pos.of_uint_acc d acc).
Proof.
  induction d as [|d IH|d IH|d IH|d IH|d IH|d IH|d IH|d IH|d IH|d IH];
    intros acc; [reflexivity|..];
    cbn [decimal.value Pos.of_uint_acc]; rewrite <- IH; f_equal; lia.
Qed.

Lemma value_of_uint (d : Decimal.uint) :
  decimal.value d 0 = Z.of_N (Pos.of_uint d).
Proof.
  induction d as [|d IH|d IH|d IH|d IH|d IH|d IH|d IH|d IH|d IH|d IH];
    [reflexivity|exact IH|..];
    cbn [decimal.value Pos.of_uint Z.of_N Z.mul Z.add];
    apply value_positive.
Qed.

Lemma value_to_uint (p : positive) :
  decimal.value (Pos.to_uint p) 0 = Z.pos p.
Proof. now rewrite value_of_uint, DecimalPos.Unsigned.of_to. Qed.

(** The digit loop on the numeral of a positive number of at most 64
    bits. *)
Lemma digits_to_uint (p : positive) :
  Z.pos p <= strconv.maxUint64 ->
  strconv.digits (NilEmpty.string_of_uint (Pos.to_uint p)) 0
  = inr (Z.pos p).
Proof.
  intros Hmax.
  rewrite (digits_string_of_uint (Pos.to_uint p) 0 ltac:(lia))
    by now rewrite value_to_uint.
  now rewrite value_to_uint.
Qed.

(** [Atoi] on a string that does not start with a sign. *)
Lemma Atoi_unsigned c rest :
  Ascii.eqb c "-" = false ->
  Ascii.eqb c "+" = false ->
  strconv.Atoi (String c rest)
  = match strconv.digits (String c rest) 0 with
    | inl e => inl e
    | inr n =>
        if (strconv.minInt <=? n) && (n <=? strconv.maxInt) then inr n
        else inl strconv.ErrRange
    end.
Proof. intros Hm Hp. unfold strconv.Atoi. now rewrite Hm, Hp. Qed.

(** The numeral of a positive number starts with a digit. *)
Lemma string_of_to_uint (p : positive) :
  exists c rest,
    NilEmpty.string_of_uint (Pos.to_uint p) = String c rest
    /\ Ascii.eqb c "-" = false /\ Ascii.eqb c "+" = false.
Proof.
  pose proof (DecimalPos.Unsigned.to_uint_nonnil p) as Hnn.
  destruct (Pos.to_uint p); [now destruct Hnn|..];
    eexists _, _; repeat split.
Qed.

(** [Atoi] reads back what [Itoa] writes. *)
Lemma Atoi_after_Itoa (z : Z) :
  strconv.minInt <= z <= strconv.maxInt ->
  strconv.Atoi (strconv.Itoa z) = inr z.
Proof.
  intros Hrange. unfold strconv.Itoa.
  assert (Hmin : strconv.minInt = -9223372036854775808) by reflexivity.
  assert (Hmaxi : strconv.maxInt = 9223372036854775807) by reflexivity.
  destruct z as [|p|p]; [reflexivity|..];
    cbn [Z.to_int NilZero.string_of_int];
    pose proof (DecimalPos.Unsigned.to_uint_nonnil p) as Hnn;
    destruct (string_of_to_uint p) as (c & rest & Hs & Hm & Hp);
    pose proof (digits_to_uint p
                  ltac:(rewrite maxUint64_value; lia)) as Hd;
    unfold NilZero.string_of_uint;
    (destruct (Pos.to_uint p) eqn:Hu; [now destruct Hnn|..]);
    rewrite <- Hu in *; clear Hu.
  all: rewrite Hs in *.
  all: try (rewrite (Atoi_unsigned c rest Hm Hp), Hd;
            replace ((strconv.minInt <=? Z.pos p) && (Z.pos p <=? strconv.maxInt))
              with true; [reflexivity|];
            symmetry; apply andb_true_iff; split; apply Z.leb_le; lia).
  all: unfold strconv.Atoi; cbn [Ascii.eqb Bool.eqb orb]; rewrite Hd;
    change (- Z.pos p) with (Z.neg p);
    replace ((strconv.minInt <=? Z.neg p) && (Z.neg p <=? strconv.maxInt))
      with true; [reflexivity|];
    symmetry; apply andb_true_iff; split; apply Z.leb_le; lia.
Qed.

(** X23: the decimal IDs of the adapter lose nothing: for every integer
    of the 64-bit range, [Atoi] of its [Itoa] is the integer, the string
    is never empty, and two integers of the range with the same string
    are the same integer. *)
Theorem X23_Atoi_Itoa (z z' : Z) :
  strconv.minInt <= z <= strconv.maxInt ->
  strconv.minInt <= z' <= strconv.maxInt ->
  strconv.Atoi (strconv.Itoa z) = inr z
  /\ strconv.Itoa z <> ""
  /\ (strconv.Itoa z = strconv.Itoa z' -> z = z').
Proof.
  intros Hz Hz'. pose proof (Atoi_after_Itoa z Hz) as Hback.
  split; [exact Hback|]. split.
  - intros Hempty. rewrite Hempty in Hback. discriminate Hback.
  - intros Heq. rewrite Heq, (Atoi_after_Itoa z' Hz') in Hback.
    now injection Hback.
Qed.

(** X23 at the smallest 64-bit integer. *)
Lemma X23_Atoi_Itoa_witness :
  strconv.Atoi (strconv.Itoa (-9223372036854775808))
  = inr (-9223372036854775808).
Proof.
  refine (proj1 (X23_Atoi_Itoa (-9223372036854775808) 0 _ _));
    unfold strconv.minInt, strconv.maxInt; lia.
Defined.

(** X24: the forum ID [ListPosts] writes reads back in [CreatePost]: for
    a post listed for a topic whose category ID is in the 64-bit range,
    [CreatePost] on any adapter with a client sends the topic's category
    ID as category and the topic's title as title. *)
Theorem X24_listed_post_category `{Svc : discourse.Services}
    (sys sys' : discourse.System) (c : Client) (cats : CategoriesResponse)
    (users : list UserModel) (i : TopicModel) (p : post.Post)
    (listedAt clock : nat) :
  views.listed sys cats users i p listedAt ->
  strconv.minInt <= TopicModel_CategoryID i <= strconv.maxInt ->
  discourse.client sys' = Some c ->
  exists ap,
    calls (discourse.CreatePost sys' p clock) = [PostsCreate Background ap]
    /\ Category ap = TopicModel_CategoryID i
    /\ Title ap = TopicModel_Title i.
Proof.
  intros Hl Hrange Hc.
  destruct Hl as (_ & Hsubj & _ & _ & _ & _ & _ & _ & _ & _ & Hfid & _).
  assert (Hid : strconv.Atoi (forum.ID (post.Forum p))
                = inr (TopicModel_CategoryID i))
    by (rewrite Hfid; now apply Atoi_after_Itoa).
  unfold discourse.CreatePost, discourse.theClient, obind.
  rewrite Hid, Hc. cbn. eexists. split.
  - destruct (discourse.Posts_Create c Background _); reflexivity.
  - now cbn.
Qed.

(** X24 at the post listed for the topic 100 of category 11. *)
Lemma X24_listed_post_category_witness :
  exists ap,
    calls (discourse.CreatePost (Svc := fixtures.backend fixtures.oneParent)
             fixtures.loaded
             (post.mkPost "100" "Hello" "" "post" false false
                1600000000 1700000000 (author.mkAuthor "7" "ann")
                (forum.mkForum "11" "A1") [] 0) 1%nat)
    = [PostsCreate Background ap]
    /\ Category ap = 11
    /\ Title ap = "Hello".
Proof.
  apply (X24_listed_post_category
           (Svc := fixtures.backend fixtures.oneParent)
           fixtures.loaded fixtures.loaded (NewClient fixtures.cc)
           {| CategoryList := {| Categories := fixtures.oneParent |} |}
           [ {| UserModel_ID := 7; UserModel_Name := "ann" |} ]
           fixtures.topic _ 0%nat 1%nat).
  - unfold views.listed. cbn. repeat (split; [reflexivity|]).
    eexists. repeat split.
  - cbn. unfold strconv.minInt, strconv.maxInt. lia.
  - reflexivity.
Defined.

(** X25: a reply [LoadPost] built can be answered: for a post whose ID
    is the decimal form of a topic number other than -1, and a raw post
    of the stream, both in the 64-bit range, [CreateReply] on the reply
    [LoadPost] builds for the raw post, whatever its time stamp, sends
    the topic number as topic and the raw post's ID as reply-to number,
    with the converted content of the raw post as raw text. *)
Theorem X25_loaded_reply_request `{Svc : discourse.Services}
    (sys : discourse.System) (l : SugaredLogger) (c : Client)
    (p : post.Post) (topicID : Z) (i : PostModel) (createdAt : Time)
    (clock : nat) :
  discourse.logger sys = Some l ->
  discourse.client sys = Some c ->
  post.ID p = strconv.Itoa topicID ->
  strconv.minInt <= topicID <= strconv.maxInt ->
  topicID <> -1 ->
  strconv.minInt <= PostModel_ID i <= strconv.maxInt ->
  exists ap,
    calls (discourse.CreateReply sys (discourse.toReply sys p i createdAt)
             clock)
    = [PostsCreate Background ap]
    /\ TopicID ap = topicID
    /\ ReplyToPostNumber ap = PostModel_ID i
    /\ Raw ap = views.converted i.
Proof.
  intros Hl Hc Hpid Htopic Hsentinel Hpost.
  pose proof (Atoi_after_Itoa topicID Htopic) as Hback.
  assert (Hin : discourse.parseInReplyTo
                  (discourse.toReply sys p i createdAt)
                = inr topicID).
  { unfold discourse.parseInReplyTo, discourse.toReply. cbn. rewrite Hpid.
    destruct (strconv.Itoa topicID) eqn:Hs; [discriminate Hback|exact Hback]. }
  rewrite (CreateReply_parsed sys l c Hl Hc
             (discourse.toReply sys p i createdAt)
             (PostModel_ID i) topicID clock (Atoi_after_Itoa _ Hpost) Hin).
  eexists. split; [reflexivity|]. unfold discourse.replyRequest.
  apply Z.eqb_neq in Hsentinel. rewrite Hsentinel. now cbn.
Qed.

(** X25 at the second post of the example thread, in the topic 1. *)
Lemma X25_loaded_reply_request_witness :
  exists ap,
    calls (discourse.CreateReply
             (Svc := cases.converting cases.exampleThread)
             fixtures.loaded
             (discourse.toReply
                (Svc := cases.converting cases.exampleThread)
                fixtures.loaded fixtures.aPost
                (mkPostModel 2 "bob" 8 "<p>reply</p>" "1600000100")
                1600000100) 0%nat)
    = [PostsCreate Background ap]
    /\ TopicID ap = 1
    /\ ReplyToPostNumber ap = 2
    /\ Raw ap = "reply".
Proof.
  apply (X25_loaded_reply_request
           (Svc := cases.converting cases.exampleThread)
           fixtures.loaded zapLogger (NewClient fixtures.cc) fixtures.aPost
           1 (mkPostModel 2 "bob" 8 "<p>reply</p>" "1600000100")
           1600000100 0%nat eq_refl eq_refl eq_refl);
    unfold strconv.minInt, strconv.maxInt; cbn; lia.
Defined.

(** X26: the error [Do] returns for a response the retrying client
    hands it with a status outside [200, 204] answers [Type()] and
    [Message()] with the type and the message of the envelope decoded
    from the body, so that a caller can tell the backend's error
    categories apart; for a destination that decoding leaves untouched
    in those fields, they are the destination's own. *)
Theorem X26_RequestError_methods `{W : Wire} (c : Client) (ctx : Context)
    (req : Request) (dst dst' : Response) (n : nat) (res : http_Response)
    (body : string) :
  retryablehttp.Do (httpClient c) ctx (roundTrip req)
  = Returns (n, inr res) ->
  Body res = inr body ->
  spec.outside_success res ->
  json_Unmarshal body dst = (dst', None) ->
  exists e,
    Do c ctx req (Some dst) = Returns (Some e, Some dst')
    /\ is_RequestError e = true
    /\ RequestError_Type e = Response_Type dst'
    /\ RequestError_Message e = Response_Message dst'.
Proof.
  intros Hres Hbody Hout Hdec. unfold Do. rewrite Hres, Hbody, Hdec.
  rewrite checkStatus_outside by exact Hout.
  eexists. split; [reflexivity|]. repeat split.
Qed.

(** X26 at a 404 with an envelope. *)
Lemma X26_RequestError_methods_witness :
  exists e,
    Do (W := fixtures.notFound) (NewClient fixtures.cc) Background
      fixtures.getTopic (Some fixtures.noResponse)
    = Returns (Some e,
               Some (mkResponse "error" 0 "not found" ∅ fixtures.noPost []))
    /\ is_RequestError e = true
    /\ RequestError_Type e = "error"
    /\ RequestError_Message e = "not found".
Proof.
  exact (X26_RequestError_methods (W := fixtures.notFound)
           (NewClient fixtures.cc) Background fixtures.getTopic
           fixtures.noResponse
           (mkResponse "error" 0 "not found" ∅ fixtures.noPost [])
           1%nat {| StatusCode := 404; Body := inr "not found" |}
           "not found" eq_refl eq_refl (or_intror eq_refl) eq_refl).
Defined.
